(** * tfhe-go: key lifecycle, context binding and ciphertext marshalling

    A shallow embedding of the Go package [internal/tfhe] (the cgo bindings
    and the two services built on them).  The TFHE engine behind the C API
    is an external collaborator: it appears here as an abstract labelled
    transition system [cstep] over an engine state [E].  Go's heap of
    wrapper structs, the process-wide server-key holder and the sequence of
    engine calls and scheduler pin/unpin events are explicit state. *)

From Stdlib Require Import ZArith String Ascii List Lia DecimalString.
From Stdlib.Strings Require Import Byte.
From stdpp Require Import base numbers list strings.

Open Scope string_scope.
Open Scope list_scope.
Open Scope Z_scope.

(** ** Data model *)

(** A C pointer is an address; [NULL] is address 0. *)
Abbreviation cptr := N (only parsing).
Abbreviation NULL := 0%N (only parsing).

(** A Go pointer to a wrapper struct: [None] is Go's [nil], [Some l] is the
    address of a struct in the Go heap. *)
Abbreviation loc := nat (only parsing).
Abbreviation goptr := (option nat) (only parsing).

(** The functions of the C API that the bindings call, with their input
    arguments.  Out-parameters are part of the reply [cret]. *)
Inductive ccall : Type :=
| boolean_gen_keys_with_default_parameters
| boolean_destroy_client_key (p : cptr)
| boolean_destroy_server_key (p : cptr)
| boolean_destroy_ciphertext (p : cptr)
| boolean_client_key_encrypt (ck : cptr) (value : bool)
| boolean_client_key_decrypt (ck ct : cptr)
| boolean_server_key_and (sk lhs rhs : cptr)
| boolean_server_key_or (sk lhs rhs : cptr)
| boolean_server_key_xor (sk lhs rhs : cptr)
| boolean_server_key_not (sk input : cptr)
| boolean_serialize_ciphertext (ct : cptr)
| boolean_deserialize_ciphertext (view : list byte)
| destroy_dynamic_buffer (buf : list byte)
| config_builder_default
| config_builder_build (builder : cptr)
| generate_keys (config : cptr)
| set_server_key (sk : cptr)
| unset_server_key
| client_key_destroy (p : cptr)
| server_key_destroy (p : cptr)
| public_key_new (ck : cptr)
| public_key_destroy (p : cptr)
| fhe_uint8_try_encrypt_with_client_key_u8 (value : Z) (ck : cptr)
| fhe_uint8_try_encrypt_with_public_key_u8 (value : Z) (pk : cptr)
| fhe_uint8_decrypt (ct ck : cptr)
| fhe_uint8_destroy (p : cptr)
| fhe_uint8_add (lhs rhs : cptr)
| fhe_uint8_bitand (lhs rhs : cptr)
| fhe_uint8_bitxor (lhs rhs : cptr)
| fhe_uint8_serialize (ct : cptr)
| fhe_uint8_deserialize (view : list byte).

(** What a C call leaves behind: its status code and the contents of its
    out-parameters.  The Go side declares every out-variable zero-valued
    before the call, so a field the engine does not write reads as zero
    ([NULL], [false], [0], the empty buffer). *)
Record cret : Type := mkCret {
  code : Z;
  out_ptr : cptr;
  out_ptr2 : cptr;
  out_bool : bool;
  out_u8 : Z;
  out_buf : list byte
}.

(** Observable events: scheduler pinning and engine calls. *)
Inductive event : Type :=
| LockOSThread
| UnlockOSThread
| Call (c : ccall) (r : cret).

(** Result of running a Go function: a value, a returned [error], or a
    run-time panic. *)
Inductive outcome (A : Type) : Type :=
| Ok (a : A)
| Err (msg : string)
| Panic (msg : string).
Arguments Ok {A} a.
Arguments Err {A} msg.
Arguments Panic {A} msg.

(** 8-bit and 32-bit conversions. *)
Definition uint8 (z : Z) : Z := z mod 256.
Definition cint (z : Z) : Z := (z + 2 ^ 31) mod 2 ^ 32 - 2 ^ 31.

(** [%d] of a Go [int]. *)
Definition itoa (z : Z) : string := NilZero.string_of_int (Z.to_int z).

(** [BooleanService] and [Uint8Service] (service.go). *)
Record BooleanService : Type := mkBooleanService {
  bs_client : goptr;
  bs_server : goptr
}.

Record Uint8Service : Type := mkUint8Service {
  us_client : goptr;
  us_server : goptr;
  us_public : goptr
}.

(** Program state.  Every wrapper struct has the single field [ptr]; the
    Go heap maps a struct's address to that field.  [holder] is the package
    variable [defaultUint8ServerKeyHolder]; [trace] logs the events so far. *)
Record state (E : Type) : Type := mkState {
  eng : E;
  heap : list cptr;
  holder : goptr;
  trace : list event
}.
Arguments mkState {E} eng heap holder trace.
Arguments eng {E} s.
Arguments heap {E} s.
Arguments holder {E} s.
Arguments trace {E} s.

(** The engine behind the C API: its state [E] and its reaction to one
    call. *)
Class Engine (E : Type) : Type := cstep : ccall -> E -> cret * E.

(** [encoding/base64]'s [StdEncoding]; [DecodeString] returns the bytes and
    the [error] ([None] is [nil]). *)
Class Base64 : Type := {
  EncodeToString : list byte -> string;
  DecodeString : string -> list byte * option string
}.

(** ** [base64.StdEncoding]

    The padded standard alphabet of RFC 4648 as Go's [encoding/base64]
    decodes it: carriage returns and line feeds are skipped wherever
    they stand, the bits left over in the last quantum are not checked,
    and an error names the offset of the offending byte. *)

Module Base64Std.


(** The character of a 6-bit value in the standard alphabet. *)
Definition sextet_char (n : N) : ascii :=
  if (n <? 26)%N then ascii_of_N (65 + n)
  else if (n <? 52)%N then ascii_of_N (97 + (n - 26))
  else if (n <? 62)%N then ascii_of_N (48 + (n - 52))
  else if (n =? 62)%N then "+"%char
  else "/"%char.

Definition char_sextet (a : ascii) : option N :=
  let n := N_of_ascii a in
  if ((65 <=? n) && (n <=? 90))%N then Some (n - 65)%N
  else if ((97 <=? n) && (n <=? 122))%N then Some (n - 97 + 26)%N
  else if ((48 <=? n) && (n <=? 57))%N then Some (n - 48 + 52)%N
  else if (n =? 43)%N then Some 62%N
  else if (n =? 47)%N then Some 63%N
  else None.

Definition byte_of_N (n : N) : byte :=
  match Byte.of_N (n mod 256) with Some b => b | None => x00 end.

Fixpoint encode_chars (bs : list byte) : list ascii :=
  match bs with
  | [] => []
  | [a] =>
      let a := Byte.to_N a in
      [sextet_char (a / 4); sextet_char (a mod 4 * 16); "="%char; "="%char]
  | [a; b] =>
      let a := Byte.to_N a in
      let b := Byte.to_N b in
      [sextet_char (a / 4); sextet_char (a mod 4 * 16 + b / 16);
       sextet_char (b mod 16 * 4); "="%char]
  | a :: b :: c :: rest =>
      let a := Byte.to_N a in
      let b := Byte.to_N b in
      let c := Byte.to_N c in
      sextet_char (a / 4) :: sextet_char (a mod 4 * 16 + b / 16)
        :: sextet_char (b mod 16 * 4 + c / 64) :: sextet_char (c mod 64)
        :: encode_chars rest
  end%N.

Definition is_pad (a : ascii) : bool := Ascii.eqb a "="%char.

Definition is_newline (a : ascii) : bool :=
  Ascii.eqb a "010"%char || Ascii.eqb a "013"%char.

(** [CorruptInputError(n).Error()] *)
Definition CorruptInputError (n : nat) : string :=
  "illegal base64 data at input byte " +:+ itoa (Z.of_nat n).

(** The input from index [si] on, without its leading newlines. *)
Fixpoint skip_newlines (cs : list ascii) (si : nat) : list ascii * nat :=
  match cs with
  | c :: rest => if is_newline c then skip_newlines rest (S si) else (cs, si)
  | [] => ([], si)
  end.

(** After the padding of the last quantum only newlines may follow;
    the bytes of the quantum are returned with the error. *)
Definition after_padding (cs : list ascii) (si : nat) (out : list byte)
    : list byte * option string :=
  match skip_newlines cs si with
  | ([], _) => (out, None)
  | (_ :: _, si') => (out, Some (CorruptInputError si'))
  end.

(** [Decode], quantum by quantum as [decodeQuantum] reads them: [cs] is
    the input from index [si] on, [q] holds the sextets of the current
    quantum, and [out] the bytes decoded so far, which are returned with
    an error too. *)
Fixpoint decode_chars (cs : list ascii) (si : nat) (q : list N) (out : list byte)
    : list byte * option string :=
  match cs with
  | [] =>
      match q with
      | [] => (out, None)
      | _ :: _ => (out, Some (CorruptInputError (si - length q)))
      end
  | c :: rest =>
      match char_sextet c with
      | Some s =>
          match q with
          | [s1; s2; s3] =>
              decode_chars rest (S si) []
                (out ++ [byte_of_N (s1 * 4 + s2 / 16);
                         byte_of_N (s2 mod 16 * 16 + s3 / 4);
                         byte_of_N (s3 mod 4 * 64 + s)])
          | _ => decode_chars rest (S si) (q ++ [s]) out
          end
      | None =>
          if is_newline c then decode_chars rest (S si) q out
          else if negb (is_pad c) then (out, Some (CorruptInputError si))
          else
            match q with
            | [s1; s2] =>
                match skip_newlines rest (S si) with
                | ([], si') => (out, Some (CorruptInputError si'))
                | (c2 :: rest2, si') =>
                    if is_pad c2
                    then after_padding rest2 (S si')
                           (out ++ [byte_of_N (s1 * 4 + s2 / 16)])
                    else (out, Some (CorruptInputError (si' - 1)))
                end
            | [s1; s2; s3] =>
                after_padding rest (S si)
                  (out ++ [byte_of_N (s1 * 4 + s2 / 16);
                           byte_of_N (s2 mod 16 * 16 + s3 / 4)])
            | _ => (out, Some (CorruptInputError si))
            end
      end
  end%N.

Definition encode (bs : list byte) : string :=
  string_of_list_ascii (encode_chars bs).

Definition decode (s : string) : list byte * option string :=
  decode_chars (list_ascii_of_string s) 0 [] [].

Definition codec : Base64 :=
  {| EncodeToString := encode; DecodeString := decode |}.

End Base64Std.

(** ** A reference engine

    An idealised engine in which a ciphertext simply stores its plaintext.
    It allocates fresh addresses, checks the kind of every argument and
    reports status 1 for anything else.  It instantiates the abstract
    engine in concrete runs. *)

Module Ideal.

Inductive obj : Type :=
| Freed
| BoolClientKey
| BoolServerKey
| BoolCiphertext (v : bool)
| Builder
| Config
| ClientKey
| ServerKey
| PublicKey
| Uint8Ciphertext (v : Z).

(** Engine memory and the thread-local server key ([NULL] when unset). *)
Record t : Type := mk { objs : list obj; tls : cptr }.

Definition init : t := mk [] NULL.

Definition get (e : t) (p : cptr) : obj :=
  if N.eqb p NULL then Freed
  else default Freed (objs e !! (N.to_nat p - 1)%nat).

Definition next (e : t) : cptr := N.of_nat (S (length (objs e))).

Definition alloc (o : obj) (e : t) : t := mk (objs e ++ [o]) (tls e).

Definition free (p : cptr) (e : t) : t :=
  mk (<[(N.to_nat p - 1)%nat := Freed]> (objs e)) (tls e).

Definition ok : cret := mkCret 0 NULL NULL false 0 [].
Definition ko : cret := mkCret 1 NULL NULL false 0 [].
Definition ok_ptr (p : cptr) : cret := mkCret 0 p NULL false 0 [].
Definition ok_ptr2 (p q : cptr) : cret := mkCret 0 p q false 0 [].
Definition ok_bool (b : bool) : cret := mkCret 0 NULL NULL b 0 [].
Definition ok_u8 (v : Z) : cret := mkCret 0 NULL NULL false v [].
Definition ok_buf (bs : list byte) : cret := mkCret 0 NULL NULL false 0 bs.

Definition same_kind (a b : obj) : bool :=
  match a, b with
  | Freed, _ => false
  | BoolClientKey, BoolClientKey | BoolServerKey, BoolServerKey
  | BoolCiphertext _, BoolCiphertext _ | Builder, Builder | Config, Config
  | ClientKey, ClientKey | ServerKey, ServerKey | PublicKey, PublicKey
  | Uint8Ciphertext _, Uint8Ciphertext _ => true
  | _, _ => false
  end.

Definition destroy (kind : obj) (p : cptr) (e : t) : cret * t :=
  if same_kind (get e p) kind then (ok, free p e) else (ko, e).

Definition gate (f : bool -> bool -> bool) (sk lhs rhs : cptr) (e : t) : cret * t :=
  match get e sk, get e lhs, get e rhs with
  | BoolServerKey, BoolCiphertext a, BoolCiphertext b =>
      (ok_ptr (next e), alloc (BoolCiphertext (f a b)) e)
  | _, _, _ => (ko, e)
  end.

Definition arith (f : Z -> Z -> Z) (lhs rhs : cptr) (e : t) : cret * t :=
  match get e (tls e), get e lhs, get e rhs with
  | ServerKey, Uint8Ciphertext a, Uint8Ciphertext b =>
      (ok_ptr (next e), alloc (Uint8Ciphertext (f a b)) e)
  | _, _, _ => (ko, e)
  end.

Definition bool_byte (v : bool) : byte := if v then x01 else x00.
Definition u8_byte (v : Z) : byte := Base64Std.byte_of_N (Z.to_N v).

Definition step (c : ccall) (e : t) : cret * t :=
  match c with
  | boolean_gen_keys_with_default_parameters =>
      (ok_ptr2 (next e) (next e + 1)%N,
       alloc BoolServerKey (alloc BoolClientKey e))
  | boolean_destroy_client_key p => destroy BoolClientKey p e
  | boolean_destroy_server_key p => destroy BoolServerKey p e
  | boolean_destroy_ciphertext p => destroy (BoolCiphertext false) p e
  | boolean_client_key_encrypt ck v =>
      match get e ck with
      | BoolClientKey => (ok_ptr (next e), alloc (BoolCiphertext v) e)
      | _ => (ko, e)
      end
  | boolean_client_key_decrypt ck ct =>
      match get e ck, get e ct with
      | BoolClientKey, BoolCiphertext v => (ok_bool v, e)
      | _, _ => (ko, e)
      end
  | boolean_server_key_and sk l r => gate andb sk l r e
  | boolean_server_key_or sk l r => gate orb sk l r e
  | boolean_server_key_xor sk l r => gate xorb sk l r e
  | boolean_server_key_not sk i =>
      match get e sk, get e i with
      | BoolServerKey, BoolCiphertext a =>
          (ok_ptr (next e), alloc (BoolCiphertext (negb a)) e)
      | _, _ => (ko, e)
      end
  | boolean_serialize_ciphertext ct =>
      match get e ct with
      | BoolCiphertext v => (ok_buf [x42; bool_byte v], e)
      | _ => (ko, e)
      end
  | boolean_deserialize_ciphertext view =>
      match view with
      | [t; b] =>
          if Byte.eqb t x42 && (Byte.eqb b x00 || Byte.eqb b x01)
          then (ok_ptr (next e), alloc (BoolCiphertext (Byte.eqb b x01)) e)
          else (ko, e)
      | _ => (ko, e)
      end
  | destroy_dynamic_buffer _ => (ok, e)
  | config_builder_default => (ok_ptr (next e), alloc Builder e)
  | config_builder_build b =>
      match get e b with
      | Builder => (ok_ptr (next e), alloc Config (free b e))
      | _ => (ko, e)
      end
  | generate_keys cfg =>
      match get e cfg with
      | Config =>
          (ok_ptr2 (next e) (next e + 1)%N,
           alloc ServerKey (alloc ClientKey (free cfg e)))
      | _ => (ko, e)
      end
  | set_server_key sk =>
      match get e sk with
      | ServerKey => (ok, mk (objs e) sk)
      | _ => (ko, e)
      end
  | unset_server_key => (ok, mk (objs e) NULL)
  | client_key_destroy p => destroy ClientKey p e
  | server_key_destroy p => destroy ServerKey p e
  | public_key_new ck =>
      match get e ck with
      | ClientKey => (ok_ptr (next e), alloc PublicKey e)
      | _ => (ko, e)
      end
  | public_key_destroy p => destroy PublicKey p e
  | fhe_uint8_try_encrypt_with_client_key_u8 v ck =>
      match get e ck with
      | ClientKey => (ok_ptr (next e), alloc (Uint8Ciphertext (v mod 256)) e)
      | _ => (ko, e)
      end
  | fhe_uint8_try_encrypt_with_public_key_u8 v pk =>
      match get e pk with
      | PublicKey => (ok_ptr (next e), alloc (Uint8Ciphertext (v mod 256)) e)
      | _ => (ko, e)
      end
  | fhe_uint8_decrypt ct ck =>
      match get e ck, get e ct with
      | ClientKey, Uint8Ciphertext v => (ok_u8 v, e)
      | _, _ => (ko, e)
      end
  | fhe_uint8_destroy p => destroy (Uint8Ciphertext 0) p e
  | fhe_uint8_add l r => arith (fun a b => (a + b) mod 256) l r e
  | fhe_uint8_bitand l r => arith Z.land l r e
  | fhe_uint8_bitxor l r => arith Z.lxor l r e
  | fhe_uint8_serialize ct =>
      match get e ct with
      | Uint8Ciphertext v => (ok_buf [x55; u8_byte v], e)
      | _ => (ko, e)
      end
  | fhe_uint8_deserialize view =>
      match view with
      | [t; b] =>
          if Byte.eqb t x55
          then (ok_ptr (next e), alloc (Uint8Ciphertext (Z.of_N (Byte.to_N b))) e)
          else (ko, e)
      | _ => (ko, e)
      end
  end.

Definition engine : Engine t := step.

(** The state of a freshly started process. *)
Definition start : state t := mkState init [] None [].

End Ideal.

(** ** Properties of event sequences *)

(** The pointer a call takes ownership of, if it destroys or consumes
    one. *)
Definition consumes (c : ccall) : option cptr :=
  match c with
  | boolean_destroy_client_key p | boolean_destroy_server_key p
  | boolean_destroy_ciphertext p | client_key_destroy p
  | server_key_destroy p | public_key_destroy p | fhe_uint8_destroy p
  | config_builder_build p | generate_keys p => Some p
  | _ => None
  end.

(** The ContextBinder state machine of one execution lane, read off the
    events: the goroutine is pinned by [LockOSThread], a successful
    [set_server_key] registers the ambient key, [unset_server_key]
    deregisters it, [UnlockOSThread] unpins.  Unpinning while a key is
    registered is rejected, and so is registering without a pin. *)
Inductive lane : Type := Unbound | Pinned | Bound.

Definition lane_step (s : lane) (ev : event) : option lane :=
  match ev, s with
  | LockOSThread, Unbound => Some Pinned
  | LockOSThread, _ => None
  | Call (set_server_key _) r, Pinned =>
      Some (if code r =? 0 then Bound else Pinned)
  | Call (set_server_key _) _, _ => None
  | Call unset_server_key _, Bound => Some Pinned
  | Call unset_server_key _, _ => None
  | UnlockOSThread, Pinned => Some Unbound
  | UnlockOSThread, _ => None
  | Call _ _, s => Some s
  end.

Fixpoint lane_run (s : lane) (evs : list event) : option lane :=
  match evs with
  | [] => Some s
  | ev :: rest =>
      match lane_step s ev with
      | Some s' => lane_run s' rest
      | None => None
      end
  end.

(** The two calls that touch the lane's ambient key. *)
Definition ambient (c : ccall) : bool :=
  match c with
  | set_server_key _ | unset_server_key => true
  | _ => false
  end.

(** The two ciphertext families and the calls that hand out a new
    ciphertext of each. *)
Inductive family : Type := Boolean | Uint8.

Definition creates (c : ccall) : option family :=
  match c with
  | boolean_client_key_encrypt _ _ | boolean_server_key_and _ _ _
  | boolean_server_key_or _ _ _ | boolean_server_key_xor _ _ _
  | boolean_server_key_not _ _ | boolean_deserialize_ciphertext _ => Some Boolean
  | fhe_uint8_try_encrypt_with_client_key_u8 _ _
  | fhe_uint8_try_encrypt_with_public_key_u8 _ _
  | fhe_uint8_add _ _ | fhe_uint8_bitand _ _ | fhe_uint8_bitxor _ _
  | fhe_uint8_deserialize _ => Some Uint8
  | _ => None
  end.

(** [ev] passes ciphertext [p] of family [f] to the engine's destroy. *)
Definition destroys (f : family) (p : cptr) (ev : event) : bool :=
  match ev, f with
  | Call (boolean_destroy_ciphertext q) _, Boolean => N.eqb p q
  | Call (fhe_uint8_destroy q) _, Uint8 => N.eqb p q
  | _, _ => false
  end.

(** The ciphertext a successful call has created, if any. *)
Definition created (ev : event) : option (family * cptr) :=
  match ev with
  | Call c r =>
      match creates c with
      | Some f =>
          if (code r =? 0) && negb (N.eqb (out_ptr r) NULL)
          then Some (f, out_ptr r) else None
      | None => None
      end
  | _ => None
  end.

(** Every ciphertext created in [evs] is handed to destroy later in
    [evs]. *)
Fixpoint all_released (evs : list event) : bool :=
  match evs with
  | [] => true
  | ev :: rest =>
      match created ev with
      | Some (f, p) => existsb (destroys f p) rest
      | None => true
      end && all_released rest
  end.

(** [ev] is a destroy of ciphertext [p] that the engine refused. *)
Definition refuses (p : cptr) (ev : event) : bool :=
  match ev with
  | Call (boolean_destroy_ciphertext q) r | Call (fhe_uint8_destroy q) r =>
      N.eqb p q && negb (code r =? 0)
  | _ => false
  end.

(** A wrapper's pointer at return: cleared, or its destroy was refused. *)
Definition settled (evs : list event) (p : cptr) : bool :=
  N.eqb p NULL || existsb (refuses p) evs.

(** The keys passed to [set_server_key] in [evs]. *)
Fixpoint bind_calls (evs : list event) : list cptr :=
  match evs with
  | [] => []
  | Call (set_server_key p) _ :: rest => p :: bind_calls rest
  | _ :: rest => bind_calls rest
  end.

(** What the engine holds at an address, or what a byte string encodes;
    [k] names the key pair. *)
Inductive content (K : Type) : Type :=
| KBoolClient (k : K)
| KBoolServer (k : K)
| CBool (k : K) (v : bool)
| HBuilder
| HConfig
| KClient (k : K)
| KServer (k : K)
| KPublic (k : K)
| CUint8 (k : K) (v : Z).
Arguments KBoolClient {K} k.
Arguments KBoolServer {K} k.
Arguments CBool {K} k v.
Arguments HBuilder {K}.
Arguments HConfig {K}.
Arguments KClient {K} k.
Arguments KServer {K} k.
Arguments KPublic {K} k.
Arguments CUint8 {K} k v.

(** The view of the reference engine that the engine's contract speaks
    about.  The reference engine has a single key pair per family. *)
Module IdealView.

Definition obj_of (x : content unit) : Ideal.obj :=
  match x with
  | KBoolClient _ => Ideal.BoolClientKey
  | KBoolServer _ => Ideal.BoolServerKey
  | CBool _ v => Ideal.BoolCiphertext v
  | HBuilder => Ideal.Builder
  | HConfig => Ideal.Config
  | KClient _ => Ideal.ClientKey
  | KServer _ => Ideal.ServerKey
  | KPublic _ => Ideal.PublicKey
  | CUint8 _ v => Ideal.Uint8Ciphertext v
  end.

Definition in_range (x : content unit) : Prop :=
  match x with
  | CUint8 _ v => 0 <= v < 256
  | _ => True
  end.

Definition holds (e : Ideal.t) (p : cptr) (x : content unit) : Prop :=
  Ideal.get e p = obj_of x /\ in_range x.

Definition bound (e : Ideal.t) (k : unit) : Prop :=
  Ideal.get e (Ideal.tls e) = Ideal.ServerKey.

Definition encodes (bs : list byte) (x : content unit) : Prop :=
  match x with
  | CBool _ v => bs = [x42; Ideal.bool_byte v]
  | CUint8 _ v => 0 <= v < 256 /\ bs = [x55; Ideal.u8_byte v]
  | _ => False
  end.

(** A process in which both services have been constructed. *)
Definition ready : state Ideal.t :=
  mkState
    (Ideal.mk [Ideal.BoolClientKey; Ideal.BoolServerKey; Ideal.ClientKey;
               Ideal.ServerKey; Ideal.PublicKey] 4%N)
    [1%N; 2%N; 3%N; 4%N; 5%N] (Some 3%nat) [].

(** The same process holding a boolean ciphertext of [true] and an
    integer ciphertext of [200]. *)
Definition holding : state Ideal.t :=
  mkState
    (Ideal.mk [Ideal.BoolClientKey; Ideal.BoolServerKey; Ideal.ClientKey;
               Ideal.ServerKey; Ideal.PublicKey; Ideal.BoolCiphertext true;
               Ideal.Uint8Ciphertext 200] 4%N)
    [1%N; 2%N; 3%N; 4%N; 5%N; 6%N; 7%N] (Some 3%nat) [].

(** The process after the integer service has been closed. *)
Definition closed : state Ideal.t :=
  mkState
    (Ideal.mk [Ideal.BoolClientKey; Ideal.BoolServerKey; Ideal.Freed;
               Ideal.Freed; Ideal.Freed] 0%N)
    [1%N; 2%N; 0%N; 0%N; 0%N] (Some 3%nat) [].

Definition boolean_service : BooleanService :=
  mkBooleanService (Some 0%nat) (Some 1%nat).

Definition uint8_service : Uint8Service :=
  mkUint8Service (Some 2%nat) (Some 3%nat) (Some 4%nat).

End IdealView.

(** ** The ambient key and the integer primitives *)

(** The engine functions that compute with the lane's ambient server
    key. *)
Definition needs_key (c : ccall) : bool :=
  match c with
  | fhe_uint8_add _ _ | fhe_uint8_bitand _ _ | fhe_uint8_bitxor _ _ => true
  | _ => false
  end.

(** The ContextBinder state machine with one more rule: a primitive that
    needs the ambient key is accepted only while a key is bound. *)
Definition keyed_step (s : lane) (ev : event) : option lane :=
  match ev, s with
  | Call c _, Bound => lane_step s ev
  | Call c _, _ => if needs_key c then None else lane_step s ev
  | _, _ => lane_step s ev
  end.

Fixpoint keyed_run (s : lane) (evs : list event) : option lane :=
  match evs with
  | [] => Some s
  | ev :: rest =>
      match keyed_step s ev with
      | Some s' => keyed_run s' rest
      | None => None
      end
  end.

(** An event that touches neither the pin, nor the ambient key, nor a
    primitive that needs it. *)
Definition keyless (ev : event) : bool :=
  match ev with
  | Call c _ => negb (ambient c) && negb (needs_key c)
  | _ => false
  end.

(** ** Circuits over the two services *)

Inductive bexpr : Type :=
| BLit (b : bool)
| BAnd (x y : bexpr)
| BOr (x y : bexpr)
| BXor (x y : bexpr)
| BNot (x : bexpr).

Fixpoint bvalue (e : bexpr) : bool :=
  match e with
  | BLit b => b
  | BAnd x y => bvalue x && bvalue y
  | BOr x y => bvalue x || bvalue y
  | BXor x y => xorb (bvalue x) (bvalue y)
  | BNot x => negb (bvalue x)
  end.

(** [UPub] is a literal encrypted with the public key. *)
Inductive uexpr : Type :=
| ULit (v : Z)
| UPub (v : Z)
| UAdd (x y : uexpr)
| UBitAnd (x y : uexpr)
| UBitXor (x y : uexpr).

Fixpoint uvalue (e : uexpr) : Z :=
  match e with
  | ULit v | UPub v => v
  | UAdd x y => (uvalue x + uvalue y) mod 256
  | UBitAnd x y => Z.land (uvalue x) (uvalue y)
  | UBitXor x y => Z.lxor (uvalue x) (uvalue y)
  end.

(** Every literal is a Go [uint8]. *)
Fixpoint uliterals (e : uexpr) : Prop :=
  match e with
  | ULit v | UPub v => 0 <= v < 256
  | UAdd x y | UBitAnd x y | UBitXor x y => uliterals x /\ uliterals y
  end.

(** ** HTTP: requests, responses and JSON bodies (internal/httpapi) *)

(** A JSON value of the kinds the handlers read and write, and a JSON
    object with its members in order. *)
Inductive jvalue : Type :=
| JString (s : string)
| JBool (b : bool)
| JNumber (n : Z).

Abbreviation jobject := (list (string * jvalue)) (only parsing).

(** What a handler reads of [*http.Request]. *)
Record Request : Type := mkRequest {
  Method : string;
  Body : string
}.

(** [http.ResponseWriter] as the handlers use it: the header map, the
    status code once it has been sent, and the values encoded to the body
    so far. *)
Record ResponseWriter : Type := mkResponseWriter {
  rw_header : list (string * string);
  rw_status : option Z;
  rw_body : list jobject
}.

Definition MethodPost : string := "POST".
Definition StatusOK : Z := 200.
Definition StatusBadRequest : Z := 400.
Definition StatusMethodNotAllowed : Z := 405.
Definition StatusInternalServerError : Z := 500.

(** [w.Header().Set(key, value)] *)
Definition Header_Set (key value : string) (w : ResponseWriter) : ResponseWriter :=
  mkResponseWriter
    ((key, value) ::
       List.filter (fun kv => negb (String.eqb (fst kv) key)) (rw_header w))
    (rw_status w) (rw_body w).

(** [w.WriteHeader(statusCode)]: only the first call counts. *)
Definition WriteHeader (statusCode : Z) (w : ResponseWriter) : ResponseWriter :=
  match rw_status w with
  | Some _ => w
  | None => mkResponseWriter (rw_header w) (Some statusCode) (rw_body w)
  end.

(** [json.NewEncoder(w).Encode(body)]: a write before any [WriteHeader]
    sends status 200 first. *)
Definition Encode (body : jobject) (w : ResponseWriter) : ResponseWriter :=
  let w' := WriteHeader StatusOK w in
  mkResponseWriter (rw_header w') (rw_status w') (rw_body w' ++ [body]).

(** [json.NewDecoder(r.Body).Decode(&req)] for the four request shapes of
    the handlers: [{Value bool}], [{Value uint8}], [{Ciphertext string}]
    and [{Left, Right string}].  The left injection is the decoder's
    [error]. *)
Class Json : Type := {
  DecodeBoolValue : string -> string + bool;
  DecodeUint8Value : string -> string + Z;
  DecodeCiphertext : string -> string + string;
  DecodeLeftRight : string -> string + (string * string)
}.

(** [Handler] (the services are held by value, as everywhere here). *)
Record Handler : Type := mkHandler {
  h_boolean : BooleanService;
  h_uint8 : Uint8Service
}.

(** ** [json.NewDecoder(r.Body).Decode]

    The decoder of [encoding/json] on the four request shapes.  It reads
    the first JSON value of the body (RFC 8259: white space between
    tokens, nested objects and arrays, string escapes, numbers without
    leading zeros) and leaves what follows it unread.  An object sets the
    fields whose names match a key without regard to case, the last of
    several matching members winning; [null], for the whole value or for
    a member, sets nothing; a member of another kind than its field, and
    a value that is neither an object nor [null], are errors.  The texts
    of syntax and type errors are not those of Go, which name the
    offending byte and field, and the body is taken to nest less deeply
    than the limit of [encoding/json]. *)

Module JsonStd.

Definition dquote : ascii := "034"%char.
Definition backslash : ascii := "092"%char.

(** A JSON value; a number keeps its literal. *)
#[local] Unset Elimination Schemes.
Inductive value : Type :=
| Null
| Bool (b : bool)
| Number (literal : list ascii)
| Str (s : list ascii)
| Array (vs : list value)
| Object (ms : list (list ascii * value)).
#[local] Set Elimination Schemes.

(** The outcome of scanning: what was read and the input after it, a
    syntax error, or the end of the input inside a value. *)
Inductive scan (A : Type) : Type :=
| Scanned (a : A) (rest : list ascii)
| SyntaxError
| UnexpectedEOF.
Arguments Scanned {A} a rest.
Arguments SyntaxError {A}.
Arguments UnexpectedEOF {A}.

Definition scan_map {A B} (f : A -> B) (r : scan A) : scan B :=
  match r with
  | Scanned a rest => Scanned (f a) rest
  | SyntaxError => SyntaxError
  | UnexpectedEOF => UnexpectedEOF
  end.

Definition code (c : ascii) : N := N_of_ascii c.

Definition is_space (c : ascii) : bool :=
  let n := code c in ((n =? 32) || (n =? 9) || (n =? 13) || (n =? 10))%N.

Fixpoint skip_space (cs : list ascii) : list ascii :=
  match cs with
  | c :: rest => if is_space c then skip_space rest else cs
  | [] => []
  end.

Definition is_digit (c : ascii) : bool :=
  let n := code c in ((48 <=? n) && (n <=? 57))%N.

Definition hex (c : ascii) : option N :=
  let n := code c in
  if ((48 <=? n) && (n <=? 57))%N then Some (n - 48)%N
  else if ((97 <=? n) && (n <=? 102))%N then Some (n - 87)%N
  else if ((65 <=? n) && (n <=? 70))%N then Some (n - 55)%N
  else None.

(** *** Strings *)

(** What stands between the quotes: bytes, and [\uXXXX] escapes. *)
Inductive item : Type :=
| Raw (c : ascii)
| Esc (n : N).

(** The byte a two-character escape stands for. *)
Definition escape (c : ascii) : option ascii :=
  let n := code c in
  if ((n =? 34) || (n =? 92) || (n =? 47))%N then Some c
  else if (n =? 98)%N then Some "008"%char
  else if (n =? 102)%N then Some "012"%char
  else if (n =? 110)%N then Some "010"%char
  else if (n =? 114)%N then Some "013"%char
  else if (n =? 116)%N then Some "009"%char
  else None.

Definition item_cons (i : item) (r : scan (list item)) : scan (list item) :=
  scan_map (cons i) r.

(** The input after an opening quote, up to the closing one. *)
Fixpoint scan_string (cs : list ascii) : scan (list item) :=
  match cs with
  | [] => UnexpectedEOF
  | c :: rest =>
      if Ascii.eqb c dquote then Scanned [] rest
      else if Ascii.eqb c backslash then
        match rest with
        | [] => UnexpectedEOF
        | e :: rest1 =>
            if Ascii.eqb e "u"%char then
              match rest1 with
              | h1 :: h2 :: h3 :: h4 :: rest2 =>
                  match hex h1, hex h2, hex h3, hex h4 with
                  | Some a, Some b, Some c, Some d =>
                      item_cons (Esc (a * 4096 + b * 256 + c * 16 + d)%N)
                        (scan_string rest2)
                  | _, _, _, _ => SyntaxError
                  end
              | _ =>
                  if forallb (fun h => match hex h with Some _ => true | None => false end)
                       rest1
                  then UnexpectedEOF else SyntaxError
              end
            else
              match escape e with
              | Some x => item_cons (Raw x) (scan_string rest1)
              | None => SyntaxError
              end
        end
      else if (code c <? 32)%N then SyntaxError
      else item_cons (Raw c) (scan_string rest)
  end.

Definition byte (n : N) : ascii := ascii_of_N n.

(** [utf8.EncodeRune] *)
Definition utf8 (n : N) : list ascii :=
  (if n <? 128 then [byte n]
   else if n <? 2048 then [byte (192 + n / 64); byte (128 + n mod 64)]
   else if n <? 65536 then
     [byte (224 + n / 4096); byte (128 + n / 64 mod 64); byte (128 + n mod 64)]
   else
     [byte (240 + n / 262144); byte (128 + n / 4096 mod 64);
      byte (128 + n / 64 mod 64); byte (128 + n mod 64)])%N.

(** [unicode.ReplacementChar] *)
Definition replacement : list ascii := utf8 65533.

Definition raw_in (lo hi : N) (i : item) : bool :=
  match i with
  | Raw c => ((lo <=? code c) && (code c <=? hi))%N
  | Esc _ => false
  end.

(** The number of bytes that follow the byte [c] in its UTF-8 sequence,
    when [c] starts a valid one. *)
Definition utf8_tail (c : ascii) (rest : list item) : option nat :=
  let n := code c in
  let cont := raw_in 128 191 in
  let seq (first : item -> bool) (more : nat) :=
    match rest with
    | i :: rest' =>
        if first i && forallb cont (firstn more rest')
             && Nat.eqb (length (firstn more rest')) more
        then Some (S more) else None
    | [] => None
    end in
  (if (194 <=? n) && (n <=? 223) then seq cont 0%nat
   else if n =? 224 then seq (raw_in 160 191) 1%nat
   else if ((225 <=? n) && (n <=? 236)) || (n =? 238) || (n =? 239) then seq cont 1%nat
   else if n =? 237 then seq (raw_in 128 159) 1%nat
   else if n =? 240 then seq (raw_in 144 191) 2%nat
   else if (241 <=? n) && (n <=? 243) then seq cont 2%nat
   else if n =? 244 then seq (raw_in 128 143) 2%nat
   else None)%N.

(** The string a literal denotes: escapes are replaced, a [\u] pair of
    surrogates is one character, and a lone surrogate or a byte outside
    a valid UTF-8 sequence becomes the replacement character.  [tail]
    counts the bytes still to copy of the sequence being read. *)
Fixpoint unquote (tail : nat) (items : list item) : list ascii :=
  match items with
  | [] => []
  | Raw c :: rest =>
      match tail with
      | S tail' => c :: unquote tail' rest
      | O =>
          if (code c <? 128)%N then c :: unquote 0 rest
          else match utf8_tail c rest with
               | Some n => c :: unquote n rest
               | None => replacement ++ unquote 0 rest
               end
      end
  | Esc hi :: rest =>
      if ((55296 <=? hi) && (hi <? 57344))%N then
        match rest with
        | Esc lo :: rest' =>
            if ((hi <? 56320) && (56320 <=? lo) && (lo <? 57344))%N
            then utf8 (65536 + (hi - 55296) * 1024 + (lo - 56320))%N
                   ++ unquote 0 rest'
            else replacement ++ unquote 0 rest
        | _ => replacement ++ unquote 0 rest
        end
      else utf8 hi ++ unquote 0 rest
  end.

(** *** Numbers and literals *)

Fixpoint digits (cs : list ascii) : list ascii * list ascii :=
  match cs with
  | c :: rest =>
      if is_digit c then let (ds, rest') := digits rest in (c :: ds, rest')
      else ([], cs)
  | [] => ([], [])
  end.

(** One digit at least. *)
Definition some_digits (cs : list ascii) : scan (list ascii) :=
  match digits cs with
  | ([], []) => UnexpectedEOF
  | ([], _ :: _) => SyntaxError
  | (ds, rest) => Scanned ds rest
  end.

Definition scan_exponent (lit cs : list ascii) : scan (list ascii) :=
  match cs with
  | e :: rest =>
      if Ascii.eqb e "e"%char || Ascii.eqb e "E"%char then
        match rest with
        | sg :: rest1 =>
            if Ascii.eqb sg "+"%char || Ascii.eqb sg "-"%char
            then scan_map (fun ds => lit ++ e :: sg :: ds) (some_digits rest1)
            else scan_map (fun ds => lit ++ e :: ds) (some_digits rest)
        | [] => UnexpectedEOF
        end
      else Scanned lit cs
  | [] => Scanned lit []
  end.

Definition scan_fraction (lit cs : list ascii) : scan (list ascii) :=
  match cs with
  | d :: rest =>
      if Ascii.eqb d "."%char then
        match some_digits rest with
        | Scanned ds rest1 => scan_exponent (lit ++ d :: ds) rest1
        | SyntaxError => SyntaxError
        | UnexpectedEOF => UnexpectedEOF
        end
      else scan_exponent lit cs
  | [] => Scanned lit []
  end.

Definition scan_integer (sign cs : list ascii) : scan (list ascii) :=
  match cs with
  | c :: rest =>
      if Ascii.eqb c "0"%char then scan_fraction (sign ++ [c]) rest
      else if is_digit c then
        let (ds, rest1) := digits rest in scan_fraction (sign ++ c :: ds) rest1
      else SyntaxError
  | [] => UnexpectedEOF
  end.

Definition scan_number (cs : list ascii) : scan (list ascii) :=
  match cs with
  | c :: rest =>
      if Ascii.eqb c "-"%char then scan_integer [c] rest else scan_integer [] cs
  | [] => UnexpectedEOF
  end.

(** The rest of [true], [false] or [null]. *)
Fixpoint scan_literal (lit cs : list ascii) : scan unit :=
  match lit, cs with
  | [], _ => Scanned tt cs
  | _ :: _, [] => UnexpectedEOF
  | a :: lit', c :: cs' => if Ascii.eqb a c then scan_literal lit' cs' else SyntaxError
  end.

(** *** Values *)

Fixpoint scan_value (fuel : nat) (cs : list ascii) {struct fuel} : scan value :=
  match fuel with
  | O => SyntaxError
  | S fuel' =>
      match skip_space cs with
      | [] => UnexpectedEOF
      | c :: rest =>
          if Ascii.eqb c "{"%char then
            match skip_space rest with
            | [] => UnexpectedEOF
            | c1 :: rest1 =>
                if Ascii.eqb c1 "}"%char then Scanned (Object []) rest1
                else scan_map Object (scan_members fuel' (c1 :: rest1))
            end
          else if Ascii.eqb c "["%char then
            match skip_space rest with
            | [] => UnexpectedEOF
            | c1 :: rest1 =>
                if Ascii.eqb c1 "]"%char then Scanned (Array []) rest1
                else scan_map Array (scan_elements fuel' (c1 :: rest1))
            end
          else if Ascii.eqb c dquote then
            scan_map (fun s => Str (unquote 0 s)) (scan_string rest)
          else if Ascii.eqb c "t"%char then
            scan_map (fun _ => Bool true) (scan_literal (list_ascii_of_string "rue") rest)
          else if Ascii.eqb c "f"%char then
            scan_map (fun _ => Bool false) (scan_literal (list_ascii_of_string "alse") rest)
          else if Ascii.eqb c "n"%char then
            scan_map (fun _ => Null) (scan_literal (list_ascii_of_string "ull") rest)
          else if Ascii.eqb c "-"%char || is_digit c then
            scan_map Number (scan_number (c :: rest))
          else SyntaxError
      end
  end

with scan_members (fuel : nat) (cs : list ascii) {struct fuel}
    : scan (list (list ascii * value)) :=
  match fuel with
  | O => SyntaxError
  | S fuel' =>
      match skip_space cs with
      | [] => UnexpectedEOF
      | c :: rest =>
          if negb (Ascii.eqb c dquote) then SyntaxError else
          match scan_string rest with
          | SyntaxError => SyntaxError
          | UnexpectedEOF => UnexpectedEOF
          | Scanned k rest1 =>
              match skip_space rest1 with
              | [] => UnexpectedEOF
              | c1 :: rest2 =>
                  if negb (Ascii.eqb c1 ":"%char) then SyntaxError else
                  match scan_value fuel' rest2 with
                  | SyntaxError => SyntaxError
                  | UnexpectedEOF => UnexpectedEOF
                  | Scanned v rest3 =>
                      match skip_space rest3 with
                      | [] => UnexpectedEOF
                      | c2 :: rest4 =>
                          if Ascii.eqb c2 ","%char then
                            scan_map (cons (unquote 0 k, v)) (scan_members fuel' rest4)
                          else if Ascii.eqb c2 "}"%char then
                            Scanned [(unquote 0 k, v)] rest4
                          else SyntaxError
                      end
                  end
              end
          end
      end
  end

with scan_elements (fuel : nat) (cs : list ascii) {struct fuel} : scan (list value) :=
  match fuel with
  | O => SyntaxError
  | S fuel' =>
      match scan_value fuel' cs with
      | SyntaxError => SyntaxError
      | UnexpectedEOF => UnexpectedEOF
      | Scanned v rest =>
          match skip_space rest with
          | [] => UnexpectedEOF
          | c :: rest1 =>
              if Ascii.eqb c ","%char then scan_map (cons v) (scan_elements fuel' rest1)
              else if Ascii.eqb c "]"%char then Scanned [v] rest1
              else SyntaxError
          end
      end
  end.

Definition syntax_error : string := "invalid character in JSON input".
Definition type_error : string := "json: cannot unmarshal value into Go struct field".

(** The first value of the body.  After an object or an array the
    decoder stops; a string, number or literal must be followed by white
    space or by the end of the body. *)
Definition read_value (body : string) : string + value :=
  let cs := list_ascii_of_string body in
  match skip_space cs with
  | [] => inl "EOF"
  | _ :: _ =>
      match scan_value (2 * S (length cs)) cs with
      | SyntaxError => inl syntax_error
      | UnexpectedEOF => inl "unexpected EOF"
      | Scanned v rest =>
          match v, rest with
          | (Object _ | Array _), _ => inr v
          | _, [] => inr v
          | _, c :: _ => if is_space c then inr v else inl syntax_error
          end
      end
  end.

(** *** Struct fields *)

Definition lower (c : ascii) : ascii :=
  let n := code c in
  if ((65 <=? n) && (n <=? 90))%N then ascii_of_N (n + 32) else c.

(** Equality of a key and a field name up to the case of letters. *)
Definition fold_eqb (key : list ascii) (name : string) : bool :=
  String.eqb (string_of_list_ascii (map lower key))
             (string_of_list_ascii (map lower (list_ascii_of_string name))).

(** The field [name] after the members [ms], in their order, from the
    value [cur]; [None] when a member is of the wrong kind. *)
Fixpoint field {T} (name : string) (conv : value -> option T)
    (ms : list (list ascii * value)) (cur : T) : option T :=
  match ms with
  | [] => Some cur
  | (k, v) :: rest =>
      if fold_eqb k name then
        match v with
        | Null => field name conv rest cur
        | _ =>
            match conv v with
            | Some t => field name conv rest t
            | None => None
            end
        end
      else field name conv rest cur
  end.

Definition as_bool (v : value) : option bool :=
  match v with Bool b => Some b | _ => None end.

Definition as_string (v : value) : option string :=
  match v with Str s => Some (string_of_list_ascii s) | _ => None end.

(** [strconv.ParseUint(literal, 10, 64)] within the range of [uint8]. *)
Definition as_uint8 (v : value) : option Z :=
  match v with
  | Number lit =>
      if forallb is_digit lit then
        let n := fold_left (fun acc c => 10 * acc + Z.of_N (code c - 48)) lit 0 in
        if n <? 256 then Some n else None
      else None
  | _ => None
  end.

(** Decoding into a struct whose zero value is [zero]. *)
Definition decode_struct {T} (fields : list (list ascii * value) -> T -> option T)
    (zero : T) (body : string) : string + T :=
  match read_value body with
  | inl e => inl e
  | inr (Object ms) =>
      match fields ms zero with
      | Some t => inr t
      | None => inl type_error
      end
  | inr Null => inr zero
  | inr _ => inl type_error
  end.

Definition decode_bool_value : string -> string + bool :=
  decode_struct (field "value" as_bool) false.

Definition decode_uint8_value : string -> string + Z :=
  decode_struct (field "value" as_uint8) 0.

Definition decode_ciphertext : string -> string + string :=
  decode_struct (field "ciphertext" as_string) EmptyString.

Definition decode_left_right : string -> string + (string * string) :=
  decode_struct
    (fun ms lr =>
       match field "left" as_string ms (fst lr), field "right" as_string ms (snd lr) with
       | Some l, Some r => Some (l, r)
       | _, _ => None
       end)
    (EmptyString, EmptyString).

Definition json : Json :=
  {| DecodeBoolValue := decode_bool_value;
     DecodeUint8Value := decode_uint8_value;
     DecodeCiphertext := decode_ciphertext;
     DecodeLeftRight := decode_left_right |}.

(** Request bodies. *)
Definition quoted (s : string) : string :=
  String dquote (s +:+ String dquote EmptyString).

Definition post (body : string) : Request := mkRequest "POST" body.

Definition value_body (v : string) : string :=
  "{" +:+ quoted "value" +:+ ":" +:+ v +:+ "}".

Definition ciphertext_body (ct : string) : string :=
  "{" +:+ quoted "ciphertext" +:+ ":" +:+ quoted ct +:+ "}".

Definition left_right_body (l r : string) : string :=
  "{" +:+ quoted "left" +:+ ":" +:+ quoted l +:+ "," +:+
  quoted "right" +:+ ":" +:+ quoted r +:+ "}".

Definition fresh : ResponseWriter := mkResponseWriter [] None [].

(** The handler of the process [IdealView.ready]. *)
Definition handler : Handler :=
  mkHandler IdealView.boolean_service IdealView.uint8_service.

End JsonStd.

(** ** Counting ciphertexts *)

(** [ev] is a call that has created a ciphertext; [ev] is a call of a
    destroy function for ciphertexts. *)
Definition makes (ev : event) : bool :=
  match created ev with Some _ => true | None => false end.

Definition frees (c : ccall) : bool :=
  match c with
  | boolean_destroy_ciphertext _ | fhe_uint8_destroy _ => true
  | _ => false
  end.

Definition unmakes (ev : event) : bool :=
  match ev with Call c _ => frees c | _ => false end.

Definition tally (P : event -> bool) (evs : list event) : nat :=
  length (List.filter P evs).

Section Bindings.

Context {E : Type} {engine : Engine E} {codec : Base64}.

Definition M (A : Type) : Type := state E -> outcome A * state E.


Definition ret {A} (a : A) : M A := fun st => (Ok a, st).
Definition fail {A} (msg : string) : M A := fun st => (Err msg, st).
Definition panic {A} (msg : string) : M A := fun st => (Panic msg, st).

Definition bind {A B} (m : M A) (k : A -> M B) : M B :=
  fun st =>
    match m st with
    | (Ok a, st') => k a st'
    | (Err e, st') => (Err e, st')
    | (Panic e, st') => (Panic e, st')
    end.

Notation "x <- m ;; k" := (bind m (fun x => k))
  (at level 20, m at level 99, k at level 200, only parsing).
Notation "'do' m ;; k" := (bind m (fun _ => k))
  (at level 20, m at level 99, k at level 200, only parsing).

(** [defer d] followed by [body]: the deferred call runs when the function
    returns or panics; its results are dropped, a panic inside it wins. *)
Definition defer {A B} (d : M B) (body : M A) : M A :=
  fun st =>
    let (r, st1) := body st in
    match d st1 with
    | (Panic e, st2) => (Panic e, st2)
    | (_, st2) => (r, st2)
    end.

(** [err := f()] : the error value as data ([None] is [nil]). *)
Definition observe (m : M unit) : M (option string) :=
  fun st =>
    match m st with
    | (Ok _, st') => (Ok None, st')
    | (Err e, st') => (Ok (Some e), st')
    | (Panic e, st') => (Panic e, st')
    end.

Definition emit (ev : event) : M unit :=
  fun st => (Ok tt, mkState (eng st) (heap st) (holder st) (trace st ++ [ev])).

(** A cgo call: the engine's reply and the engine's state after it. *)
Definition reply (c : ccall) (e : E) : cret := fst (cstep c e).
Definition after (c : ccall) (e : E) : E := snd (cstep c e).

Definition call (c : ccall) : M cret :=
  fun st =>
    (Ok (reply c (eng st)),
     mkState (after c (eng st)) (heap st) (holder st)
       (trace st ++ [Call c (reply c (eng st))])).

(** [&T{ptr: p}] *)
Definition new_obj (p : cptr) : M goptr :=
  fun st =>
    (Ok (Some (length (heap st))),
     mkState (eng st) (heap st ++ [p]) (holder st) (trace st)).

(** [c.ptr] *)
Definition load (c : goptr) : M cptr :=
  fun st =>
    match c with
    | None => (Panic "invalid memory address or nil pointer dereference", st)
    | Some l =>
        match heap st !! l with
        | Some p => (Ok p, st)
        | None => (Panic "invalid memory address or nil pointer dereference", st)
        end
    end.

(** [c.ptr = p] *)
Definition store (c : goptr) (p : cptr) : M unit :=
  fun st =>
    match c with
    | None => (Panic "invalid memory address or nil pointer dereference", st)
    | Some l =>
        match heap st !! l with
        | Some _ => (Ok tt, mkState (eng st) (<[l:=p]> (heap st)) (holder st) (trace st))
        | None => (Panic "invalid memory address or nil pointer dereference", st)
        end
    end.

(** [c == nil || c.ptr == nil], evaluated left to right. *)
Definition is_nil (c : goptr) : M bool :=
  match c with
  | None => ret true
  | Some _ => p <- load c ;; ret (N.eqb p NULL)
  end.

(** ** bindings: part_000 *)

Definition check (c : Z) (context : string) : M unit :=
  if negb (c =? 0)
  then fail (context +:+ ": tfhe error code " +:+ itoa c)
  else ret tt.

Definition setServerKeyHolder (sk : goptr) : M unit :=
  fun st => (Ok tt, mkState (eng st) (heap st) sk (trace st)).

Definition defaultUint8ServerKey : M goptr :=
  fun st => (Ok (holder st), st).

(** The closure [fn] of the source assigns the captured variable [out];
    here it returns that value. *)
Definition withServerKey {A} (sk : goptr) (fn : M A) : M A :=
  n <- is_nil sk ;;
  if (n : bool) then fail "server key is nil" else
  do emit LockOSThread ;;
  defer (emit UnlockOSThread)
    (p <- load sk ;;
     r <- call (set_server_key p) ;;
     do check (code r) "set server key" ;;
     defer (call unset_server_key) fn).

Definition GenerateBooleanKeys : M (goptr * goptr) :=
  r <- call boolean_gen_keys_with_default_parameters ;;
  do check (code r) "generate boolean keys" ;;
  client <- new_obj (out_ptr r) ;;
  server <- new_obj (out_ptr2 r) ;;
  ret (client, server).

(** The seven [Close] methods share one shape. *)
Definition close_with (destroy : cptr -> ccall) (context : string) (c : goptr) : M unit :=
  n <- is_nil c ;;
  if (n : bool) then ret tt else
  p <- load c ;;
  r <- call (destroy p) ;;
  do check (code r) context ;;
  store c NULL.

Definition ClientKey_Close : goptr -> M unit :=
  close_with boolean_destroy_client_key "destroy client key".

Definition ServerKey_Close : goptr -> M unit :=
  close_with boolean_destroy_server_key "destroy server key".

Definition Ciphertext_Close : goptr -> M unit :=
  close_with boolean_destroy_ciphertext "destroy ciphertext".

Definition EncryptBool (client : goptr) (value : bool) : M goptr :=
  n <- is_nil client ;;
  if (n : bool) then fail "client key is nil" else
  ck <- load client ;;
  r <- call (boolean_client_key_encrypt ck value) ;;
  do check (code r) "encrypt bool" ;;
  new_obj (out_ptr r).

Definition DecryptBool (client ct : goptr) : M bool :=
  n <- is_nil client ;;
  if (n : bool) then fail "client key is nil" else
  n <- is_nil ct ;;
  if (n : bool) then fail "ciphertext is nil" else
  ck <- load client ;;
  p <- load ct ;;
  r <- call (boolean_client_key_decrypt ck p) ;;
  do check (code r) "decrypt bool" ;;
  ret (out_bool r).

(** [And], [Or] and [Xor] differ in the C function and the context string. *)
Definition gate2 (f : cptr -> cptr -> cptr -> ccall) (context : string)
    (s lhs rhs : goptr) : M goptr :=
  n <- is_nil s ;;
  if (n : bool) then fail "server key is nil" else
  nl <- is_nil lhs ;;
  nr <- (if (nl : bool) then ret true else is_nil rhs) ;;
  if (nr : bool) then fail "ciphertext is nil" else
  sk <- load s ;;
  l <- load lhs ;;
  r <- load rhs ;;
  res <- call (f sk l r) ;;
  do check (code res) context ;;
  new_obj (out_ptr res).

Definition ServerKey_And : goptr -> goptr -> goptr -> M goptr :=
  gate2 boolean_server_key_and "boolean AND".

Definition ServerKey_Or : goptr -> goptr -> goptr -> M goptr :=
  gate2 boolean_server_key_or "boolean OR".

Definition ServerKey_Xor : goptr -> goptr -> goptr -> M goptr :=
  gate2 boolean_server_key_xor "boolean XOR".

Definition ServerKey_Not (s input : goptr) : M goptr :=
  n <- is_nil s ;;
  if (n : bool) then fail "server key is nil" else
  n <- is_nil input ;;
  if (n : bool) then fail "ciphertext is nil" else
  sk <- load s ;;
  i <- load input ;;
  res <- call (boolean_server_key_not sk i) ;;
  do check (code res) "boolean NOT" ;;
  new_obj (out_ptr res).

(** [C.GoBytes(p, n)]: the run time panics on a negative length. *)
Definition GoBytes (mem : list byte) (n : Z) : M (list byte) :=
  if n <? 0 then panic "gobytes: length out of range"
  else ret (take (Z.to_nat n) mem).

Definition serialize_with (ser : cptr -> ccall) (context : string) (c : goptr)
    : M (list byte) :=
  n <- is_nil c ;;
  if (n : bool) then fail "ciphertext is nil" else
  p <- load c ;;
  r <- call (ser p) ;;
  do check (code r) context ;;
  defer (call (destroy_dynamic_buffer (out_buf r)))
    (let length := Z.of_nat (List.length (out_buf r)) in
     if length =? 0 then ret []
     else GoBytes (out_buf r) (cint length)).

Definition deserialize_with (de : list byte -> ccall) (context : string)
    (data : list byte) : M goptr :=
  if (List.length data =? 0)%nat then fail "ciphertext data is empty" else
  r <- call (de data) ;;
  do check (code r) context ;;
  new_obj (out_ptr r).

Definition Ciphertext_Serialize : goptr -> M (list byte) :=
  serialize_with boolean_serialize_ciphertext "serialize ciphertext".

Definition DeserializeCiphertext : list byte -> M goptr :=
  deserialize_with boolean_deserialize_ciphertext "deserialize ciphertext".

Definition GenerateUint8Keys : M (goptr * goptr) :=
  b <- call config_builder_default ;;
  do check (code b) "config builder default" ;;
  c <- call (config_builder_build (out_ptr b)) ;;
  do check (code c) "config builder build" ;;
  k <- call (generate_keys (out_ptr c)) ;;
  do check (code k) "generate keys" ;;
  s <- call (set_server_key (out_ptr2 k)) ;;
  do check (code s) "set server key" ;;
  client <- new_obj (out_ptr k) ;;
  server <- new_obj (out_ptr2 k) ;;
  do setServerKeyHolder server ;;
  ret (client, server).

Definition Uint8ClientKey_Close : goptr -> M unit :=
  close_with client_key_destroy "destroy client key".

Definition Uint8ServerKey_Close (s : goptr) : M unit :=
  n <- is_nil s ;;
  if (n : bool) then ret tt else
  do call unset_server_key ;;
  p <- load s ;;
  r <- call (server_key_destroy p) ;;
  do check (code r) "destroy server key" ;;
  store s NULL.

Definition NewUint8PublicKey (client : goptr) : M goptr :=
  n <- is_nil client ;;
  if (n : bool) then fail "client key is nil" else
  ck <- load client ;;
  r <- call (public_key_new ck) ;;
  do check (code r) "new public key" ;;
  new_obj (out_ptr r).

Definition Uint8PublicKey_Close : goptr -> M unit :=
  close_with public_key_destroy "destroy public key".

Definition EncryptUint8 (client : goptr) (value : Z) : M goptr :=
  n <- is_nil client ;;
  if (n : bool) then fail "client key is nil" else
  ck <- load client ;;
  r <- call (fhe_uint8_try_encrypt_with_client_key_u8 (uint8 value) ck) ;;
  do check (code r) "encrypt uint8" ;;
  new_obj (out_ptr r).

Definition EncryptUint8Public (pub : goptr) (value : Z) : M goptr :=
  n <- is_nil pub ;;
  if (n : bool) then fail "public key is nil" else
  pk <- load pub ;;
  r <- call (fhe_uint8_try_encrypt_with_public_key_u8 (uint8 value) pk) ;;
  do check (code r) "encrypt uint8 with public key" ;;
  new_obj (out_ptr r).

Definition DecryptUint8 (client ct : goptr) : M Z :=
  n <- is_nil client ;;
  if (n : bool) then fail "client key is nil" else
  n <- is_nil ct ;;
  if (n : bool) then fail "ciphertext is nil" else
  p <- load ct ;;
  ck <- load client ;;
  r <- call (fhe_uint8_decrypt p ck) ;;
  do check (code r) "decrypt uint8" ;;
  ret (uint8 (out_u8 r)).

Definition Uint8Ciphertext_Close : goptr -> M unit :=
  close_with fhe_uint8_destroy "destroy uint8 ciphertext".

(** [Uint8Add], [Uint8BitAnd] and [Uint8BitXor] differ in the C function
    and the context string. *)
Definition uint8_binary (f : cptr -> cptr -> ccall) (context : string)
    (lhs rhs : goptr) : M goptr :=
  nl <- is_nil lhs ;;
  nr <- (if (nl : bool) then ret true else is_nil rhs) ;;
  if (nr : bool) then fail "ciphertext is nil" else
  sk <- defaultUint8ServerKey ;;
  out <- withServerKey sk
           (l <- load lhs ;;
            r <- load rhs ;;
            res <- call (f l r) ;;
            do check (code res) context ;;
            ret (out_ptr res)) ;;
  new_obj out.

Definition Uint8Add : goptr -> goptr -> M goptr :=
  uint8_binary fhe_uint8_add "uint8 add".

Definition Uint8BitAnd : goptr -> goptr -> M goptr :=
  uint8_binary fhe_uint8_bitand "uint8 bitand".

Definition Uint8BitXor : goptr -> goptr -> M goptr :=
  uint8_binary fhe_uint8_bitxor "uint8 bitxor".

Definition Uint8Serialize : goptr -> M (list byte) :=
  serialize_with fhe_uint8_serialize "serialize uint8 ciphertext".

Definition Uint8Deserialize : list byte -> M goptr :=
  deserialize_with fhe_uint8_deserialize "deserialize uint8 ciphertext".

(** ** services: internal/tfhe/service.go

    The service structs are passed by value; [Close], which assigns their
    fields, returns the updated struct next to its [error]. *)

Definition NewBooleanService : M BooleanService :=
  ks <- GenerateBooleanKeys ;;
  ret (mkBooleanService (fst ks) (snd ks)).

Definition serializeToBase64 (ct : goptr) : M string :=
  bytes <- Ciphertext_Serialize ct ;;
  ret (EncodeToString bytes).

Definition deserialize (ctBase64 : string) : M goptr :=
  if String.eqb ctBase64 "" then fail "ciphertext is empty" else
  match DecodeString ctBase64 with
  | (_, Some err) => fail err
  | (raw, None) => DeserializeCiphertext raw
  end.

Definition EncryptBoolToBase64 (s : BooleanService) (value : bool) : M string :=
  ct <- EncryptBool (bs_client s) value ;;
  defer (Ciphertext_Close ct)
    (bytes <- Ciphertext_Serialize ct ;;
     ret (EncodeToString bytes)).

Definition DecryptBoolFromBase64 (s : BooleanService) (ctBase64 : string) : M bool :=
  ct <- deserialize ctBase64 ;;
  defer (Ciphertext_Close ct)
    (DecryptBool (bs_client s) ct).

Definition binaryOp (lhsBase64 rhsBase64 : string)
    (op : goptr -> goptr -> M goptr) : M string :=
  lhs <- deserialize lhsBase64 ;;
  defer (Ciphertext_Close lhs)
    (rhs <- deserialize rhsBase64 ;;
     defer (Ciphertext_Close rhs)
       (out <- op lhs rhs ;;
        defer (Ciphertext_Close out)
          (serializeToBase64 out))).

Definition AndBase64 (s : BooleanService) (lhs rhs : string) : M string :=
  binaryOp lhs rhs (ServerKey_And (bs_server s)).

Definition OrBase64 (s : BooleanService) (lhs rhs : string) : M string :=
  binaryOp lhs rhs (ServerKey_Or (bs_server s)).

Definition XorBase64 (s : BooleanService) (lhs rhs : string) : M string :=
  binaryOp lhs rhs (ServerKey_Xor (bs_server s)).

Definition NotBase64 (s : BooleanService) (input : string) : M string :=
  ct <- deserialize input ;;
  defer (Ciphertext_Close ct)
    (out <- ServerKey_Not (bs_server s) ct ;;
     defer (Ciphertext_Close out)
       (serializeToBase64 out)).

Definition BooleanService_Close (s : BooleanService)
    : M (BooleanService * option string) :=
  r <- match bs_client s with
       | Some _ =>
           err <- observe (ClientKey_Close (bs_client s)) ;;
           ret (mkBooleanService None (bs_server s), err)
       | None => ret (s, None)
       end ;;
  match bs_server (fst r) with
  | Some _ =>
      cerr <- observe (ServerKey_Close (bs_server (fst r))) ;;
      ret (mkBooleanService (bs_client (fst r)) None,
           match snd r with None => cerr | Some e => Some e end)
  | None => ret r
  end.

Definition NewUint8Service : M Uint8Service :=
  ks <- GenerateUint8Keys ;;
  pk <- NewUint8PublicKey (fst ks) ;;
  ret (mkUint8Service (fst ks) (snd ks) pk).

Definition serializeUint8ToBase64 (ct : goptr) : M string :=
  bytes <- Uint8Serialize ct ;;
  ret (EncodeToString bytes).

Definition deserializeUint8 (ctBase64 : string) : M goptr :=
  if String.eqb ctBase64 "" then fail "ciphertext is empty" else
  match DecodeString ctBase64 with
  | (_, Some err) => fail err
  | (raw, None) => Uint8Deserialize raw
  end.

Definition Uint8Service_Encrypt (s : Uint8Service) (value : Z) : M string :=
  ct <- EncryptUint8 (us_client s) value ;;
  defer (Uint8Ciphertext_Close ct)
    (serializeUint8ToBase64 ct).

Definition Uint8Service_EncryptWithPublic (s : Uint8Service) (value : Z) : M string :=
  ct <- EncryptUint8Public (us_public s) value ;;
  defer (Uint8Ciphertext_Close ct)
    (serializeUint8ToBase64 ct).

Definition Uint8Service_Decrypt (s : Uint8Service) (ctBase64 : string) : M Z :=
  ct <- deserializeUint8 ctBase64 ;;
  defer (Uint8Ciphertext_Close ct)
    (DecryptUint8 (us_client s) ct).

Definition binaryUint8 (lhsBase64 rhsBase64 : string)
    (op : goptr -> goptr -> M goptr) : M string :=
  lhs <- deserializeUint8 lhsBase64 ;;
  defer (Uint8Ciphertext_Close lhs)
    (rhs <- deserializeUint8 rhsBase64 ;;
     defer (Uint8Ciphertext_Close rhs)
       (out <- op lhs rhs ;;
        defer (Uint8Ciphertext_Close out)
          (serializeUint8ToBase64 out))).

Definition Uint8Service_Add (s : Uint8Service) (lhs rhs : string) : M string :=
  binaryUint8 lhs rhs Uint8Add.

Definition Uint8Service_BitAnd (s : Uint8Service) (lhs rhs : string) : M string :=
  binaryUint8 lhs rhs Uint8BitAnd.

Definition Uint8Service_BitXor (s : Uint8Service) (lhs rhs : string) : M string :=
  binaryUint8 lhs rhs Uint8BitXor.

Definition Uint8Service_Close (s : Uint8Service)
    : M (Uint8Service * option string) :=
  r1 <- match us_public s with
        | Some _ =>
            err <- observe (Uint8PublicKey_Close (us_public s)) ;;
            ret (mkUint8Service (us_client s) (us_server s) None, err)
        | None => ret (s, None)
        end ;;
  r2 <- match us_client (fst r1) with
        | Some _ =>
            cerr <- observe (Uint8ClientKey_Close (us_client (fst r1))) ;;
            ret (mkUint8Service None (us_server (fst r1)) (us_public (fst r1)),
                 match snd r1 with None => cerr | Some e => Some e end)
        | None => ret r1
        end ;;
  match us_server (fst r2) with
  | Some _ =>
      cerr <- observe (Uint8ServerKey_Close (us_server (fst r2))) ;;
      ret (mkUint8Service (us_client (fst r2)) None (us_public (fst r2)),
           match snd r2 with None => cerr | Some e => Some e end)
  | None => ret r2
  end.


(** ** Handles *)

(** A Nil handle: the Go pointer is [nil], or the wrapper's [ptr] has been
    cleared (released, or never set). *)
Definition nil_handle (st : state E) (c : goptr) : Prop :=
  match c with
  | None => True
  | Some l => heap st !! l = Some NULL
  end.

(** A handle Go can hold: [nil] or the address of an allocated wrapper. *)
Definition valid_handle (st : state E) (c : goptr) : Prop :=
  match c with
  | None => True
  | Some l => (l < length (heap st))%nat
  end.

Definition no_panic {A} (r : outcome A) : Prop :=
  match r with Panic _ => False | _ => True end.

Definition is_err {A} (r : outcome A) : Prop :=
  match r with Err _ => True | _ => False end.

(** Text the codec cannot turn into a ciphertext: the empty string, text
    that is not base64, text that decodes to no bytes, or bytes the
    engine's deserializer [de] rejects with a non-zero status. *)
Definition rejected (de : list byte -> ccall) (st : state E) (s : string) : Prop :=
  s = "" \/
  (exists err, snd (DecodeString s) = Some err) \/
  fst (DecodeString s) = [] \/
  code (reply (de (fst (DecodeString s))) (eng st)) <> 0.

(** ** Event disciplines *)

(** [m] only appends events, and they leave the lane as they found it. *)
Definition quiet {A} (m : M A) : Prop :=
  forall st, exists evs,
    trace (m st).2 = trace st ++ evs /\ forall s, lane_run s evs = Some s.

(** [m] only appends events, and they take an unbound lane back to
    unbound through the ContextBinder state machine. *)
Definition balanced {A} (m : M A) : Prop :=
  forall st, exists evs,
    trace (m st).2 = trace st ++ evs /\ lane_run Unbound evs = Some Unbound.

(** [m] only appends events, none of which creates a ciphertext, and
    leaves the Go heap alone. *)
Definition inert {A} (m : M A) : Prop :=
  forall st, exists evs,
    trace (m st).2 = trace st ++ evs /\
    heap (m st).2 = heap st /\
    Forall (fun ev => created ev = None) evs.

(** [m] yields a new handle: on success it has allocated exactly one
    wrapper, at the end of the heap, and the only ciphertext its events
    created, if any, is of family [f] and is the one the wrapper points
    to; on failure it has allocated nothing and created nothing. *)
Definition creator (f : family) (m : M goptr) : Prop :=
  forall st, exists evs,
    trace (m st).2 = trace st ++ evs /\
    match (m st).1 with
    | Ok x =>
        exists p, x = Some (length (heap st)) /\
                  heap (m st).2 = heap st ++ [p] /\
                  Forall (fun ev => created ev = None \/ created ev = Some (f, p)) evs
    | _ => heap (m st).2 = heap st /\ Forall (fun ev => created ev = None) evs
    end.

(** [m] yields an engine pointer without touching the Go heap: the only
    ciphertext its events created, if any, is of family [f] and is the
    pointer it returns. *)
Definition producer (f : family) (m : M cptr) : Prop :=
  forall st, exists evs,
    trace (m st).2 = trace st ++ evs /\
    heap (m st).2 = heap st /\
    match (m st).1 with
    | Ok p => Forall (fun ev => created ev = None \/ created ev = Some (f, p)) evs
    | _ => Forall (fun ev => created ev = None) evs
    end.

(** [m] releases what it creates: it leaves the wrappers that existed
    before untouched, every ciphertext created by its events is handed
    to the engine's destroy among its events, and every wrapper it
    allocated is, when it returns, cleared or refused by the engine. *)
Definition scoped {A} (m : M A) : Prop :=
  forall st, exists evs news,
    trace (m st).2 = trace st ++ evs /\
    heap (m st).2 = heap st ++ news /\
    all_released evs = true /\
    forallb (settled evs) news = true.

(** The key in the process-wide holder: the pointer of the wrapper
    [defaultUint8ServerKeyHolder] refers to. *)
Definition holder_key (st : state E) (p : cptr) : Prop :=
  exists l, holder st = Some l /\ heap st !! l = Some p.

(** [m] never assigns the holder, never gives the holder's wrapper
    another pointer (it may clear it), and passes to [set_server_key]
    nothing but the key that was in the holder when [m] started. *)
Definition binds_only_holder {A} (m : M A) : Prop :=
  forall st, valid_handle st (holder st) ->
  exists evs,
    trace (m st).2 = trace st ++ evs /\
    holder (m st).2 = holder st /\
    (length (heap st) <= length (heap (m st).2))%nat /\
    (forall l, holder st = Some l ->
       heap (m st).2 !! l = heap st !! l \/ heap (m st).2 !! l = Some 0%N) /\
    Forall (fun p => p <> 0%N /\ holder_key st p) (bind_calls evs).

(** The claim that an operation of service [s] binds the server key of
    [s] and no other. *)
Definition binds_own_key {A} (s : Uint8Service) (m : M A) (st : state E) : Prop :=
  forall p, In p (bind_calls (drop (length (trace st)) (trace (m st).2))) ->
  exists l, us_server s = Some l /\ heap st !! l = Some p.

(** The error messages that name a Nil handle. *)
Definition nil_messages : list string :=
  ["client key is nil"; "server key is nil"; "public key is nil";
   "ciphertext is nil"].

(** [m] returns one of these errors and leaves the whole state, the
    engine included, as it was. *)
Definition fails_fast {A} (m : M A) (st : state E) : Prop :=
  exists msg, In msg nil_messages /\ m st = (Err msg, st).

(** The seven release operations. *)
Definition all_Close : list (goptr -> M unit) :=
  [ClientKey_Close; ServerKey_Close; Ciphertext_Close; Uint8ClientKey_Close;
   Uint8ServerKey_Close; Uint8PublicKey_Close; Uint8Ciphertext_Close].

(** ** Test scenarios of the specification *)

Definition gate_scenario (gate : BooleanService -> string -> string -> M string)
    (s : BooleanService) (a b : bool) : M bool :=
  ca <- EncryptBoolToBase64 s a ;;
  cb <- EncryptBoolToBase64 s b ;;
  c <- gate s ca cb ;;
  DecryptBoolFromBase64 s c.

Definition not_scenario (s : BooleanService) (a : bool) : M bool :=
  ca <- EncryptBoolToBase64 s a ;;
  c <- NotBase64 s ca ;;
  DecryptBoolFromBase64 s c.

Definition uint8_scenario (op : Uint8Service -> string -> string -> M string)
    (s : Uint8Service) (a b : Z) : M Z :=
  ca <- Uint8Service_Encrypt s a ;;
  cb <- Uint8Service_Encrypt s b ;;
  c <- op s ca cb ;;
  Uint8Service_Decrypt s c.

(** ** The engine's contract

    What the bindings rely on, stated over an abstract view of the engine:
    [holds e p x] says that in engine state [e] the address [p] is a live
    object with content [x]; [bound e k] that the calling thread's ambient
    server key belongs to key pair [k]; [encodes bs x] that [bs] is a
    serialisation of a ciphertext with content [x]. *)

Context {K : Type}.
Variable holds : E -> cptr -> content K -> Prop.
Variable bound : E -> K -> Prop.
Variable encodes : list byte -> content K -> Prop.

(** Reply [r] of call [c] in state [e] succeeded and its first
    out-pointer holds [x] afterwards. *)
Definition yields (c : ccall) (e : E) (x : content K) : Prop :=
  code (reply c e) = 0 /\ holds (after c e) (out_ptr (reply c e)) x.

Record EngineContract : Prop := {
  holds_nonnull : forall e p x, holds e p x -> p <> NULL;
  holds_fun : forall e p x y, holds e p x -> holds e p y -> x = y;
  holds_frame : forall e c p x,
    consumes c <> Some p -> holds e p x -> holds (after c e) p x;
  encodes_size : forall bs x,
    encodes bs x -> bs <> [] /\ Z.of_nat (length bs) < 2 ^ 31;
  (* boolean family *)
  law_boolean_gen_keys : forall e,
    let c := boolean_gen_keys_with_default_parameters in
    code (reply c e) = 0 /\
    exists k, holds (after c e) (out_ptr (reply c e)) (KBoolClient k) /\
              holds (after c e) (out_ptr2 (reply c e)) (KBoolServer k);
  law_boolean_encrypt : forall e ck k v,
    holds e ck (KBoolClient k) ->
    yields (boolean_client_key_encrypt ck v) e (CBool k v);
  law_boolean_decrypt : forall e ck ct k v,
    holds e ck (KBoolClient k) -> holds e ct (CBool k v) ->
    let c := boolean_client_key_decrypt ck ct in
    code (reply c e) = 0 /\ out_bool (reply c e) = v;
  law_boolean_and : forall e sk l r k a b,
    holds e sk (KBoolServer k) -> holds e l (CBool k a) -> holds e r (CBool k b) ->
    yields (boolean_server_key_and sk l r) e (CBool k (a && b));
  law_boolean_or : forall e sk l r k a b,
    holds e sk (KBoolServer k) -> holds e l (CBool k a) -> holds e r (CBool k b) ->
    yields (boolean_server_key_or sk l r) e (CBool k (a || b));
  law_boolean_xor : forall e sk l r k a b,
    holds e sk (KBoolServer k) -> holds e l (CBool k a) -> holds e r (CBool k b) ->
    yields (boolean_server_key_xor sk l r) e (CBool k (xorb a b));
  law_boolean_not : forall e sk i k a,
    holds e sk (KBoolServer k) -> holds e i (CBool k a) ->
    yields (boolean_server_key_not sk i) e (CBool k (negb a));
  law_boolean_serialize : forall e ct k v,
    holds e ct (CBool k v) ->
    let c := boolean_serialize_ciphertext ct in
    code (reply c e) = 0 /\ encodes (out_buf (reply c e)) (CBool k v);
  law_boolean_deserialize : forall e bs k v,
    encodes bs (CBool k v) ->
    yields (boolean_deserialize_ciphertext bs) e (CBool k v);
  (* integer family *)
  law_config_builder_default : forall e,
    yields config_builder_default e HBuilder;
  law_config_builder_build : forall e b,
    holds e b HBuilder -> yields (config_builder_build b) e HConfig;
  law_generate_keys : forall e cfg,
    holds e cfg HConfig ->
    let c := generate_keys cfg in
    code (reply c e) = 0 /\
    exists k, holds (after c e) (out_ptr (reply c e)) (KClient k) /\
              holds (after c e) (out_ptr2 (reply c e)) (KServer k);
  law_set_server_key : forall e sk k,
    holds e sk (KServer k) ->
    let c := set_server_key sk in
    code (reply c e) = 0 /\ bound (after c e) k;
  law_public_key_new : forall e ck k,
    holds e ck (KClient k) -> yields (public_key_new ck) e (KPublic k);
  law_uint8_encrypt : forall e ck k v,
    holds e ck (KClient k) -> 0 <= v < 256 ->
    yields (fhe_uint8_try_encrypt_with_client_key_u8 v ck) e (CUint8 k v);
  law_uint8_encrypt_public : forall e pk k v,
    holds e pk (KPublic k) -> 0 <= v < 256 ->
    yields (fhe_uint8_try_encrypt_with_public_key_u8 v pk) e (CUint8 k v);
  law_uint8_decrypt : forall e ct ck k v,
    holds e ck (KClient k) -> holds e ct (CUint8 k v) ->
    let c := fhe_uint8_decrypt ct ck in
    code (reply c e) = 0 /\ out_u8 (reply c e) = v;
  law_uint8_add : forall e l r k a b,
    bound e k -> holds e l (CUint8 k a) -> holds e r (CUint8 k b) ->
    yields (fhe_uint8_add l r) e (CUint8 k ((a + b) mod 256));
  law_uint8_bitand : forall e l r k a b,
    bound e k -> holds e l (CUint8 k a) -> holds e r (CUint8 k b) ->
    yields (fhe_uint8_bitand l r) e (CUint8 k (Z.land a b));
  law_uint8_bitxor : forall e l r k a b,
    bound e k -> holds e l (CUint8 k a) -> holds e r (CUint8 k b) ->
    yields (fhe_uint8_bitxor l r) e (CUint8 k (Z.lxor a b));
  law_uint8_serialize : forall e ct k v,
    holds e ct (CUint8 k v) ->
    let c := fhe_uint8_serialize ct in
    code (reply c e) = 0 /\ encodes (out_buf (reply c e)) (CUint8 k v);
  law_uint8_deserialize : forall e bs k v,
    encodes bs (CUint8 k v) ->
    yields (fhe_uint8_deserialize bs) e (CUint8 k v)
}.

(** What the bindings rely on from [encoding/base64]. *)
Record Base64Contract : Prop := {
  decode_encode : forall bs, DecodeString (EncodeToString bs) = (bs, None);
  encode_nil : EncodeToString [] = ""
}.

(** Handle [c] wraps a live engine object with content [x]. *)
Definition wraps (st : state E) (c : goptr) (x : content K) : Prop :=
  exists l p, c = Some l /\ heap st !! l = Some p /\ holds (eng st) p x.

(** A boolean service whose two keys are live and form pair [k]. *)
Definition boolean_ready (k : K) (s : BooleanService) (st : state E) : Prop :=
  wraps st (bs_client s) (KBoolClient k) /\
  wraps st (bs_server s) (KBoolServer k).

(** An integer service whose keys are live and form pair [k], with its
    server key in the process-wide holder. *)
Definition uint8_ready (k : K) (s : Uint8Service) (st : state E) : Prop :=
  wraps st (us_client s) (KClient k) /\
  wraps st (us_public s) (KPublic k) /\
  wraps st (holder st) (KServer k).

(** The contents that are keys (or key-generation handles), as opposed to
    ciphertexts. *)
Definition is_key (x : content K) : bool :=
  match x with
  | CBool _ _ | CUint8 _ _ => false
  | _ => true
  end.

(** From [st] to [st'] nothing was freed and no wrapper changed: the Go
    heap and the holder are the same and every live engine object is
    still live. *)
Definition keeps (st st' : state E) : Prop :=
  holder st' = holder st /\ heap st' = heap st /\
  forall q y, holds (eng st) q y -> holds (eng st') q y.

(** From [st] to [st'] one wrapper, pointing to [p], was allocated at the
    end of the Go heap, and every live engine object is still live. *)
Definition grows (st st' : state E) (p : cptr) : Prop :=
  holder st' = holder st /\ heap st' = heap st ++ [p] /\
  forall q y, holds (eng st) q y -> holds (eng st') q y.

(** The wrappers in [G] (address, pointer, content) are wrappers of live
    keys. *)
Definition guards (G : list (nat * cptr * content K)) (st : state E) : Prop :=
  Forall (fun g => is_key g.2 = true /\ heap st !! g.1.1 = Some g.1.2 /\
                   holds (eng st) g.1.2 g.2) G.

(** No wrapper in [G] points to [p]. *)
Definition apart (G : list (nat * cptr * content K)) (p : cptr) : Prop :=
  Forall (fun g => g.1.2 <> p) G.

(** ** Circuits evaluated through the services

    Every gate goes through the service boundary: its operands and its
    result are base64 texts. *)

Fixpoint boolean_circuit (s : BooleanService) (e : bexpr) : M string :=
  match e with
  | BLit b => EncryptBoolToBase64 s b
  | BAnd x y =>
      cx <- boolean_circuit s x ;; cy <- boolean_circuit s y ;; AndBase64 s cx cy
  | BOr x y =>
      cx <- boolean_circuit s x ;; cy <- boolean_circuit s y ;; OrBase64 s cx cy
  | BXor x y =>
      cx <- boolean_circuit s x ;; cy <- boolean_circuit s y ;; XorBase64 s cx cy
  | BNot x =>
      cx <- boolean_circuit s x ;; NotBase64 s cx
  end.

Fixpoint uint8_circuit (s : Uint8Service) (e : uexpr) : M string :=
  match e with
  | ULit v => Uint8Service_Encrypt s v
  | UPub v => Uint8Service_EncryptWithPublic s v
  | UAdd x y =>
      cx <- uint8_circuit s x ;; cy <- uint8_circuit s y ;; Uint8Service_Add s cx cy
  | UBitAnd x y =>
      cx <- uint8_circuit s x ;; cy <- uint8_circuit s y ;; Uint8Service_BitAnd s cx cy
  | UBitXor x y =>
      cx <- uint8_circuit s x ;; cy <- uint8_circuit s y ;; Uint8Service_BitXor s cx cy
  end.

(** ** Event disciplines, continued *)

(** [m] only appends events, none of which touches the pin, the ambient
    key or a primitive that needs it, and [m] leaves the process-wide
    holder as it is. *)
Definition detached {A} (m : M A) : Prop :=
  forall st,
    holder (m st).2 = holder st /\
    exists evs, trace (m st).2 = trace st ++ evs /\ forallb keyless evs = true.

(** [m] only appends events, and they take a lane in state [s] back to
    [s] with every primitive that needs the ambient key called while a
    key is bound. *)
Definition keyed_in (s : lane) {A} (m : M A) : Prop :=
  forall st, exists evs,
    trace (m st).2 = trace st ++ evs /\ keyed_run s evs = Some s.

Definition keyed {A} (m : M A) : Prop := keyed_in Unbound m.

(** ** HTTP handlers: internal/httpapi *)

Context {json : Json}.

(** [v, err := f()] with [err] as data. *)
Definition attempt {A} (m : M A) : M (string + A) :=
  fun st =>
    match m st with
    | (Ok a, st') => (Ok (inr a), st')
    | (Err e, st') => (Ok (inl e), st')
    | (Panic e, st') => (Panic e, st')
    end.

Definition writeJSON (w : ResponseWriter) (status : Z) (body : jobject)
    : ResponseWriter :=
  Encode body (WriteHeader status (Header_Set "Content-Type" "application/json" w)).

Definition writeError (w : ResponseWriter) (status : Z) (err : string)
    : ResponseWriter :=
  writeJSON w status [("error", JString err)].

Definition HandlerFunc : Type := ResponseWriter -> Request -> M ResponseWriter.

Definition NewHandler (booleanService : BooleanService) (uint8Service : Uint8Service)
    : Handler :=
  mkHandler booleanService uint8Service.

Definition Handler_health (h : Handler) : HandlerFunc := fun w r =>
  ret (writeJSON w StatusOK [("status", JString "ok")]).

Definition Handler_encrypt (h : Handler) : HandlerFunc := fun w r =>
  if negb (String.eqb (Method r) MethodPost)
  then ret (WriteHeader StatusMethodNotAllowed w) else
  match DecodeBoolValue (Body r) with
  | inl err => ret (writeError w StatusBadRequest err)
  | inr value =>
      res <- attempt (EncryptBoolToBase64 (h_boolean h) value) ;;
      match res with
      | inl err => ret (writeError w StatusInternalServerError err)
      | inr ct => ret (writeJSON w StatusOK [("ciphertext", JString ct)])
      end
  end.

Definition Handler_decrypt (h : Handler) : HandlerFunc := fun w r =>
  if negb (String.eqb (Method r) MethodPost)
  then ret (WriteHeader StatusMethodNotAllowed w) else
  match DecodeCiphertext (Body r) with
  | inl err => ret (writeError w StatusBadRequest err)
  | inr ciphertext =>
      res <- attempt (DecryptBoolFromBase64 (h_boolean h) ciphertext) ;;
      match res with
      | inl err => ret (writeError w StatusInternalServerError err)
      | inr value => ret (writeJSON w StatusOK [("value", JBool value)])
      end
  end.

Definition Handler_binaryOp (h : Handler) (w : ResponseWriter) (r : Request)
    (fn : string -> string -> M string) : M ResponseWriter :=
  if negb (String.eqb (Method r) MethodPost)
  then ret (WriteHeader StatusMethodNotAllowed w) else
  match DecodeLeftRight (Body r) with
  | inl err => ret (writeError w StatusBadRequest err)
  | inr req =>
      res <- attempt (fn (fst req) (snd req)) ;;
      match res with
      | inl err => ret (writeError w StatusInternalServerError err)
      | inr ct => ret (writeJSON w StatusOK [("ciphertext", JString ct)])
      end
  end.

Definition Handler_and (h : Handler) : HandlerFunc := fun w r =>
  Handler_binaryOp h w r (AndBase64 (h_boolean h)).

Definition Handler_or (h : Handler) : HandlerFunc := fun w r =>
  Handler_binaryOp h w r (OrBase64 (h_boolean h)).

Definition Handler_xor (h : Handler) : HandlerFunc := fun w r =>
  Handler_binaryOp h w r (XorBase64 (h_boolean h)).

Definition Handler_not (h : Handler) : HandlerFunc := fun w r =>
  if negb (String.eqb (Method r) MethodPost)
  then ret (WriteHeader StatusMethodNotAllowed w) else
  match DecodeCiphertext (Body r) with
  | inl err => ret (writeError w StatusBadRequest err)
  | inr ciphertext =>
      res <- attempt (NotBase64 (h_boolean h) ciphertext) ;;
      match res with
      | inl err => ret (writeError w StatusInternalServerError err)
      | inr ct => ret (writeJSON w StatusOK [("ciphertext", JString ct)])
      end
  end.

Definition Handler_encryptUint8 (h : Handler) : HandlerFunc := fun w r =>
  if negb (String.eqb (Method r) MethodPost)
  then ret (WriteHeader StatusMethodNotAllowed w) else
  match DecodeUint8Value (Body r) with
  | inl err => ret (writeError w StatusBadRequest err)
  | inr value =>
      res <- attempt (Uint8Service_Encrypt (h_uint8 h) value) ;;
      match res with
      | inl err => ret (writeError w StatusInternalServerError err)
      | inr ct => ret (writeJSON w StatusOK [("ciphertext", JString ct)])
      end
  end.

Definition Handler_encryptUint8Public (h : Handler) : HandlerFunc := fun w r =>
  if negb (String.eqb (Method r) MethodPost)
  then ret (WriteHeader StatusMethodNotAllowed w) else
  match DecodeUint8Value (Body r) with
  | inl err => ret (writeError w StatusBadRequest err)
  | inr value =>
      res <- attempt (Uint8Service_EncryptWithPublic (h_uint8 h) value) ;;
      match res with
      | inl err => ret (writeError w StatusInternalServerError err)
      | inr ct => ret (writeJSON w StatusOK [("ciphertext", JString ct)])
      end
  end.

Definition Handler_decryptUint8 (h : Handler) : HandlerFunc := fun w r =>
  if negb (String.eqb (Method r) MethodPost)
  then ret (WriteHeader StatusMethodNotAllowed w) else
  match DecodeCiphertext (Body r) with
  | inl err => ret (writeError w StatusBadRequest err)
  | inr ciphertext =>
      res <- attempt (Uint8Service_Decrypt (h_uint8 h) ciphertext) ;;
      match res with
      | inl err => ret (writeError w StatusInternalServerError err)
      | inr value => ret (writeJSON w StatusOK [("value", JNumber value)])
      end
  end.

Definition Handler_binaryOpUint8 (h : Handler) (w : ResponseWriter) (r : Request)
    (fn : string -> string -> M string) : M ResponseWriter :=
  if negb (String.eqb (Method r) MethodPost)
  then ret (WriteHeader StatusMethodNotAllowed w) else
  match DecodeLeftRight (Body r) with
  | inl err => ret (writeError w StatusBadRequest err)
  | inr req =>
      res <- attempt (fn (fst req) (snd req)) ;;
      match res with
      | inl err => ret (writeError w StatusInternalServerError err)
      | inr ct => ret (writeJSON w StatusOK [("ciphertext", JString ct)])
      end
  end.

Definition Handler_addUint8 (h : Handler) : HandlerFunc := fun w r =>
  Handler_binaryOpUint8 h w r (Uint8Service_Add (h_uint8 h)).

Definition Handler_bitAndUint8 (h : Handler) : HandlerFunc := fun w r =>
  Handler_binaryOpUint8 h w r (Uint8Service_BitAnd (h_uint8 h)).

Definition Handler_bitXorUint8 (h : Handler) : HandlerFunc := fun w r =>
  Handler_binaryOpUint8 h w r (Uint8Service_BitXor (h_uint8 h)).

(** [http.ServeMux] as [Register] uses it: the registered patterns with
    their handlers.  [HandleFunc] panics on an empty pattern and on a
    pattern that is registered already. *)
Definition ServeMux : Type := list (string * HandlerFunc).



(** The routes in the order [Register] adds them. *)
Definition routes (h : Handler) : ServeMux :=
  [("/health", Handler_health h);
   ("/boolean/encrypt", Handler_encrypt h);
   ("/boolean/decrypt", Handler_decrypt h);
   ("/boolean/and", Handler_and h);
   ("/boolean/or", Handler_or h);
   ("/boolean/xor", Handler_xor h);
   ("/boolean/not", Handler_not h);
   ("/uint8/encrypt", Handler_encryptUint8 h);
   ("/uint8/encrypt/public", Handler_encryptUint8Public h);
   ("/uint8/decrypt", Handler_decryptUint8 h);
   ("/uint8/add", Handler_addUint8 h);
   ("/uint8/bitand", Handler_bitAndUint8 h);
   ("/uint8/bitxor", Handler_bitXorUint8 h)].

(** The handlers that serve POST requests only: all but [health]. *)
Definition post_handlers (h : Handler) : list HandlerFunc :=
  map snd (tl (routes h)).

(** The shape the POST handlers share: the method guard, the decoding
    of the body into a request [Q], the service operation [run] and the
    reply built from its result. *)
Definition post_json {Q A} (decode : string -> string + Q) (run : Q -> M A)
    (reply_body : A -> jobject) : HandlerFunc := fun w r =>
  if negb (String.eqb (Method r) MethodPost)
  then ret (WriteHeader StatusMethodNotAllowed w) else
  match decode (Body r) with
  | inl err => ret (writeError w StatusBadRequest err)
  | inr req =>
      res <- attempt (run req) ;;
      match res with
      | inl err => ret (writeError w StatusInternalServerError err)
      | inr a => ret (writeJSON w StatusOK (reply_body a))
      end
  end.

(** Handler [f] answers request [r] with status 200 and a ciphertext
    text that encodes [x], and leaves a state that satisfies [post]. *)
Definition served (f : HandlerFunc) (w : ResponseWriter) (r : Request)
    (st : state E) (x : content K) (post : state E -> Prop) : Prop :=
  exists bs st',
    f w r st = (Ok (writeJSON w StatusOK [("ciphertext", JString (EncodeToString bs))]),
                st') /\
    encodes bs x /\ post st'.

(** What a handler has done to a response that had no status yet: sent
    405 and nothing else, or set the content type and written one JSON
    object, which is an error object exactly when the status is 400 or
    500. *)
Definition answered (w w' : ResponseWriter) : Prop :=
  (rw_status w' = Some StatusMethodNotAllowed /\
   rw_body w' = rw_body w /\ rw_header w' = rw_header w) \/
  (exists b,
     rw_body w' = rw_body w ++ [b] /\
     In ("Content-Type", "application/json") (rw_header w') /\
     ((rw_status w' = Some StatusOK /\ forall e, b <> [("error", JString e)]) \/
      (exists e, b = [("error", JString e)] /\
         (rw_status w' = Some StatusBadRequest \/
          rw_status w' = Some StatusInternalServerError)))).



(** The engine refuses call [c] in state [st] and [m] reports it: [m]
    returns the error made of [context] and the engine's status code,
    having made that one call and changed nothing on the Go side. *)
Definition refusal {A} (c : ccall) (context : string) (m : M A) (st : state E)
    : Prop :=
  code (reply c (eng st)) <> 0 ->
  m st = (Err (context +:+ ": tfhe error code " +:+ itoa (code (reply c (eng st)))),
          mkState (after c (eng st)) (heap st) (holder st)
            (trace st ++ [Call c (reply c (eng st))])).

(** The integer binary operations with their primitive and the context
    of their errors. *)
Definition uint8_operations
    : list ((goptr -> goptr -> M goptr) * (cptr -> cptr -> ccall) * string) :=
  [(Uint8Add, fhe_uint8_add, "uint8 add");
   (Uint8BitAnd, fhe_uint8_bitand, "uint8 bitand");
   (Uint8BitXor, fhe_uint8_bitxor, "uint8 bitxor")].

(** [m] only appends events, none of which creates or destroys a
    ciphertext, and leaves the Go heap alone. *)
Definition aside {A} (m : M A) : Prop :=
  forall st, exists evs,
    trace (m st).2 = trace st ++ evs /\ heap (m st).2 = heap st /\
    tally makes evs = 0%nat /\ tally unmakes evs = 0%nat.

(** [m] yields an engine pointer without touching the Go heap or
    destroying a ciphertext; its events have created one ciphertext when
    it returns a pointer that is not [NULL], and none otherwise. *)
Definition supplies (m : M cptr) : Prop :=
  forall st, exists evs,
    trace (m st).2 = trace st ++ evs /\ heap (m st).2 = heap st /\
    tally unmakes evs = 0%nat /\
    tally makes evs = match (m st).1 with
                      | Ok p => if N.eqb p NULL then 0%nat else 1%nat
                      | _ => 0%nat
                      end.

(** [m] yields a new handle without destroying a ciphertext: on success
    it has allocated one wrapper at the end of the Go heap and its events
    have created one ciphertext when the wrapper's pointer is not
    [NULL], and none otherwise; on failure it has allocated nothing and
    created nothing. *)
Definition allocates (m : M goptr) : Prop :=
  forall st, exists evs,
    trace (m st).2 = trace st ++ evs /\ tally unmakes evs = 0%nat /\
    match (m st).1 with
    | Ok x =>
        exists p, x = Some (length (heap st)) /\
                  heap (m st).2 = heap st ++ [p] /\
                  tally makes evs = if N.eqb p NULL then 0%nat else 1%nat
    | _ => heap (m st).2 = heap st /\ tally makes evs = 0%nat
    end.

(** [m] leaves the wrappers that existed before untouched, and its
    events hold as many destroy calls for ciphertexts as creations of
    ciphertexts. *)
Definition exactly_once {A} (m : M A) : Prop :=
  forall st, exists evs news,
    trace (m st).2 = trace st ++ evs /\ heap (m st).2 = heap st ++ news /\
    tally makes evs = tally unmakes evs.

(** ** The integer service of the process *)





(** * Verification *)

(** ** Running the monad *)

(** Case analysis along the decisions of straight-line code. *)
Ltac mrun :=
  repeat (cbn;
    match goal with
    | H : ?l !! ?i = _ |- context [?l !! ?i] => rewrite H
    | |- context [if N.eqb ?p 0 then _ else _] => destruct (N.eqb p 0) eqn:?
    | |- context [negb (code ?r =? 0)] => destruct (code r =? 0) eqn:?
    | |- context [match ?l !! ?i with _ => _ end] => destruct (l !! i) eqn:?
    end).

Lemma bind_ok {A B} (m : M A) (k : A -> M B) st a st' :
  m st = (Ok a, st') -> bind m k st = k a st'.
Proof. unfold bind. by intros ->. Qed.

Lemma bind_err {A B} (m : M A) (k : A -> M B) st e st' :
  m st = (Err e, st') -> bind m k st = (Err e, st').
Proof. unfold bind. by intros ->. Qed.

Lemma is_nil_nil st c : nil_handle st c -> is_nil c st = (Ok true, st).
Proof.
  destruct c as [l|]; [|done].
  unfold nil_handle, is_nil, bind, load, ret. by intros ->.
Qed.

Lemma is_nil_valid st c :
  valid_handle st c ->
  exists b, is_nil c st = (Ok b, st) /\
    (b = true -> nil_handle st c) /\
    (b = false -> exists l p, c = Some l /\ heap st !! l = Some p /\ p <> NULL).
Proof.
  destruct c as [l|]; unfold valid_handle, nil_handle, is_nil.
  - intros Hl. destruct (lookup_lt_is_Some_2 _ _ Hl) as [p Hp].
    exists (N.eqb p NULL). unfold bind, load, ret. rewrite Hp.
    split; [done|]. split.
    + intros ->%N.eqb_eq. done.
    + intros Hne%N.eqb_neq. eauto.
  - intros _. exists true. repeat split; done.
Qed.

Lemma nil_handle_valid st c : nil_handle st c -> valid_handle st c.
Proof.
  destruct c as [l|]; cbn; [|done]. intros H. by eapply lookup_lt_Some.
Qed.

(** ** Release *)

Lemma close_with_nil destroy context st c :
  nil_handle st c -> close_with destroy context c st = (Ok tt, st).
Proof. intros H. unfold close_with. by rewrite (bind_ok _ _ _ _ _ (is_nil_nil _ _ H)). Qed.

Lemma close_with_again destroy context st c st1 :
  close_with destroy context c st = (Ok tt, st1) -> nil_handle st1 c.
Proof.
  destruct c as [l|]; [|done].
  unfold close_with, is_nil, bind, load, ret, call, check, store, fail. cbn.
  destruct (heap st !! l) as [p|] eqn:Hp; [|done].
  destruct (N.eqb p NULL) eqn:Hnull.
  - intros [= <-]. cbn. apply N.eqb_eq in Hnull. by subst.
  - cbn. rewrite Hp.
    destruct (code _ =? 0); cbn; [|done]. rewrite Hp.
    intros [= <-]. cbn. apply list_lookup_insert_eq. by eapply lookup_lt_Some.
Qed.

Lemma close_with_no_panic destroy context st c :
  valid_handle st c -> no_panic (close_with destroy context c st).1.
Proof.
  destruct c as [l|]; [|done]. cbn. intros Hl.
  destruct (lookup_lt_is_Some_2 _ _ Hl) as [p Hp].
  unfold close_with, is_nil, bind, load, ret, call, check, store, fail. cbn.
  rewrite Hp. destruct (N.eqb p NULL); cbn; [done|]. rewrite Hp.
  destruct (code _ =? 0); cbn; [|done]. by rewrite Hp.
Qed.

Lemma Uint8ServerKey_Close_nil st c :
  nil_handle st c -> Uint8ServerKey_Close c st = (Ok tt, st).
Proof. intros H. unfold Uint8ServerKey_Close. by rewrite (bind_ok _ _ _ _ _ (is_nil_nil _ _ H)). Qed.

Lemma Uint8ServerKey_Close_again st c st1 :
  Uint8ServerKey_Close c st = (Ok tt, st1) -> nil_handle st1 c.
Proof.
  destruct c as [l|]; [|done].
  unfold Uint8ServerKey_Close, is_nil, bind, load, ret, call, check, store, fail. cbn.
  destruct (heap st !! l) as [p|] eqn:Hp; [|done].
  destruct (N.eqb p NULL) eqn:Hnull.
  - intros [= <-]. cbn. apply N.eqb_eq in Hnull. by subst.
  - cbn. rewrite Hp.
    destruct (code _ =? 0); cbn; [|done]. rewrite Hp.
    intros [= <-]. cbn. apply list_lookup_insert_eq. by eapply lookup_lt_Some.
Qed.

Lemma Uint8ServerKey_Close_no_panic st c :
  valid_handle st c -> no_panic (Uint8ServerKey_Close c st).1.
Proof.
  destruct c as [l|]; [|done]. cbn. intros Hl.
  destruct (lookup_lt_is_Some_2 _ _ Hl) as [p Hp].
  unfold Uint8ServerKey_Close, is_nil, bind, load, ret, call, check, store, fail. cbn.
  rewrite Hp. destruct (N.eqb p NULL); cbn; [done|]. rewrite Hp.
  destruct (code _ =? 0); cbn; [|done]. by rewrite Hp.
Qed.

(** C6.  For each of the seven handle types, [Close] on a handle that is
    [nil] or whose pointer has already been cleared returns no error and
    changes nothing (no engine call is made); after a [Close] that
    returned no error, a second [Close] on the same handle is such a
    no-op; and [Close] never panics on a handle Go can hold. *)
Theorem release_is_idempotent (close : goptr -> M unit) (st : state E) (c : goptr) :
  In close all_Close ->
  (nil_handle st c -> close c st = (Ok tt, st)) /\
  (forall st1, close c st = (Ok tt, st1) -> close c st1 = (Ok tt, st1)) /\
  (valid_handle st c -> no_panic (close c st).1).
Proof.
  unfold all_Close. cbn [In].
  intros [<-|[<-|[<-|[<-|[<-|[<-|[<-|[]]]]]]]];
    first [ split; [apply Uint8ServerKey_Close_nil
                   |split; [intros st1 H1; apply Uint8ServerKey_Close_nil;
                            by eapply Uint8ServerKey_Close_again
                           |apply Uint8ServerKey_Close_no_panic]]
          | split; [apply close_with_nil
                   |split; [intros st1 H1; apply close_with_nil;
                            by eapply close_with_again
                           |apply close_with_no_panic]] ].
Qed.

(** ** Operations on Nil handles *)

Lemma fails_fast_intro {A} (m : M A) st msg :
  In msg nil_messages -> m st = (Err msg, st) -> fails_fast m st.
Proof. intros H1 H2. exists msg. done. Qed.

Lemma fails_fast_fail {A} st msg :
  In msg nil_messages -> fails_fast (fail (A:=A) msg) st.
Proof. intros H. by eapply fails_fast_intro. Qed.

Lemma fails_fast_bind {A B} (m : M B) (k : B -> M A) st b :
  m st = (Ok b, st) -> fails_fast (k b) st -> fails_fast (bind m k) st.
Proof.
  intros Hm (msg & Hin & Hk). exists msg. split; [done|].
  by rewrite (bind_ok _ _ _ _ _ Hm).
Qed.

Lemma one_handle_nil {A} (k : M A) msg st c :
  In msg nil_messages -> nil_handle st c ->
  fails_fast (n <- is_nil c ;; if (n : bool) then fail msg else k) st.
Proof.
  intros Hm Hc. eapply fails_fast_bind; [by apply is_nil_nil|].
  by apply fails_fast_fail.
Qed.

Lemma other_handle_first {A} (k : M A) msg st o :
  In msg nil_messages -> valid_handle st o -> fails_fast k st ->
  fails_fast (n <- is_nil o ;; if (n : bool) then fail msg else k) st.
Proof.
  intros Hm Ho Hk. destruct (is_nil_valid _ _ Ho) as (b & Hb & _ & _).
  eapply fails_fast_bind; [exact Hb|]. destruct b; [|done].
  by apply fails_fast_fail.
Qed.

(** [lhs == nil || lhs.ptr == nil || rhs == nil || rhs.ptr == nil] with one
    of the two Nil. *)
Lemma operands_nil_l {A} (k : M A) st c o :
  nil_handle st c ->
  fails_fast (nl <- is_nil c ;;
              nr <- (if (nl : bool) then ret true else is_nil o) ;;
              if (nr : bool) then fail "ciphertext is nil" else k) st.
Proof.
  intros Hc.
  assert (Hct : In "ciphertext is nil" nil_messages) by (cbn; tauto).
  eapply fails_fast_bind; [by apply is_nil_nil|].
  eapply fails_fast_bind; [reflexivity|]. by apply fails_fast_fail.
Qed.

Lemma operands_nil_r {A} (k : M A) st c o :
  nil_handle st c -> valid_handle st o ->
  fails_fast (nl <- is_nil o ;;
              nr <- (if (nl : bool) then ret true else is_nil c) ;;
              if (nr : bool) then fail "ciphertext is nil" else k) st.
Proof.
  intros Hc Ho.
  assert (Hct : In "ciphertext is nil" nil_messages) by (cbn; tauto).
  destruct (is_nil_valid _ _ Ho) as (b & Hb & _ & _).
  eapply fails_fast_bind; [exact Hb|]. destruct b.
  - eapply fails_fast_bind; [reflexivity|]. by apply fails_fast_fail.
  - eapply fails_fast_bind; [by apply is_nil_nil|]. by apply fails_fast_fail.
Qed.

Lemma operands_valid {A} (k : M A) st o o' :
  valid_handle st o -> valid_handle st o' -> fails_fast k st ->
  fails_fast (nl <- is_nil o ;;
              nr <- (if (nl : bool) then ret true else is_nil o') ;;
              if (nr : bool) then fail "ciphertext is nil" else k) st.
Proof.
  intros Ho Ho' Hk.
  assert (Hct : In "ciphertext is nil" nil_messages) by (cbn; tauto).
  destruct (is_nil_valid _ _ Ho) as (b & Hb & _ & _).
  eapply fails_fast_bind; [exact Hb|]. destruct b.
  { eapply fails_fast_bind; [reflexivity|]. by apply fails_fast_fail. }
  destruct (is_nil_valid _ _ Ho') as (b' & Hb' & _ & _).
  eapply fails_fast_bind; [exact Hb'|]. destruct b'; [|done].
  by apply fails_fast_fail.
Qed.

Lemma gate2_nil f context st c o1 o2 :
  nil_handle st c -> valid_handle st o1 -> valid_handle st o2 ->
  fails_fast (gate2 f context c o1 o2) st /\
  fails_fast (gate2 f context o1 c o2) st /\
  fails_fast (gate2 f context o1 o2 c) st.
Proof.
  intros Hc H1 H2.
  assert (Hsk : In "server key is nil" nil_messages) by (cbn; tauto).
  split; [by apply one_handle_nil|].
  split; apply other_handle_first; try done;
    [by apply operands_nil_l|by apply operands_nil_r].
Qed.

Lemma uint8_binary_nil f context st c o :
  nil_handle st c -> valid_handle st o ->
  fails_fast (uint8_binary f context c o) st /\
  fails_fast (uint8_binary f context o c) st.
Proof.
  intros Hc Ho. split; [by apply operands_nil_l|by apply operands_nil_r].
Qed.

Lemma withServerKey_nil {A} (fn : M A) st c :
  nil_handle st c -> withServerKey c fn st = (Err "server key is nil", st).
Proof.
  intros Hc. unfold withServerKey.
  by rewrite (bind_ok _ _ _ _ _ (is_nil_nil _ _ Hc)).
Qed.

Lemma uint8_binary_unbound f context st l r :
  nil_handle st (holder st) -> valid_handle st l -> valid_handle st r ->
  fails_fast (uint8_binary f context l r) st.
Proof.
  intros Hh Hl Hr. apply operands_valid; try done.
  eapply fails_fast_bind; [reflexivity|].
  eapply fails_fast_intro with (msg := "server key is nil"); [cbn; tauto|].
  by rewrite (bind_err _ _ _ _ _ (withServerKey_nil _ _ _ Hh)).
Qed.

(** C7.  Whenever one of its key or ciphertext handles is Nil ([c] below;
    [o], [o'] are the other handles, any handles Go can hold), each
    operation returns an error that names the Nil handle and leaves the
    state untouched: no engine call is made, nothing is dereferenced, no
    panic.  Covered: encrypt and decrypt of both families, the four
    gates, the three integer operations (Nil operand, or Nil ambient
    server key), public-key derivation and encryption, serialization of
    both families, and context binding. *)
Theorem nil_handles_fail_fast (st : state E) (c o o' : goptr) :
  nil_handle st c -> valid_handle st o -> valid_handle st o' ->
  (forall v, fails_fast (EncryptBool c v) st) /\
  fails_fast (DecryptBool c o) st /\
  fails_fast (DecryptBool o c) st /\
  (fails_fast (ServerKey_And c o o') st /\ fails_fast (ServerKey_And o c o') st /\
   fails_fast (ServerKey_And o o' c) st) /\
  (fails_fast (ServerKey_Or c o o') st /\ fails_fast (ServerKey_Or o c o') st /\
   fails_fast (ServerKey_Or o o' c) st) /\
  (fails_fast (ServerKey_Xor c o o') st /\ fails_fast (ServerKey_Xor o c o') st /\
   fails_fast (ServerKey_Xor o o' c) st) /\
  fails_fast (ServerKey_Not c o) st /\
  fails_fast (ServerKey_Not o c) st /\
  fails_fast (Ciphertext_Serialize c) st /\
  fails_fast (Uint8Serialize c) st /\
  fails_fast (NewUint8PublicKey c) st /\
  (forall v, fails_fast (EncryptUint8 c v) st) /\
  (forall v, fails_fast (EncryptUint8Public c v) st) /\
  fails_fast (DecryptUint8 c o) st /\
  fails_fast (DecryptUint8 o c) st /\
  (fails_fast (Uint8Add c o) st /\ fails_fast (Uint8Add o c) st) /\
  (fails_fast (Uint8BitAnd c o) st /\ fails_fast (Uint8BitAnd o c) st) /\
  (fails_fast (Uint8BitXor c o) st /\ fails_fast (Uint8BitXor o c) st) /\
  (forall A (fn : M A), fails_fast (withServerKey c fn) st) /\
  (holder st = c ->
   fails_fast (Uint8Add o o') st /\ fails_fast (Uint8BitAnd o o') st /\
   fails_fast (Uint8BitXor o o') st).
Proof.
  intros Hc Ho Ho'.
  pose proof (nil_handle_valid _ _ Hc) as Hv.
  assert (Hck : In "client key is nil" nil_messages) by (cbn; tauto).
  assert (Hsk : In "server key is nil" nil_messages) by (cbn; tauto).
  assert (Hpk : In "public key is nil" nil_messages) by (cbn; tauto).
  assert (Hct : In "ciphertext is nil" nil_messages) by (cbn; tauto).
  split; [intros v; by apply one_handle_nil|].
  split; [by apply one_handle_nil|].
  split; [apply other_handle_first; try done; by apply one_handle_nil|].
  split; [by apply gate2_nil|].
  split; [by apply gate2_nil|].
  split; [by apply gate2_nil|].
  split; [by apply one_handle_nil|].
  split; [apply other_handle_first; try done; by apply one_handle_nil|].
  split; [by apply one_handle_nil|].
  split; [by apply one_handle_nil|].
  split; [by apply one_handle_nil|].
  split; [intros v; by apply one_handle_nil|].
  split; [intros v; by apply one_handle_nil|].
  split; [by apply one_handle_nil|].
  split; [apply other_handle_first; try done; by apply one_handle_nil|].
  split; [by apply uint8_binary_nil|].
  split; [by apply uint8_binary_nil|].
  split; [by apply uint8_binary_nil|].
  split; [intros A fn; eapply fails_fast_intro; [exact Hsk|by apply withServerKey_nil]|].
  intros Hh. rewrite <- Hh in Hc.
  repeat split; by apply uint8_binary_unbound.
Qed.

(** ** Deserialization of invalid input *)

Lemma deserialize_with_nil de context st :
  deserialize_with de context [] st = (Err "ciphertext data is empty", st).
Proof. reflexivity. Qed.

Lemma deserialize_with_no_panic de context data st :
  no_panic (deserialize_with de context data st).1.
Proof.
  unfold deserialize_with, bind, call, check, new_obj, fail, ret.
  destruct (length data =? 0)%nat; [done|]. cbn.
  by destruct (code _ =? 0).
Qed.

Lemma deserialize_with_refused de context data st :
  code (reply (de data) (eng st)) <> 0 ->
  is_err (deserialize_with de context data st).1 /\
  heap (deserialize_with de context data st).2 = heap st.
Proof.
  intros Hc%Z.eqb_neq.
  unfold deserialize_with, bind, call, check, new_obj, fail, ret.
  destruct (length data =? 0)%nat; [done|]. cbn.
  by rewrite Hc.
Qed.

(** The two [deserialize] helpers of service.go share one shape. *)
Lemma text_rejected de context st s :
  rejected de st s ->
  let m := if String.eqb s "" then fail "ciphertext is empty" else
           match DecodeString s with
           | (_, Some err) => fail err
           | (raw, None) => deserialize_with de context raw
           end in
  is_err (m st).1 /\ heap (m st).2 = heap st.
Proof.
  intros Hrej. cbn zeta.
  destruct (String.eqb s "") eqn:Hs; [done|].
  destruct (DecodeString s) as [raw [err|]] eqn:Hd; [done|].
  unfold rejected in Hrej. rewrite Hd in Hrej. cbn [fst snd] in Hrej.
  destruct Hrej as [->|[[err Herr]|[->|Hcode]]]; [done|done|done|].
  by apply deserialize_with_refused.
Qed.

Lemma text_no_panic de context st s :
  no_panic ((if String.eqb s "" then fail "ciphertext is empty" else
             match DecodeString s with
             | (_, Some err) => fail err
             | (raw, None) => deserialize_with de context raw
             end) st).1.
Proof.
  destruct (String.eqb s ""); [done|].
  destruct (DecodeString s) as [raw [err|]]; [done|].
  apply deserialize_with_no_panic.
Qed.

Lemma bind_is_err {A B} (m : M A) (k : A -> M B) st :
  is_err (m st).1 -> is_err (bind m k st).1 /\ (bind m k st).2 = (m st).2.
Proof. unfold bind. by destruct (m st) as [[?|?|?] ?]. Qed.

(** C8.  Deserialization of the empty byte string, and of the empty text
    at the service boundary, returns the errors
    ["ciphertext data is empty"] and ["ciphertext is empty"] and leaves
    the state untouched.  For every text [s] that is empty, is not valid
    base64, decodes to no bytes, or decodes to bytes the engine's
    deserializer rejects, [deserialize] and [decrypt] of both services
    return an error and allocate no handle.  No input makes
    deserialization panic. *)
Theorem invalid_input_is_an_error (st : state E) (s : string)
    (bs : BooleanService) (us : Uint8Service) :
  (rejected boolean_deserialize_ciphertext st s ->
     is_err (deserialize s st).1 /\ heap (deserialize s st).2 = heap st /\
     is_err (DecryptBoolFromBase64 bs s st).1 /\
     heap (DecryptBoolFromBase64 bs s st).2 = heap st) /\
  (rejected fhe_uint8_deserialize st s ->
     is_err (deserializeUint8 s st).1 /\ heap (deserializeUint8 s st).2 = heap st /\
     is_err (Uint8Service_Decrypt us s st).1 /\
     heap (Uint8Service_Decrypt us s st).2 = heap st) /\
  DeserializeCiphertext [] st = (Err "ciphertext data is empty", st) /\
  Uint8Deserialize [] st = (Err "ciphertext data is empty", st) /\
  deserialize "" st = (Err "ciphertext is empty", st) /\
  deserializeUint8 "" st = (Err "ciphertext is empty", st) /\
  DecryptBoolFromBase64 bs "" st = (Err "ciphertext is empty", st) /\
  Uint8Service_Decrypt us "" st = (Err "ciphertext is empty", st) /\
  no_panic (deserialize s st).1 /\
  no_panic (deserializeUint8 s st).1 /\
  (forall data, no_panic (DeserializeCiphertext data st).1 /\
                no_panic (Uint8Deserialize data st).1).
Proof.
  split.
  { intros Hrej.
    destruct (text_rejected _ "deserialize ciphertext" _ _ Hrej) as [He Hh].
    split; [exact He|]. split; [exact Hh|].
    unfold DecryptBoolFromBase64.
    destruct (bind_is_err (deserialize s) (fun ct =>
      defer (Ciphertext_Close ct) (DecryptBool (bs_client bs) ct)) st He) as [H1 H2].
    split; [exact H1|]. rewrite H2. exact Hh. }
  split.
  { intros Hrej.
    destruct (text_rejected _ "deserialize uint8 ciphertext" _ _ Hrej) as [He Hh].
    split; [exact He|]. split; [exact Hh|].
    unfold Uint8Service_Decrypt.
    destruct (bind_is_err (deserializeUint8 s) (fun ct =>
      defer (Uint8Ciphertext_Close ct) (DecryptUint8 (us_client us) ct)) st He) as [H1 H2].
    split; [exact H1|]. rewrite H2. exact Hh. }
  repeat split; try reflexivity.
  - apply text_no_panic.
  - apply text_no_panic.
  - apply deserialize_with_no_panic.
  - apply deserialize_with_no_panic.
Qed.

(** ** The bound section *)

Lemma withServerKey_dangling {A} (fn : M A) st l :
  heap st !! l = None ->
  withServerKey (Some l) fn st =
  (Panic "invalid memory address or nil pointer dereference", st).
Proof.
  intros Hl. unfold withServerKey, is_nil, bind, load. by rewrite Hl.
Qed.

(** Pin, bind, run [fn], unbind, unpin. *)
Lemma withServerKey_run {A} (fn : M A) st l p :
  heap st !! l = Some p -> p <> 0%N ->
  withServerKey (Some l) fn st =
  let r := reply (set_server_key p) (eng st) in
  let st1 := mkState (after (set_server_key p) (eng st)) (heap st) (holder st)
               (trace st ++ [LockOSThread; Call (set_server_key p) r]) in
  if code r =? 0 then
    let (res, st2) := fn st1 in
    (res, mkState (after unset_server_key (eng st2)) (heap st2) (holder st2)
            (trace st2 ++ [Call unset_server_key (reply unset_server_key (eng st2));
                           UnlockOSThread]))
  else (Err ("set server key" +:+ ": tfhe error code " +:+ itoa (code r)),
        mkState (eng st1) (heap st1) (holder st1) (trace st1 ++ [UnlockOSThread])).
Proof.
  intros Hl Hp%N.eqb_neq.
  unfold withServerKey, is_nil, bind, load, ret, emit, defer, call, check, fail.
  cbn. rewrite Hl, Hp. cbn. rewrite Hl. cbn.
  destruct (code _ =? 0); cbn; rewrite <- ?app_assoc; cbn [app]; [|done].
  destruct (fn _) as [res st2]. cbn. by rewrite <- !app_assoc.
Qed.

(** The three ways a bound section can go. *)
Lemma withServerKey_cases {A} (fn : M A) st sk :
  (exists r, (withServerKey sk fn st) = (r, st) /\ ~ exists a, r = Ok a) \/
  exists l p, sk = Some l /\ heap st !! l = Some p /\ p <> 0%N.
Proof.
  destruct sk as [l|].
  - destruct (heap st !! l) as [p|] eqn:Hl.
    + destruct (N.eqb p 0) eqn:Hp.
      * apply N.eqb_eq in Hp. subst p. left. eexists. split.
        { by apply withServerKey_nil. }
        by intros [a Ha].
      * apply N.eqb_neq in Hp. right. eauto.
    + left. eexists. split; [by apply withServerKey_dangling|]. by intros [a Ha].
  - left. eexists. split; [by apply withServerKey_nil|]. by intros [a Ha].
Qed.

(** ** The ContextBinder discipline *)

Lemma lane_run_app s evs1 evs2 :
  lane_run s (evs1 ++ evs2) =
  match lane_run s evs1 with Some s' => lane_run s' evs2 | None => None end.
Proof.
  revert s. induction evs1 as [|ev evs1 IH]; intros s; cbn; [done|].
  destruct (lane_step s ev); [apply IH|done].
Qed.

Lemma quiet_balanced {A} (m : M A) : quiet m -> balanced m.
Proof. intros H st. destruct (H st) as (evs & Ht & Hr). eauto. Qed.

Lemma quiet_pure {A} (m : M A) : (forall st, (m st).2 = st) -> quiet m.
Proof.
  intros H st. exists []. rewrite H, app_nil_r. done.
Qed.

Lemma quiet_ret {A} (a : A) : quiet (ret a).
Proof. by apply quiet_pure. Qed.

Lemma quiet_fail {A} msg : quiet (fail (A:=A) msg).
Proof. by apply quiet_pure. Qed.

Lemma quiet_panic {A} msg : quiet (panic (A:=A) msg).
Proof. by apply quiet_pure. Qed.

Lemma quiet_load c : quiet (load c).
Proof.
  apply quiet_pure. intros st. unfold load.
  destruct c as [l|]; [|done]. by destruct (heap st !! l).
Qed.

Lemma quiet_heap {A} (m : M A) :
  (forall st, trace (m st).2 = trace st) -> quiet m.
Proof. intros H st. exists []. rewrite H, app_nil_r. done. Qed.

Lemma quiet_store c p : quiet (store c p).
Proof.
  apply quiet_heap. intros st. unfold store.
  destruct c as [l|]; [|done]. by destruct (heap st !! l).
Qed.

Lemma quiet_new_obj p : quiet (new_obj p).
Proof. by apply quiet_heap. Qed.

Lemma quiet_setServerKeyHolder sk : quiet (setServerKeyHolder sk).
Proof. by apply quiet_heap. Qed.

Lemma quiet_defaultUint8ServerKey : quiet defaultUint8ServerKey.
Proof. by apply quiet_pure. Qed.

Lemma quiet_call c : ambient c = false -> quiet (call c).
Proof.
  intros Hc st. eexists. split; [reflexivity|].
  intros s. cbn. by destruct c, s.
Qed.

Lemma quiet_bind {A B} (m : M A) (k : A -> M B) :
  quiet m -> (forall a, quiet (k a)) -> quiet (bind m k).
Proof.
  intros Hm Hk st. destruct (Hm st) as (evs1 & Ht1 & Hr1).
  unfold bind. destruct (m st) as [[a|e|e] st1]; cbn in *; [|by eauto..].
  destruct (Hk a st1) as (evs2 & Ht2 & Hr2).
  exists (evs1 ++ evs2). split.
  - by rewrite Ht2, Ht1, app_assoc.
  - intros s. by rewrite lane_run_app, Hr1.
Qed.

Lemma quiet_defer {A B} (d : M B) (body : M A) :
  quiet d -> quiet body -> quiet (defer d body).
Proof.
  intros Hd Hb st. destruct (Hb st) as (evs1 & Ht1 & Hr1).
  unfold defer. destruct (body st) as [r st1]; cbn in *.
  destruct (Hd st1) as (evs2 & Ht2 & Hr2).
  exists (evs1 ++ evs2). split.
  - destruct (d st1) as [[?|?|?] st2]; cbn in *; by rewrite Ht2, Ht1, app_assoc.
  - intros s. by rewrite lane_run_app, Hr1.
Qed.

Lemma balanced_bind {A B} (m : M A) (k : A -> M B) :
  balanced m -> (forall a, balanced (k a)) -> balanced (bind m k).
Proof.
  intros Hm Hk st. destruct (Hm st) as (evs1 & Ht1 & Hr1).
  unfold bind. destruct (m st) as [[a|e|e] st1]; cbn in *; [|by eauto..].
  destruct (Hk a st1) as (evs2 & Ht2 & Hr2).
  exists (evs1 ++ evs2). split.
  - by rewrite Ht2, Ht1, app_assoc.
  - by rewrite lane_run_app, Hr1.
Qed.

Lemma balanced_defer {A B} (d : M B) (body : M A) :
  balanced d -> balanced body -> balanced (defer d body).
Proof.
  intros Hd Hb st. destruct (Hb st) as (evs1 & Ht1 & Hr1).
  unfold defer. destruct (body st) as [r st1]; cbn in *.
  destruct (Hd st1) as (evs2 & Ht2 & Hr2).
  exists (evs1 ++ evs2). split.
  - destruct (d st1) as [[?|?|?] st2]; cbn in *; by rewrite Ht2, Ht1, app_assoc.
  - by rewrite lane_run_app, Hr1.
Qed.

(** Syntax-directed derivation of [quiet] for straight-line code. *)
Ltac quiet_step :=
  match goal with
  | |- quiet (bind _ _) => apply quiet_bind; [|intros ?]
  | |- quiet (defer _ _) => apply quiet_defer
  | |- quiet (ret _) => apply quiet_ret
  | |- quiet (fail _) => apply quiet_fail
  | |- quiet (panic _) => apply quiet_panic
  | |- quiet (load _) => apply quiet_load
  | |- quiet (store _ _) => apply quiet_store
  | |- quiet (new_obj _) => apply quiet_new_obj
  | |- quiet (call _) => apply quiet_call; reflexivity
  | |- quiet (if ?b then _ else _) => destruct b
  | |- quiet (match ?x with _ => _ end) => destruct x
  end.

Lemma quiet_is_nil c : quiet (is_nil c).
Proof. unfold is_nil. repeat quiet_step. Qed.

Lemma quiet_check c context : quiet (check c context).
Proof. unfold check. repeat quiet_step. Qed.

Lemma quiet_close_with destroy context c :
  (forall p, ambient (destroy p) = false) -> quiet (close_with destroy context c).
Proof.
  intros Hd. unfold close_with.
  repeat first [apply quiet_is_nil | apply quiet_check
               | apply quiet_call; apply Hd | quiet_step].
Qed.

Lemma quiet_serialize_with ser context c :
  (forall p, ambient (ser p) = false) -> quiet (serialize_with ser context c).
Proof.
  intros Hd. unfold serialize_with, GoBytes.
  repeat first [apply quiet_is_nil | apply quiet_check
               | apply quiet_call; apply Hd | quiet_step].
Qed.

Lemma quiet_deserialize_with de context data :
  (forall p, ambient (de p) = false) -> quiet (deserialize_with de context data).
Proof.
  intros Hd. unfold deserialize_with.
  repeat first [apply quiet_check | apply quiet_call; apply Hd | quiet_step].
Qed.

Lemma quiet_deserializeUint8 s : quiet (deserializeUint8 s).
Proof.
  unfold deserializeUint8.
  repeat first [by apply quiet_deserialize_with | quiet_step].
Qed.

Lemma quiet_serializeUint8ToBase64 c : quiet (serializeUint8ToBase64 c).
Proof.
  unfold serializeUint8ToBase64.
  repeat first [by apply quiet_serialize_with | quiet_step].
Qed.

(** The bound section: pin, bind, run [fn], unbind, unpin. *)
Lemma withServerKey_balanced {A} sk (fn : M A) :
  quiet fn -> balanced (withServerKey sk fn).
Proof.
  intros Hfn st.
  destruct (withServerKey_cases fn st sk) as [(r & -> & _)|(l & p & -> & Hl & Hp)].
  { exists []. by rewrite app_nil_r. }
  rewrite (withServerKey_run _ _ _ _ Hl Hp). cbn zeta.
  destruct (code _ =? 0) eqn:Hc.
  - match goal with |- context [fn ?s] =>
      destruct (Hfn s) as (evs & Ht & Hr); destruct (fn s) as [r st1] end.
    cbn in *. eexists. split.
    + rewrite Ht, <- !app_assoc. reflexivity.
    + cbn. rewrite Hc. rewrite lane_run_app, Hr. reflexivity.
  - eexists. split; [cbn; rewrite <- !app_assoc; reflexivity|].
    cbn. by rewrite Hc.
Qed.

Lemma uint8_binary_balanced f context l r :
  (forall p q, ambient (f p q) = false) -> balanced (uint8_binary f context l r).
Proof.
  intros Hf. unfold uint8_binary.
  apply balanced_bind; [apply quiet_balanced, quiet_is_nil|intros nl].
  apply balanced_bind;
    [destruct nl; apply quiet_balanced; [apply quiet_ret|apply quiet_is_nil]|intros nr].
  destruct nr; [apply quiet_balanced, quiet_fail|].
  apply balanced_bind; [apply quiet_balanced, quiet_defaultUint8ServerKey|intros sk].
  apply balanced_bind; [|intros out; apply quiet_balanced, quiet_new_obj].
  apply withServerKey_balanced.
  repeat first [apply quiet_check | apply quiet_call; apply Hf | quiet_step].
Qed.

Lemma binaryUint8_balanced lhs rhs op :
  (forall l r, balanced (op l r)) -> balanced (binaryUint8 lhs rhs op).
Proof.
  intros Hop. unfold binaryUint8.
  apply balanced_bind; [apply quiet_balanced, quiet_deserializeUint8|intros l].
  apply balanced_defer; [by apply quiet_balanced, quiet_close_with|].
  apply balanced_bind; [apply quiet_balanced, quiet_deserializeUint8|intros r].
  apply balanced_defer; [by apply quiet_balanced, quiet_close_with|].
  apply balanced_bind; [apply Hop|intros out].
  apply balanced_defer; [by apply quiet_balanced, quiet_close_with|].
  apply quiet_balanced, quiet_serializeUint8ToBase64.
Qed.

(** C4.  For every engine, every state and all operands, the events that
    [Add], [BitAnd] and [BitXor] (the service operations and the bindings
    under them) append to the trace are accepted by the ContextBinder
    state machine from Unbound back to Unbound: after a successful
    [set_server_key] the call [unset_server_key] is made before the
    operation returns, whatever the primitive replies, and
    [UnlockOSThread] comes only when no key is registered. *)
Theorem unbind_before_unpin (s : Uint8Service) (lhs rhs : string) (l r : goptr) :
  balanced (Uint8Service_Add s lhs rhs) /\
  balanced (Uint8Service_BitAnd s lhs rhs) /\
  balanced (Uint8Service_BitXor s lhs rhs) /\
  balanced (Uint8Add l r) /\
  balanced (Uint8BitAnd l r) /\
  balanced (Uint8BitXor l r).
Proof.
  repeat split;
    first [ apply binaryUint8_balanced; intros; by apply uint8_binary_balanced
          | by apply uint8_binary_balanced ].
Qed.

(** ** Release of every handle created inside an operation *)

Lemma existsb_app_r {A} (f : A -> bool) l1 l2 :
  existsb f l2 = true -> existsb f (l1 ++ l2) = true.
Proof. intros H. rewrite existsb_app, H. apply orb_true_r. Qed.

Lemma existsb_app_l {A} (f : A -> bool) l1 l2 :
  existsb f l1 = true -> existsb f (l1 ++ l2) = true.
Proof. intros H. by rewrite existsb_app, H. Qed.

Lemma all_released_app evs1 evs2 :
  all_released evs1 = true -> all_released evs2 = true ->
  all_released (evs1 ++ evs2) = true.
Proof.
  induction evs1 as [|ev evs1 IH]; cbn; [done|].
  intros [H1 H2]%andb_true_iff Hr. rewrite (IH H2 Hr), andb_true_r.
  destruct (created ev) as [[f p]|]; [|done]. by apply existsb_app_l.
Qed.

Lemma all_released_inert evs :
  Forall (fun ev => created ev = None) evs -> all_released evs = true.
Proof. induction 1 as [|ev evs Hev _ IH]; cbn; [done|]. by rewrite Hev, IH. Qed.

(** Events whose only creation is [p], followed by events that destroy
    [p]. *)
Lemma all_released_handed f p evs1 evs2 :
  Forall (fun ev => created ev = None \/ created ev = Some (f, p)) evs1 ->
  existsb (destroys f p) evs2 = true -> all_released evs2 = true ->
  all_released (evs1 ++ evs2) = true.
Proof.
  intros H1 Hd H2. induction H1 as [|ev evs1 Hev _ IH]; cbn; [done|].
  rewrite IH, andb_true_r. destruct Hev as [->| ->]; [done|].
  by apply existsb_app_r.
Qed.

Lemma created_nonnull ev f p : created ev = Some (f, p) -> p <> 0%N.
Proof.
  destruct ev as [| |c r]; cbn; try done.
  destruct (creates c); [|done].
  destruct (code r =? 0); cbn; [|done].
  destruct (N.eqb (out_ptr r) 0) eqn:Hn; cbn; [done|].
  intros [= _ <-]. by apply N.eqb_neq.
Qed.

Lemma only_null_created f evs :
  Forall (fun ev => created ev = None \/ created ev = Some (f, 0%N)) evs ->
  Forall (fun ev => created ev = None) evs.
Proof.
  intros Hall. eapply Forall_impl; [exact Hall|].
  intros ev [H|H]; [done|]. by destruct (created_nonnull _ _ _ H).
Qed.

Lemma settled_app_l evs1 evs2 p : settled evs1 p = true -> settled (evs1 ++ evs2) p = true.
Proof.
  unfold settled. intros [H|H]%orb_true_iff; apply orb_true_iff; [by left|right].
  by apply existsb_app_l.
Qed.

Lemma settled_app_r evs1 evs2 p : settled evs2 p = true -> settled (evs1 ++ evs2) p = true.
Proof.
  unfold settled. intros [H|H]%orb_true_iff; apply orb_true_iff; [by left|right].
  by apply existsb_app_r.
Qed.

Lemma forallb_settled_app_l evs1 evs2 ps :
  forallb (settled evs1) ps = true -> forallb (settled (evs1 ++ evs2)) ps = true.
Proof.
  rewrite !forallb_forall. intros H p Hp. by apply settled_app_l, H.
Qed.

Lemma forallb_settled_app_r evs1 evs2 ps :
  forallb (settled evs2) ps = true -> forallb (settled (evs1 ++ evs2)) ps = true.
Proof.
  rewrite !forallb_forall. intros H p Hp. by apply settled_app_r, H.
Qed.

(** *** Inert code *)

Lemma inert_pure {A} (m : M A) : (forall st, (m st).2 = st) -> inert m.
Proof. intros H st. exists []. rewrite H, app_nil_r. done. Qed.

Lemma inert_ret {A} (a : A) : inert (ret a).
Proof. by apply inert_pure. Qed.

Lemma inert_fail {A} msg : inert (fail (A:=A) msg).
Proof. by apply inert_pure. Qed.

Lemma inert_panic {A} msg : inert (panic (A:=A) msg).
Proof. by apply inert_pure. Qed.

Lemma inert_load c : inert (load c).
Proof.
  apply inert_pure. intros st. unfold load.
  destruct c as [l|]; [|done]. by destruct (heap st !! l).
Qed.

Lemma inert_defaultUint8ServerKey : inert defaultUint8ServerKey.
Proof. by apply inert_pure. Qed.

Lemma inert_emit ev : created ev = None -> inert (emit ev).
Proof. intros H st. exists [ev]. cbn. auto. Qed.

Lemma inert_call c : creates c = None -> inert (call c).
Proof.
  intros Hc st. eexists. split; [reflexivity|]. split; [done|].
  constructor; [|done]. cbn. by rewrite Hc.
Qed.

Lemma inert_bind {A B} (m : M A) (k : A -> M B) :
  inert m -> (forall a, inert (k a)) -> inert (bind m k).
Proof.
  intros Hm Hk st. destruct (Hm st) as (evs1 & Ht1 & Hh1 & Hc1).
  unfold bind. destruct (m st) as [[a|e|e] st1]; cbn in *; [|by eauto..].
  destruct (Hk a st1) as (evs2 & Ht2 & Hh2 & Hc2).
  exists (evs1 ++ evs2). split; [by rewrite Ht2, Ht1, app_assoc|].
  split; [congruence|]. by apply Forall_app.
Qed.

Lemma inert_defer {A B} (d : M B) (body : M A) :
  inert d -> inert body -> inert (defer d body).
Proof.
  intros Hd Hb st. destruct (Hb st) as (evs1 & Ht1 & Hh1 & Hc1).
  unfold defer. destruct (body st) as [r st1]; cbn in *.
  destruct (Hd st1) as (evs2 & Ht2 & Hh2 & Hc2).
  exists (evs1 ++ evs2).
  destruct (d st1) as [[?|?|?] st2]; cbn in *;
    (split; [by rewrite Ht2, Ht1, app_assoc|]; split; [congruence|]; by apply Forall_app).
Qed.

Ltac inert_step :=
  match goal with
  | |- inert (bind _ _) => apply inert_bind; [|intros ?]
  | |- inert (defer _ _) => apply inert_defer
  | |- inert (ret _) => apply inert_ret
  | |- inert (fail _) => apply inert_fail
  | |- inert (panic _) => apply inert_panic
  | |- inert (load _) => apply inert_load
  | |- inert (call _) => apply inert_call; reflexivity
  | |- inert (emit _) => apply inert_emit; reflexivity
  | |- inert (if ?b then _ else _) => destruct b
  | |- inert (match ?x with _ => _ end) => destruct x
  end.

Lemma inert_is_nil c : inert (is_nil c).
Proof. unfold is_nil. repeat inert_step. Qed.

Lemma inert_check c context : inert (check c context).
Proof. unfold check. repeat inert_step. Qed.

Lemma inert_serialize_with ser context c :
  (forall p, creates (ser p) = None) -> inert (serialize_with ser context c).
Proof.
  intros Hs. unfold serialize_with, GoBytes.
  repeat first [apply inert_is_nil | apply inert_check
               | apply inert_call; apply Hs | inert_step].
Qed.

Lemma inert_serializeToBase64 c : inert (serializeToBase64 c).
Proof.
  unfold serializeToBase64. repeat first [by apply inert_serialize_with | inert_step].
Qed.

Lemma inert_serializeUint8ToBase64 c : inert (serializeUint8ToBase64 c).
Proof.
  unfold serializeUint8ToBase64. repeat first [by apply inert_serialize_with | inert_step].
Qed.

Lemma inert_DecryptBool client ct : inert (DecryptBool client ct).
Proof.
  unfold DecryptBool. repeat first [apply inert_is_nil | apply inert_check | inert_step].
Qed.

Lemma inert_DecryptUint8 client ct : inert (DecryptUint8 client ct).
Proof.
  unfold DecryptUint8. repeat first [apply inert_is_nil | apply inert_check | inert_step].
Qed.

Lemma inert_scoped {A} (m : M A) : inert m -> scoped m.
Proof.
  intros H st. destruct (H st) as (evs & Ht & Hh & Hc).
  exists evs, []. rewrite app_nil_r. repeat split; try done.
  by apply all_released_inert.
Qed.

(** *** Creators *)

Lemma creator_fail f msg : creator f (fail msg).
Proof. intros st. exists []. cbn. by rewrite app_nil_r. Qed.

Lemma creator_bind {A} f (m : M A) (k : A -> M goptr) :
  inert m -> (forall a, creator f (k a)) -> creator f (bind m k).
Proof.
  intros Hm Hk st. destruct (Hm st) as (evs1 & Ht1 & Hh1 & Hc1).
  unfold bind. destruct (m st) as [[a|e|e] st1]; cbn in *; [|by eauto..].
  destruct (Hk a st1) as (evs2 & Ht2 & Hr2).
  exists (evs1 ++ evs2). split; [by rewrite Ht2, Ht1, app_assoc|].
  destruct (k a st1) as [[x|e|e] st2]; cbn in *.
  - destruct Hr2 as (p & -> & Hh2 & Hc2). exists p. rewrite Hh1 in *.
    repeat split; try done. apply Forall_app. split; [|done].
    eapply Forall_impl; [exact Hc1|]. by left.
  - destruct Hr2 as [Hh2 Hc2]. split; [congruence|]. by apply Forall_app.
  - destruct Hr2 as [Hh2 Hc2]. split; [congruence|]. by apply Forall_app.
Qed.

(** [C.f(..., &out)], [check], [&T{ptr: out}]. *)
Lemma creator_call f c context :
  creates c = Some f ->
  creator f (r <- call c ;; do check (code r) context ;; new_obj (out_ptr r)).
Proof.
  intros Hc st. eexists. split.
  - unfold bind, call, check, new_obj, fail, ret. cbn.
    destruct (code _ =? 0); cbn; reflexivity.
  - unfold bind, call, check, new_obj, fail, ret. cbn.
    destruct (code (reply c (eng st)) =? 0) eqn:Hcode; cbn.
    + eexists. repeat split. constructor; [|done]. cbn. rewrite Hc, Hcode. cbn.
      destruct (N.eqb _ 0); cbn; auto.
    + split; [done|]. constructor; [|done]. cbn. by rewrite Hc, Hcode.
Qed.

Ltac creator_step :=
  match goal with
  | |- creator _ (fail _) => apply creator_fail
  | |- creator _ (bind (call _) _) => apply creator_call; reflexivity
  | |- creator _ (bind _ _) =>
      apply creator_bind;
      [repeat first [apply inert_is_nil | inert_step]|intros ?]
  | |- creator _ (if ?b then _ else _) => destruct b
  | |- creator _ (match ?x with _ => _ end) => destruct x
  end.

Lemma creator_deserialize : forall s, creator Boolean (deserialize s).
Proof.
  intros s. unfold deserialize, DeserializeCiphertext, deserialize_with.
  repeat creator_step.
Qed.

Lemma creator_deserializeUint8 : forall s, creator Uint8 (deserializeUint8 s).
Proof.
  intros s. unfold deserializeUint8, Uint8Deserialize, deserialize_with.
  repeat creator_step.
Qed.

Lemma creator_EncryptBool client v : creator Boolean (EncryptBool client v).
Proof. unfold EncryptBool. repeat creator_step. Qed.

Lemma creator_EncryptUint8 client v : creator Uint8 (EncryptUint8 client v).
Proof. unfold EncryptUint8. repeat creator_step. Qed.

Lemma creator_EncryptUint8Public pub v : creator Uint8 (EncryptUint8Public pub v).
Proof. unfold EncryptUint8Public. repeat creator_step. Qed.

Lemma creator_gate2 g context s l r :
  (forall a b c, creates (g a b c) = Some Boolean) ->
  creator Boolean (gate2 g context s l r).
Proof.
  intros Hg. unfold gate2.
  repeat first [apply creator_call; apply Hg | creator_step].
Qed.

Lemma creator_ServerKey_Not s i : creator Boolean (ServerKey_Not s i).
Proof. unfold ServerKey_Not. repeat creator_step. Qed.

Lemma producer_fail f msg : producer f (fail msg).
Proof. intros st. exists []. cbn. by rewrite app_nil_r. Qed.

Lemma producer_bind {A} f (m : M A) (k : A -> M cptr) :
  inert m -> (forall a, producer f (k a)) -> producer f (bind m k).
Proof.
  intros Hm Hk st. destruct (Hm st) as (evs1 & Ht1 & Hh1 & Hc1).
  unfold bind. destruct (m st) as [[a|e|e] st1]; cbn in *; [|by eauto..].
  destruct (Hk a st1) as (evs2 & Ht2 & Hh2 & Hr2).
  exists (evs1 ++ evs2). split; [by rewrite Ht2, Ht1, app_assoc|].
  split; [congruence|].
  destruct (k a st1) as [[x|e|e] st2]; cbn in *; apply Forall_app; split; try done.
  eapply Forall_impl; [exact Hc1|]. by left.
Qed.

Lemma producer_call f c context :
  creates c = Some f ->
  producer f (r <- call c ;; do check (code r) context ;; ret (out_ptr r)).
Proof.
  intros Hc st. eexists. split; [|split].
  - unfold bind, call, check, fail, ret. cbn.
    destruct (code _ =? 0); cbn; reflexivity.
  - unfold bind, call, check, fail, ret. cbn. by destruct (code _ =? 0).
  - unfold bind, call, check, fail, ret. cbn.
    destruct (code (reply c (eng st)) =? 0) eqn:Hcode; cbn.
    + constructor; [|done]. cbn. rewrite Hc, Hcode. cbn.
      destruct (N.eqb _ 0); cbn; auto.
    + constructor; [|done]. cbn. by rewrite Hc, Hcode.
Qed.

Lemma producer_withServerKey f sk (fn : M cptr) :
  producer f fn -> producer f (withServerKey sk fn).
Proof.
  intros Hfn st.
  destruct (withServerKey_cases fn st sk) as [(r & -> & Hr)|(l & p & -> & Hl & Hp)].
  { exists []. cbn. rewrite app_nil_r. repeat split; try done.
    destruct r; [|done..]. destruct Hr. eauto. }
  rewrite (withServerKey_run _ _ _ _ Hl Hp). cbn zeta.
  destruct (code _ =? 0) eqn:Hc.
  - match goal with |- context [fn ?s] =>
      destruct (Hfn s) as (evs & Ht & Hh & Hr); destruct (fn s) as [r st1] end.
    cbn in *. eexists. split; [|split].
    + rewrite Ht, <- !app_assoc. reflexivity.
    + done.
    + assert (Hpre : forall q, Forall (fun ev => created ev = None \/ created ev = Some (f, q))
                [LockOSThread; Call (set_server_key p) (reply (set_server_key p) (eng st))])
        by (intros q; repeat constructor).
      assert (Hpost : forall q e, Forall (fun ev => created ev = None \/ created ev = Some (f, q))
                [Call unset_server_key (reply unset_server_key e); UnlockOSThread])
        by (intros q e; repeat constructor).
      destruct r as [q|e|e]; cbn.
      * apply (Forall_app _ [_; _]). split; [apply Hpre|].
        apply Forall_app. split; [done|apply Hpost].
      * apply only_null_created with (f := f).
        apply (Forall_app _ [_; _]). split; [apply Hpre|].
        apply Forall_app. split; [|apply Hpost].
        eapply Forall_impl; [exact Hr|]. by left.
      * apply only_null_created with (f := f).
        apply (Forall_app _ [_; _]). split; [apply Hpre|].
        apply Forall_app. split; [|apply Hpost].
        eapply Forall_impl; [exact Hr|]. by left.
  - eexists. split; [cbn; rewrite <- !app_assoc; reflexivity|].
    split; [done|]. cbn. repeat constructor.
Qed.

Lemma creator_new f (m : M cptr) :
  producer f m -> creator f (out <- m ;; new_obj out).
Proof.
  intros Hm st. destruct (Hm st) as (evs & Ht & Hh & Hr).
  exists evs. unfold bind, new_obj.
  destruct (m st) as [[p|e|e] st1]; cbn in *; [|done..].
  split; [done|]. exists p. by rewrite Hh.
Qed.

Lemma creator_uint8_binary g context l r :
  (forall a b, creates (g a b) = Some Uint8) ->
  creator Uint8 (uint8_binary g context l r).
Proof.
  intros Hg. unfold uint8_binary.
  apply creator_bind; [apply inert_is_nil|intros nl].
  apply creator_bind; [destruct nl; [apply inert_ret|apply inert_is_nil]|intros nr].
  destruct nr; [apply creator_fail|].
  apply creator_bind; [apply inert_defaultUint8ServerKey|intros sk].
  apply creator_new, producer_withServerKey.
  apply producer_bind; [apply inert_load|intros a].
  apply producer_bind; [apply inert_load|intros b].
  apply producer_call, Hg.
Qed.

(** *** The scope of a handle *)

Lemma close_with_run destroy context l st p :
  heap st !! l = Some p ->
  close_with destroy context (Some l) st =
  if N.eqb p 0 then (Ok tt, st) else
  let r := reply (destroy p) (eng st) in
  let tr := trace st ++ [Call (destroy p) r] in
  if code r =? 0
  then (Ok tt, mkState (after (destroy p) (eng st)) (<[l:=0%N]> (heap st)) (holder st) tr)
  else (Err (context +:+ ": tfhe error code " +:+ itoa (code r)),
        mkState (after (destroy p) (eng st)) (heap st) (holder st) tr).
Proof.
  intros Hp. unfold close_with, is_nil, bind, load, ret, call, check, store, fail.
  rewrite Hp. destruct (N.eqb p 0); [done|]. cbn. rewrite Hp.
  destruct (code _ =? 0); cbn; [|done]. by rewrite Hp.
Qed.

(** [x, err := create(); if err != nil { return }; defer x.Close(); rest] *)
Lemma scoped_block {A} f destroy context (create : M goptr) (rest : goptr -> M A) :
  (forall p r, destroys f p (Call (destroy p) r) = true) ->
  (forall p r, refuses p (Call (destroy p) r) = negb (code r =? 0)) ->
  (forall p, creates (destroy p) = None) ->
  creator f create -> (forall x, scoped (rest x)) ->
  scoped (x <- create ;; defer (close_with destroy context x) (rest x)).
Proof.
  intros Hdes Href Hcre Hcreate Hrest st.
  destruct (Hcreate st) as (evs1 & Ht1 & Hr1).
  unfold bind. destruct (create st) as [[x|e|e] st1]; cbn [fst snd] in *.
  2,3: destruct Hr1 as [Hh1 Hc1]; exists evs1, []; rewrite app_nil_r;
       repeat split; try done; by apply all_released_inert.
  destruct Hr1 as (p & -> & Hh1 & Hc1).
  unfold defer. destruct (Hrest (Some (length (heap st))) st1)
    as (evs2 & news & Ht2 & Hh2 & Hrel2 & Hset2).
  destruct (rest (Some (length (heap st))) st1) as [r st2]; cbn [fst snd] in *.
  assert (Hp : heap st2 !! length (heap st) = Some p).
  { rewrite Hh2, Hh1, <- app_assoc. by apply list_lookup_middle. }
  rewrite (close_with_run _ _ _ _ _ Hp).
  destruct (N.eqb p 0) eqn:Hnull.
  { apply N.eqb_eq in Hnull. subst p. destruct r; cbn.
    all: exists (evs1 ++ evs2), ([0%N] ++ news); split; [by rewrite Ht2, Ht1, app_assoc|].
    all: split; [by rewrite Hh2, Hh1, app_assoc|]; split.
    all: first [ apply all_released_app; [|done];
                 by apply all_released_inert, only_null_created with (f := f)
               | cbn; by apply forallb_settled_app_r ]. }
  cbn zeta. generalize (reply (destroy p) (eng st2)). intros r3.
  pose (ev := Call (destroy p) r3). fold ev.
  assert (Hrel : all_released (evs1 ++ evs2 ++ [ev]) = true).
  { apply all_released_handed with (f := f) (p := p); [done| |].
    - apply existsb_app_r. unfold ev. cbn [existsb]. by rewrite Hdes.
    - apply all_released_app; [done|]. unfold ev. cbn. by rewrite Hcre. }
  assert (Hrest2 : forallb (settled (evs1 ++ evs2 ++ [ev])) news = true).
  { rewrite app_assoc. by apply forallb_settled_app_l, forallb_settled_app_r. }
  destruct (code _ =? 0) eqn:Hcode.
  - assert (Hfin : exists evs news0,
        trace st2 ++ [ev] = trace st ++ evs /\
        <[length (heap st):=0%N]> (heap st2) = heap st ++ news0 /\
        all_released evs = true /\ forallb (settled evs) news0 = true).
    { exists (evs1 ++ evs2 ++ [ev]), ([0%N] ++ news).
      split; [by rewrite Ht2, Ht1, <- !app_assoc|]. split.
      { rewrite Hh2, Hh1, <- !app_assoc.
        rewrite insert_app_r_alt by lia. by rewrite Nat.sub_diag. }
      split; [done|]. cbn. exact Hrest2. }
    by destruct r.
  - assert (Hfin : exists evs news0,
        trace st2 ++ [ev] = trace st ++ evs /\
        heap st2 = heap st ++ news0 /\
        all_released evs = true /\ forallb (settled evs) news0 = true).
    { exists (evs1 ++ evs2 ++ [ev]), ([p] ++ news).
      split; [by rewrite Ht2, Ht1, <- !app_assoc|].
      split; [by rewrite Hh2, Hh1, <- !app_assoc|].
      split; [done|]. cbn. apply andb_true_iff. split; [|exact Hrest2].
      unfold settled. apply orb_true_iff. right.
      apply existsb_app_r, existsb_app_r. unfold ev. cbn [existsb].
      by rewrite Href, Hcode. }
    by destruct r.
Qed.

Lemma scoped_boolean {A} (create : M goptr) (rest : goptr -> M A) :
  creator Boolean create -> (forall x, scoped (rest x)) ->
  scoped (x <- create ;; defer (Ciphertext_Close x) (rest x)).
Proof.
  apply scoped_block; try done.
  - intros p r. cbn. apply N.eqb_refl.
  - intros p r. cbn. by rewrite N.eqb_refl.
Qed.

Lemma scoped_uint8 {A} (create : M goptr) (rest : goptr -> M A) :
  creator Uint8 create -> (forall x, scoped (rest x)) ->
  scoped (x <- create ;; defer (Uint8Ciphertext_Close x) (rest x)).
Proof.
  apply scoped_block; try done.
  - intros p r. cbn. apply N.eqb_refl.
  - intros p r. cbn. by rewrite N.eqb_refl.
Qed.

Lemma binaryOp_scoped lhs rhs op :
  (forall l r, creator Boolean (op l r)) -> scoped (binaryOp lhs rhs op).
Proof.
  intros Hop. unfold binaryOp.
  apply scoped_boolean; [apply creator_deserialize|intros l].
  apply scoped_boolean; [apply creator_deserialize|intros r].
  apply scoped_boolean; [apply Hop|intros out].
  apply inert_scoped, inert_serializeToBase64.
Qed.

Lemma binaryUint8_scoped lhs rhs op :
  (forall l r, creator Uint8 (op l r)) -> scoped (binaryUint8 lhs rhs op).
Proof.
  intros Hop. unfold binaryUint8.
  apply scoped_uint8; [apply creator_deserializeUint8|intros l].
  apply scoped_uint8; [apply creator_deserializeUint8|intros r].
  apply scoped_uint8; [apply Hop|intros out].
  apply inert_scoped, inert_serializeUint8ToBase64.
Qed.

(** The part of [binaryUint8] that runs once the first operand is
    deserialized only adds wrappers. *)
Lemma binaryUint8_scoped_tail rhs op (x : goptr) st :
  (forall l r, creator Uint8 (op l r)) ->
  exists news,
    heap ((y <- deserializeUint8 rhs ;;
           defer (Uint8Ciphertext_Close y)
             (out <- op x y ;;
              defer (Uint8Ciphertext_Close out) (serializeUint8ToBase64 out))) st).2
    = heap st ++ news.
Proof.
  intros Hop.
  assert (Hs : scoped (y <- deserializeUint8 rhs ;;
           defer (Uint8Ciphertext_Close y)
             (out <- op x y ;;
              defer (Uint8Ciphertext_Close out) (serializeUint8ToBase64 out)))).
  { apply scoped_uint8; [apply creator_deserializeUint8|intros r].
    apply scoped_uint8; [apply Hop|intros out].
    apply inert_scoped, inert_serializeUint8ToBase64. }
  destruct (Hs st) as (evs & news & _ & Hh & _). eauto.
Qed.

(** C9.  For every engine, every state, every service value and every
    input, each of the twelve service operations leaves the wrappers that
    existed before the call untouched, hands every ciphertext that the
    engine created during the call (deserialized operands, the encrypted
    value, the result) to the engine's destroy before it returns, and
    returns with every wrapper it allocated either cleared or refused by
    the engine's destroy.  This holds on every exit path, error returns
    and panics included. *)
Theorem handles_released_on_every_path
    (bs : BooleanService) (us : Uint8Service) (lhs rhs : string) (b : bool) (v : Z) :
  scoped (EncryptBoolToBase64 bs b) /\
  scoped (DecryptBoolFromBase64 bs lhs) /\
  scoped (AndBase64 bs lhs rhs) /\
  scoped (OrBase64 bs lhs rhs) /\
  scoped (XorBase64 bs lhs rhs) /\
  scoped (NotBase64 bs lhs) /\
  scoped (Uint8Service_Encrypt us v) /\
  scoped (Uint8Service_EncryptWithPublic us v) /\
  scoped (Uint8Service_Decrypt us lhs) /\
  scoped (Uint8Service_Add us lhs rhs) /\
  scoped (Uint8Service_BitAnd us lhs rhs) /\
  scoped (Uint8Service_BitXor us lhs rhs).
Proof.
  split.
  { apply scoped_boolean; [apply creator_EncryptBool|intros ct].
    apply inert_scoped, inert_serializeToBase64. }
  split.
  { apply scoped_boolean; [apply creator_deserialize|intros ct].
    apply inert_scoped, inert_DecryptBool. }
  split; [apply binaryOp_scoped; intros; by apply creator_gate2|].
  split; [apply binaryOp_scoped; intros; by apply creator_gate2|].
  split; [apply binaryOp_scoped; intros; by apply creator_gate2|].
  split.
  { apply scoped_boolean; [apply creator_deserialize|intros ct].
    apply scoped_boolean; [apply creator_ServerKey_Not|intros out].
    apply inert_scoped, inert_serializeToBase64. }
  split.
  { apply scoped_uint8; [apply creator_EncryptUint8|intros ct].
    apply inert_scoped, inert_serializeUint8ToBase64. }
  split.
  { apply scoped_uint8; [apply creator_EncryptUint8Public|intros ct].
    apply inert_scoped, inert_serializeUint8ToBase64. }
  split.
  { apply scoped_uint8; [apply creator_deserializeUint8|intros ct].
    apply inert_scoped, inert_DecryptUint8. }
  split; [apply binaryUint8_scoped; intros; by apply creator_uint8_binary|].
  split; apply binaryUint8_scoped; intros; by apply creator_uint8_binary.
Qed.

(** ** Which key is bound *)

Lemma bind_calls_app evs1 evs2 :
  bind_calls (evs1 ++ evs2) = bind_calls evs1 ++ bind_calls evs2.
Proof.
  induction evs1 as [|[| |c r] evs1 IH]; cbn; try done.
  destruct c; cbn; by rewrite ?IH.
Qed.

(** Code that makes no ambient call and leaves the heap and the holder
    alone. *)
Lemma boh_leaf {A} (m : M A) :
  (forall st, exists evs, trace (m st).2 = trace st ++ evs /\
     holder (m st).2 = holder st /\ heap (m st).2 = heap st /\
     bind_calls evs = []) ->
  binds_only_holder m.
Proof.
  intros H st _. destruct (H st) as (evs & Ht & Hh & Hp & Hb).
  exists evs. rewrite Hp, Hb. repeat split; auto.
Qed.

Lemma boh_pure {A} (m : M A) : (forall st, (m st).2 = st) -> binds_only_holder m.
Proof.
  intros H. apply boh_leaf. intros st. exists []. by rewrite H, app_nil_r.
Qed.

Lemma boh_call c : (forall p, c <> set_server_key p) -> binds_only_holder (call c).
Proof.
  intros Hc. apply boh_leaf. intros st. eexists. split; [reflexivity|].
  repeat split. cbn. destruct c; try done. by destruct (Hc sk).
Qed.

Lemma boh_load c : binds_only_holder (load c).
Proof.
  apply boh_pure. intros st. unfold load.
  destruct c as [l|]; [|done]. by destruct (heap st !! l).
Qed.

Lemma boh_new_obj p : binds_only_holder (new_obj p).
Proof.
  intros st Hv. exists []. cbn. rewrite app_nil_r, length_app. cbn.
  repeat split; try done; [lia|].
  intros l Hl. left. rewrite Hl in Hv. cbn in Hv. by apply lookup_app_l.
Qed.

Lemma boh_store c p : p = 0%N -> binds_only_holder (store c p).
Proof.
  intros -> st Hv. exists []. unfold store.
  destruct c as [x|]; [|cbn; rewrite app_nil_r; repeat split; auto].
  destruct (heap st !! x) eqn:Hx; cbn; rewrite app_nil_r; repeat split; auto.
  - by rewrite length_insert.
  - intros l Hl. destruct (decide (x = l)) as [->|Hne].
    + right. apply list_lookup_insert_eq. by eapply lookup_lt_Some.
    + left. by apply list_lookup_insert_ne.
Qed.

Lemma boh_bind {A B} (m : M A) (k : A -> M B) :
  binds_only_holder m -> (forall a, binds_only_holder (k a)) ->
  binds_only_holder (bind m k).
Proof.
  intros Hm Hk st Hv. destruct (Hm st Hv) as (evs1 & Ht1 & Hh1 & Hl1 & Hp1 & Hb1).
  unfold bind. destruct (m st) as [[a|e|e] st1]; cbn [fst snd] in *; [|by eauto 10..].
  assert (Hv1 : valid_handle st1 (holder st1)).
  { rewrite Hh1. destruct (holder st); [|done]. cbn in *. lia. }
  destruct (Hk a st1 Hv1) as (evs2 & Ht2 & Hh2 & Hl2 & Hp2 & Hb2).
  exists (evs1 ++ evs2). split; [by rewrite Ht2, Ht1, app_assoc|].
  split; [congruence|]. split; [lia|]. split.
  - intros l Hl. rewrite <- Hh1 in Hl. specialize (Hp2 l Hl).
    rewrite Hh1 in Hl. specialize (Hp1 l Hl).
    destruct Hp2 as [->| ->]; auto.
  - rewrite bind_calls_app. apply Forall_app. split; [done|].
    eapply Forall_impl; [exact Hb2|]. intros p [Hp0 (l & Hl & Hlp)].
    split; [done|]. exists l. rewrite <- Hh1. split; [done|].
    rewrite Hh1 in Hl. destruct (Hp1 l Hl) as [<-|Hz]; [done|].
    rewrite Hz in Hlp. by injection Hlp as <-.
Qed.

Lemma boh_defer {A B} (d : M B) (body : M A) :
  binds_only_holder d -> binds_only_holder body -> binds_only_holder (defer d body).
Proof.
  intros Hd Hb st Hv. destruct (Hb st Hv) as (evs1 & Ht1 & Hh1 & Hl1 & Hp1 & Hb1).
  unfold defer. destruct (body st) as [r st1]; cbn [fst snd] in *.
  assert (Hv1 : valid_handle st1 (holder st1)).
  { rewrite Hh1. destruct (holder st); [|done]. cbn in *. lia. }
  destruct (Hd st1 Hv1) as (evs2 & Ht2 & Hh2 & Hl2 & Hp2 & Hb2).
  assert (Hfin : exists evs,
    trace (d st1).2 = trace st ++ evs /\
    holder (d st1).2 = holder st /\
    (length (heap st) <= length (heap (d st1).2))%nat /\
    (forall l, holder st = Some l ->
       heap (d st1).2 !! l = heap st !! l \/ heap (d st1).2 !! l = Some 0%N) /\
    Forall (fun p => p <> 0%N /\ holder_key st p) (bind_calls evs)).
  { exists (evs1 ++ evs2). split; [by rewrite Ht2, Ht1, app_assoc|].
    split; [congruence|]. split; [lia|]. split.
    - intros l Hl. rewrite <- Hh1 in Hl. specialize (Hp2 l Hl).
      rewrite Hh1 in Hl. specialize (Hp1 l Hl).
      destruct Hp2 as [->| ->]; auto.
    - rewrite bind_calls_app. apply Forall_app. split; [done|].
      eapply Forall_impl; [exact Hb2|]. intros p [Hp0 (l & Hl & Hlp)].
      split; [done|]. exists l. rewrite <- Hh1. split; [done|].
      rewrite Hh1 in Hl. destruct (Hp1 l Hl) as [<-|Hz]; [done|].
      rewrite Hz in Hlp. by injection Hlp as <-. }
  by destruct (d st1) as [[?|?|?] st2].
Qed.

Ltac boh_step :=
  match goal with
  | |- binds_only_holder (bind _ _) => apply boh_bind; [|intros ?]
  | |- binds_only_holder (defer _ _) => apply boh_defer
  | |- binds_only_holder (ret _) => by apply boh_pure
  | |- binds_only_holder (fail _) => by apply boh_pure
  | |- binds_only_holder (panic _) => by apply boh_pure
  | |- binds_only_holder defaultUint8ServerKey => by apply boh_pure
  | |- binds_only_holder (load _) => apply boh_load
  | |- binds_only_holder (store _ _) => by apply boh_store
  | |- binds_only_holder (new_obj _) => apply boh_new_obj
  | |- binds_only_holder (call _) => by apply boh_call
  | |- binds_only_holder (if ?b then _ else _) => destruct b
  | |- binds_only_holder (match ?x with _ => _ end) => destruct x
  end.

Lemma boh_is_nil c : binds_only_holder (is_nil c).
Proof. unfold is_nil. repeat boh_step. Qed.

Lemma boh_check c context : binds_only_holder (check c context).
Proof. unfold check. repeat boh_step. Qed.

Lemma boh_Uint8Ciphertext_Close c : binds_only_holder (Uint8Ciphertext_Close c).
Proof.
  unfold Uint8Ciphertext_Close, close_with.
  repeat first [apply boh_is_nil | apply boh_check | boh_step].
Qed.

Lemma boh_deserializeUint8 s : binds_only_holder (deserializeUint8 s).
Proof.
  unfold deserializeUint8, Uint8Deserialize, deserialize_with.
  repeat first [apply boh_check | boh_step].
Qed.

Lemma boh_serializeUint8ToBase64 c : binds_only_holder (serializeUint8ToBase64 c).
Proof.
  unfold serializeUint8ToBase64, Uint8Serialize, serialize_with, GoBytes.
  repeat first [apply boh_is_nil | apply boh_check | boh_step].
Qed.

(** The bound section binds the key it is given. *)
Lemma boh_withServerKey {A} (fn : M A) :
  (forall st, exists evs, trace (fn st).2 = trace st ++ evs /\
     holder (fn st).2 = holder st /\ heap (fn st).2 = heap st /\
     bind_calls evs = []) ->
  forall st, valid_handle st (holder st) ->
  exists evs,
    trace (withServerKey (holder st) fn st).2 = trace st ++ evs /\
    holder (withServerKey (holder st) fn st).2 = holder st /\
    heap (withServerKey (holder st) fn st).2 = heap st /\
    Forall (fun p => p <> 0%N /\ holder_key st p) (bind_calls evs).
Proof.
  intros Hfn st Hv.
  destruct (withServerKey_cases fn st (holder st))
    as [(r & -> & _)|(l & p & Hhl & Hl & Hp)].
  { exists []. cbn. by rewrite app_nil_r. }
  rewrite Hhl, (withServerKey_run _ _ _ _ Hl Hp). cbn zeta.
  assert (Hkey : p <> 0%N /\ holder_key st p) by (split; [done|by exists l]).
  destruct (code _ =? 0).
  - match goal with |- context [fn ?s] =>
      destruct (Hfn s) as (evs & Ht & Hh & Hhp & Hb); destruct (fn s) as [r st1] end.
    cbn [fst snd trace heap holder eng] in *. eexists. split; [|split; [|split]].
    + rewrite Ht, <- !app_assoc. reflexivity.
    + congruence.
    + done.
    + cbn. rewrite bind_calls_app, Hb. cbn. by constructor.
  - eexists. split; [cbn; rewrite <- !app_assoc; reflexivity|].
    cbn. repeat split; try done. by constructor.
Qed.

Lemma boh_uint8_binary f context l r :
  (forall a b p, f a b <> set_server_key p) ->
  binds_only_holder (uint8_binary f context l r).
Proof.
  intros Hf. unfold uint8_binary.
  apply boh_bind; [apply boh_is_nil|intros nl].
  apply boh_bind; [destruct nl; [by apply boh_pure|apply boh_is_nil]|intros nr].
  destruct nr; [by apply boh_pure|].
  unfold defaultUint8ServerKey, bind at 1.
  apply boh_bind; [|intros out; apply boh_new_obj].
  intros st Hv.
  destruct (boh_withServerKey
    (l0 <- load l ;; r0 <- load r ;; res <- call (f l0 r0) ;;
     do check (code res) context ;; ret (out_ptr res))) with (st := st)
    as (evs & Ht & Hh & Hp & Hb); [|done|].
  { clear st Hv. intros st.
    unfold bind, load, call, check, ret, fail.
    destruct l as [x|]; [|exists []; cbn; by rewrite app_nil_r].
    destruct (heap st !! x); [|exists []; cbn; by rewrite app_nil_r].
    destruct r as [y|]; [|exists []; cbn; by rewrite app_nil_r].
    destruct (heap st !! y); [|exists []; cbn; by rewrite app_nil_r].
    cbn. eexists.
    destruct (code _ =? 0); cbn; (split; [reflexivity|]); repeat split;
      cbn; match goal with |- context [f ?a ?b] =>
        pose proof (Hf a b) as Hne; destruct (f a b); try done;
        by destruct (Hne sk) end. }
  exists evs. rewrite Hp. repeat split; auto.
Qed.

Lemma boh_binaryUint8 lhs rhs op :
  (forall l r, binds_only_holder (op l r)) ->
  binds_only_holder (binaryUint8 lhs rhs op).
Proof.
  intros Hop. unfold binaryUint8.
  repeat first [apply boh_deserializeUint8 | apply boh_Uint8Ciphertext_Close
               | apply boh_serializeUint8ToBase64 | apply Hop | boh_step].
Qed.

Lemma GenerateUint8Keys_holder st ks st' :
  GenerateUint8Keys st = (Ok ks, st') -> holder st' = snd ks.
Proof.
  unfold GenerateUint8Keys, bind, call, check, new_obj, setServerKeyHolder, ret, fail.
  cbn. repeat (destruct (code _ =? 0); cbn; [|done]).
  intros [= <- <-]. done.
Qed.

Lemma NewUint8PublicKey_holder st c pk st' :
  NewUint8PublicKey c st = (Ok pk, st') -> holder st' = holder st.
Proof.
  unfold NewUint8PublicKey, is_nil, bind, load, call, check, new_obj, ret, fail.
  destruct c as [l|]; [|done]. mrun; try done. by intros [= <- <-].
Qed.

(** Whatever the state of the process, every integer binary operation,
    at the service and at the binding level, passes to [set_server_key]
    nothing but the key that the process-wide holder contains when the
    operation starts, and leaves the holder as it is. *)
Lemma binary_ops_bind_only_the_holder (s : Uint8Service) (lhs rhs : string) (l r : goptr) :
  binds_only_holder (Uint8Service_Add s lhs rhs) /\
  binds_only_holder (Uint8Service_BitAnd s lhs rhs) /\
  binds_only_holder (Uint8Service_BitXor s lhs rhs) /\
  binds_only_holder (Uint8Add l r) /\
  binds_only_holder (Uint8BitAnd l r) /\
  binds_only_holder (Uint8BitXor l r).
Proof.
  repeat split;
    try first [ apply boh_binaryUint8; intros; by apply boh_uint8_binary
              | by apply boh_uint8_binary ].
Qed.

(** ** Operations after the server key has been closed *)

Lemma close_with_holder destroy context c st :
  holder (close_with destroy context c st).2 = holder st.
Proof.
  unfold close_with, is_nil, bind, load, call, check, store, ret, fail.
  destruct c as [l|]; [|done]. mrun; done.
Qed.

Lemma close_with_length destroy context c st :
  length (heap (close_with destroy context c st).2) = length (heap st).
Proof.
  unfold close_with, is_nil, bind, load, call, check, store, ret, fail.
  destruct c as [l|]; [|done]. mrun; try done. apply length_insert.
Qed.

Lemma Uint8ServerKey_Close_holder c st :
  holder (Uint8ServerKey_Close c st).2 = holder st.
Proof.
  unfold Uint8ServerKey_Close, is_nil, bind, load, call, check, store, ret, fail.
  destruct c as [l|]; [|done]. mrun; done.
Qed.

Lemma observe_ok (m : M unit) st e st' :
  observe m st = (Ok e, st') ->
  st' = (m st).2 /\ (e = None -> m st = (Ok tt, st')).
Proof.
  unfold observe. destruct (m st) as [[[]|?|?] st1]; intros [= <- <-]; done.
Qed.

(** A [Close] of the service that reports no error has cleared the
    wrapper of its server key, and leaves the holder pointing to it. *)
Lemma Uint8Service_Close_clears st s s' st' :
  Uint8Service_Close s st = (Ok (s', None), st') ->
  nil_handle st' (us_server s) /\ holder st' = holder st.
Proof.
  destruct s as [cl sv pb].
  unfold Uint8Service_Close, bind, observe, ret.
  cbn [us_public us_client us_server fst snd].
  destruct pb as [p|], cl as [c|], sv as [v|];
    cbn [us_public us_client us_server fst snd];
    repeat match goal with
    | |- context [Uint8PublicKey_Close ?x ?s0] =>
        pose proof (close_with_holder public_key_destroy
                      "destroy public key" x s0
                    : holder (Uint8PublicKey_Close x s0).2 = holder s0);
        destruct (Uint8PublicKey_Close x s0) as [[[]|?|?] ?];
        cbn [us_public us_client us_server fst snd] in *
    | |- context [Uint8ClientKey_Close ?x ?s0] =>
        pose proof (close_with_holder client_key_destroy
                      "destroy client key" x s0
                    : holder (Uint8ClientKey_Close x s0).2 = holder s0);
        destruct (Uint8ClientKey_Close x s0) as [[[]|?|?] ?];
        cbn [us_public us_client us_server fst snd] in *
    | |- context [Uint8ServerKey_Close ?x ?s0] =>
        pose proof (Uint8ServerKey_Close_holder x s0);
        pose proof (Uint8ServerKey_Close_again s0 x);
        destruct (Uint8ServerKey_Close x s0) as [[[]|?|?] ?];
        cbn [us_public us_client us_server fst snd] in *
    end;
    try discriminate; intros [= <- <-]; split; try done; try congruence; eauto.
Qed.

Lemma uint8_binary_closed f context st x y :
  nil_handle st (holder st) ->
  valid_handle st x -> valid_handle st y ->
  ~ nil_handle st x -> ~ nil_handle st y ->
  uint8_binary f context x y st = (Err "server key is nil", st).
Proof.
  intros Hh Hx Hy Hnx Hny. unfold uint8_binary.
  destruct (is_nil_valid _ _ Hx) as (b & Hb & Hbt & _).
  rewrite (bind_ok _ _ _ _ _ Hb). destruct b; [by destruct Hnx; apply Hbt|].
  destruct (is_nil_valid _ _ Hy) as (b' & Hb' & Hbt' & _).
  rewrite (bind_ok _ _ _ _ _ Hb'). destruct b'; [by destruct Hny; apply Hbt'|].
  unfold defaultUint8ServerKey, bind at 1.
  by rewrite (bind_err _ _ _ _ _ (withServerKey_nil _ _ _ Hh)).
Qed.

Lemma deserialize_with_cases de context data st :
  (exists e st', deserialize_with de context data st = (Err e, st') /\
     heap st' = heap st /\ holder st' = holder st) \/
  (exists p st', deserialize_with de context data st = (Ok (Some (length (heap st))), st') /\
     heap st' = heap st ++ [p] /\ holder st' = holder st).
Proof.
  unfold deserialize_with, bind, call, check, new_obj, ret, fail.
  destruct (length data =? 0)%nat; [left; by eauto|]. cbn.
  destruct (code _ =? 0); cbn; [right|left]; by eauto 10.
Qed.

Lemma deserializeUint8_cases s st :
  (exists e st', deserializeUint8 s st = (Err e, st') /\
     heap st' = heap st /\ holder st' = holder st) \/
  (exists p st', deserializeUint8 s st = (Ok (Some (length (heap st))), st') /\
     heap st' = heap st ++ [p] /\ holder st' = holder st).
Proof.
  unfold deserializeUint8. destruct (String.eqb s ""); [left; by eauto|].
  destruct (DecodeString s) as [raw [err|]]; [left; by eauto|].
  apply deserialize_with_cases.
Qed.

Lemma defer_close_result {A} destroy context x (body : M A) st :
  valid_handle (body st).2 x ->
  (defer (close_with destroy context x) body st).1 = (body st).1.
Proof.
  intros Hv. unfold defer. destruct (body st) as [r st1]. cbn in Hv.
  pose proof (close_with_no_panic destroy context _ _ Hv) as Hnp.
  by destruct (close_with destroy context x st1) as [[?|?|?] st2].
Qed.

Lemma nil_handle_grow st st' c q :
  valid_handle st c -> heap st' = heap st ++ q ->
  (nil_handle st' c <-> nil_handle st c) /\ valid_handle st' c.
Proof.
  intros Hv Hh. destruct c as [l|]; [|done]. cbn in *.
  rewrite Hh, length_app. split; [|lia]. by rewrite lookup_app_l.
Qed.

(** The body of [binaryUint8] once both operands are deserialized. *)
Lemma binaryUint8_tail f context st x y msg :
  uint8_binary f context x y st = (Err msg, st) ->
  valid_handle st y ->
  (defer (Uint8Ciphertext_Close y)
     (out <- uint8_binary f context x y ;;
      defer (Uint8Ciphertext_Close out) (serializeUint8ToBase64 out)) st).1 = Err msg.
Proof.
  intros Hop Hy. unfold Uint8Ciphertext_Close.
  rewrite defer_close_result; by rewrite (bind_err _ _ _ _ _ Hop).
Qed.

Lemma binaryUint8_closed f context lhs rhs st :
  (forall a b, creates (f a b) = Some Uint8) ->
  nil_handle st (holder st) ->
  exists msg,
    (binaryUint8 lhs rhs (uint8_binary f context) st).1 = Err msg /\
    (forall x st1 y st2,
       deserializeUint8 lhs st = (Ok x, st1) -> ~ nil_handle st1 x ->
       deserializeUint8 rhs st1 = (Ok y, st2) -> ~ nil_handle st2 y ->
       msg = "server key is nil").
Proof.
  intros Hf Hh. pose proof (nil_handle_valid _ _ Hh) as Hhv.
  unfold binaryUint8.
  destruct (deserializeUint8_cases lhs st)
    as [(e & st1 & Hl & _)|(p & st1 & Hl & Hheap1 & Hhold1)].
  { rewrite (bind_err _ _ _ _ _ Hl). exists e. split; [done|]. intros. congruence. }
  rewrite (bind_ok _ _ _ _ _ Hl).
  set (x := Some (length (heap st))) in *.
  set (body1 := bind (deserializeUint8 rhs) _).
  assert (Hx1 : valid_handle st1 x).
  { subst x. cbn. rewrite Hheap1, length_app. cbn. lia. }
  assert (Hh1 : nil_handle st1 (holder st1) /\ valid_handle st1 (holder st1)).
  { rewrite Hhold1. destruct (nil_handle_grow st st1 (holder st) [p] Hhv Hheap1).
    split; [|done]. tauto. }
  destruct Hh1 as [Hh1 Hhv1].
  assert (Hxs : valid_handle (body1 st1).2 x).
  { destruct (binaryUint8_scoped_tail rhs (uint8_binary f context) x st1)
      as (news & Hn); [intros; by apply creator_uint8_binary|].
    subst x body1. cbn in *. rewrite Hn, length_app. lia. }
  unfold Uint8Ciphertext_Close at 1. rewrite (defer_close_result _ _ _ _ _ Hxs).
  subst body1.
  destruct (deserializeUint8_cases rhs st1)
    as [(e & st2 & Hr & _)|(q & st2 & Hr & Hheap2 & Hhold2)].
  { rewrite (bind_err _ _ _ _ _ Hr). exists e. split; [done|]. intros; congruence. }
  rewrite (bind_ok _ _ _ _ _ Hr).
  set (y := Some (length (heap st1))) in *.
  assert (Hy2 : valid_handle st2 y).
  { subst y. cbn. rewrite Hheap2, length_app. cbn. lia. }
  destruct (nil_handle_grow st1 st2 x [q] Hx1 Hheap2) as [Hxn Hx2].
  assert (Hh2 : nil_handle st2 (holder st2)).
  { rewrite Hhold2. by apply (nil_handle_grow st1 st2 (holder st1) [q] Hhv1 Hheap2). }
  destruct (uint8_binary_unbound f context st2 x y Hh2 Hx2 Hy2) as (msg & Hmsg & Hop).
  rewrite (binaryUint8_tail _ _ _ _ _ _ Hop Hy2). exists msg. split; [done|].
  intros x' st1' y' st2' Hl' Hnx Hr' Hny.
  rewrite Hl in Hl'. injection Hl' as <- <-.
  rewrite Hr in Hr'. injection Hr' as <- <-.
  assert (Hop' := uint8_binary_closed f context st2 x y Hh2 Hx2 Hy2).
  rewrite Hop' in Hop; [congruence| |done]. tauto.
Qed.

(** C10 (amended).  A [Close] of the integer service that reports no
    error, or of the server key in the holder, clears the pointer of
    that key's wrapper while the process-wide holder keeps pointing to
    the wrapper.  In every state in which the holder's key is Nil, each
    integer binary operation returns an error and never panics.  At the
    binding level the error is one of the Nil-handle errors, the state
    is untouched (no engine call), and with two non-Nil operands the
    error is ["server key is nil"].  At the service level the operands
    are deserialized first, so the error is ["server key is nil"]
    whenever both operands deserialize to non-Nil handles. *)
Theorem closed_key_fails_operations :
  (forall st s s' st',
     Uint8Service_Close s st = (Ok (s', None), st') ->
     us_server s = holder st -> nil_handle st' (holder st')) /\
  (forall st st',
     Uint8ServerKey_Close (holder st) st = (Ok tt, st') ->
     nil_handle st' (holder st')) /\
  (forall st l r,
     nil_handle st (holder st) -> valid_handle st l -> valid_handle st r ->
     (fails_fast (Uint8Add l r) st /\ fails_fast (Uint8BitAnd l r) st /\
      fails_fast (Uint8BitXor l r) st) /\
     (~ nil_handle st l -> ~ nil_handle st r ->
      Uint8Add l r st = (Err "server key is nil", st) /\
      Uint8BitAnd l r st = (Err "server key is nil", st) /\
      Uint8BitXor l r st = (Err "server key is nil", st))) /\
  (forall st s lhs rhs op,
     nil_handle st (holder st) ->
     In op [Uint8Service_Add; Uint8Service_BitAnd; Uint8Service_BitXor] ->
     is_err (op s lhs rhs st).1 /\
     (forall x st1 y st2,
        deserializeUint8 lhs st = (Ok x, st1) -> ~ nil_handle st1 x ->
        deserializeUint8 rhs st1 = (Ok y, st2) -> ~ nil_handle st2 y ->
        (op s lhs rhs st).1 = Err "server key is nil")).
Proof.
  split; [|split; [|split]].
  - intros st s s' st' Hc Hs.
    destruct (Uint8Service_Close_clears _ _ _ _ Hc) as [Hn Hh].
    by rewrite Hh, <- Hs.
  - intros st st' Hc.
    pose proof (Uint8ServerKey_Close_holder (holder st) st) as Hh.
    rewrite Hc in Hh. cbn in Hh. rewrite Hh.
    by eapply Uint8ServerKey_Close_again.
  - intros st l r Hh Hl Hr. split.
    + repeat split; by apply uint8_binary_unbound.
    + intros Hnl Hnr. repeat split; by apply uint8_binary_closed.
  - intros st s lhs rhs op Hh Hop. cbn [In] in Hop.
    assert (Hall : forall f context,
      (forall a b, creates (f a b) = Some Uint8) ->
      is_err (binaryUint8 lhs rhs (uint8_binary f context) st).1 /\
      (forall x st1 y st2,
         deserializeUint8 lhs st = (Ok x, st1) -> ~ nil_handle st1 x ->
         deserializeUint8 rhs st1 = (Ok y, st2) -> ~ nil_handle st2 y ->
         (binaryUint8 lhs rhs (uint8_binary f context) st).1 = Err "server key is nil")).
    { intros f context Hf.
      destruct (binaryUint8_closed f context lhs rhs st Hf Hh) as (msg & -> & Hmsg).
      split; [done|]. intros x st1 y st2 H1 H2 H3 H4.
      by rewrite (Hmsg x st1 y st2 H1 H2 H3 H4). }
    destruct Hop as [<-|[<-|[<-|[]]]]; by apply Hall.
Qed.

(** ** Correctness against the engine's contract *)

(** ** Operations that stay away from the ambient key *)

Lemma detached_pure {A} (m : M A) : (forall st, (m st).2 = st) -> detached m.
Proof.
  intros H st. rewrite H. split; [done|]. exists []. by rewrite app_nil_r.
Qed.

Lemma detached_heap {A} (m : M A) :
  (forall st, trace (m st).2 = trace st /\ holder (m st).2 = holder st) ->
  detached m.
Proof.
  intros H st. destruct (H st) as [Ht Hh]. split; [done|].
  exists []. by rewrite Ht, app_nil_r.
Qed.

Lemma detached_load c : detached (load c).
Proof.
  apply detached_pure. intros st. unfold load.
  destruct c as [l|]; [|done]. by destruct (heap st !! l).
Qed.

Lemma detached_store c p : detached (store c p).
Proof.
  apply detached_heap. intros st. unfold store.
  destruct c as [l|]; [|done]. by destruct (heap st !! l).
Qed.

Lemma detached_call c :
  ambient c = false -> needs_key c = false -> detached (call c).
Proof.
  intros Ha Hn st. split; [done|]. eexists. split; [reflexivity|].
  cbn. by rewrite Ha, Hn.
Qed.

Lemma detached_bind {A B} (m : M A) (k : A -> M B) :
  detached m -> (forall a, detached (k a)) -> detached (bind m k).
Proof.
  intros Hm Hk st. destruct (Hm st) as (Hh1 & evs1 & Ht1 & Hr1).
  unfold bind. destruct (m st) as [[a|e|e] st1]; cbn in *; [|by eauto..].
  destruct (Hk a st1) as (Hh2 & evs2 & Ht2 & Hr2).
  split; [congruence|]. exists (evs1 ++ evs2). split.
  - by rewrite Ht2, Ht1, app_assoc.
  - by rewrite forallb_app, Hr1, Hr2.
Qed.

Lemma detached_defer {A B} (d : M B) (body : M A) :
  detached d -> detached body -> detached (defer d body).
Proof.
  intros Hd Hb st. destruct (Hb st) as (Hh1 & evs1 & Ht1 & Hr1).
  unfold defer. destruct (body st) as [r st1]; cbn in *.
  destruct (Hd st1) as (Hh2 & evs2 & Ht2 & Hr2).
  destruct (d st1) as [[?|?|?] st2]; cbn in *;
    (split; [congruence|]; exists (evs1 ++ evs2); split;
      [by rewrite Ht2, Ht1, app_assoc|by rewrite forallb_app, Hr1, Hr2]).
Qed.

Lemma detached_observe (m : M unit) : detached m -> detached (observe m).
Proof.
  intros Hm st. destruct (Hm st) as (Hh & evs & Ht & Hr).
  unfold observe. destruct (m st) as [[a|e|e] st1]; cbn in *; eauto.
Qed.

(** Syntax-directed derivation of [detached] for straight-line code. *)
Ltac detached_step :=
  match goal with
  | |- detached (bind _ _) => apply detached_bind; [|intros ?]
  | |- detached (defer _ _) => apply detached_defer
  | |- detached (observe _) => apply detached_observe
  | |- detached (ret _) => by apply detached_pure
  | |- detached (fail _) => by apply detached_pure
  | |- detached (panic _) => by apply detached_pure
  | |- detached (load _) => apply detached_load
  | |- detached (store _ _) => apply detached_store
  | |- detached (new_obj _) => by apply detached_heap
  | |- detached (call _) => apply detached_call; reflexivity
  | |- detached (if ?b then _ else _) => destruct b
  | |- detached (match ?x with _ => _ end) => destruct x
  end.

Lemma detached_is_nil c : detached (is_nil c).
Proof. unfold is_nil. repeat detached_step. Qed.

Lemma detached_check c context : detached (check c context).
Proof. unfold check. repeat detached_step. Qed.

Lemma detached_close_with destroy context c :
  (forall p, ambient (destroy p) = false /\ needs_key (destroy p) = false) ->
  detached (close_with destroy context c).
Proof.
  intros Hd. unfold close_with.
  repeat first [apply detached_is_nil | apply detached_check
               | apply detached_call; apply Hd | detached_step].
Qed.

Lemma detached_serialize_with ser context c :
  (forall p, ambient (ser p) = false /\ needs_key (ser p) = false) ->
  detached (serialize_with ser context c).
Proof.
  intros Hd. unfold serialize_with, GoBytes.
  repeat first [apply detached_is_nil | apply detached_check
               | apply detached_call; apply Hd | detached_step].
Qed.

Lemma detached_deserialize_with de context data :
  (forall p, ambient (de p) = false /\ needs_key (de p) = false) ->
  detached (deserialize_with de context data).
Proof.
  intros Hd. unfold deserialize_with.
  repeat first [apply detached_check | apply detached_call; apply Hd | detached_step].
Qed.

(** Every function of the bindings that is built from Nil checks, loads,
    one engine call and its status check. *)
Ltac detached_auto :=
  repeat first
    [ apply detached_is_nil | apply detached_check
    | apply detached_close_with; intros; split; reflexivity
    | apply detached_serialize_with; intros; split; reflexivity
    | apply detached_deserialize_with; intros; split; reflexivity
    | detached_step ].

Lemma detached_deserialize s : detached (deserialize s).
Proof. unfold deserialize, DeserializeCiphertext. detached_auto. Qed.

Lemma detached_deserializeUint8 s : detached (deserializeUint8 s).
Proof. unfold deserializeUint8, Uint8Deserialize. detached_auto. Qed.

Lemma detached_serializeToBase64 c : detached (serializeToBase64 c).
Proof. unfold serializeToBase64, Ciphertext_Serialize. detached_auto. Qed.

Lemma detached_serializeUint8ToBase64 c : detached (serializeUint8ToBase64 c).
Proof. unfold serializeUint8ToBase64, Uint8Serialize. detached_auto. Qed.

Lemma detached_gate2 f context s l r :
  (forall a b c, ambient (f a b c) = false /\ needs_key (f a b c) = false) ->
  detached (gate2 f context s l r).
Proof.
  intros Hf. unfold gate2.
  repeat first [apply detached_is_nil | apply detached_check
               | apply detached_call; apply Hf | detached_step].
Qed.

Lemma detached_binaryOp lhs rhs op :
  (forall l r, detached (op l r)) -> detached (binaryOp lhs rhs op).
Proof.
  intros Hop. unfold binaryOp, Ciphertext_Close.
  repeat first [apply Hop | apply detached_deserialize
               | apply detached_serializeToBase64 | detached_auto].
Qed.

(** ** Primitives run under a bound key *)

Lemma keyed_run_app s evs1 evs2 :
  keyed_run s (evs1 ++ evs2) =
  match keyed_run s evs1 with Some s' => keyed_run s' evs2 | None => None end.
Proof.
  revert s. induction evs1 as [|ev evs1 IH]; intros s; cbn; [done|].
  destruct (keyed_step s ev); [apply IH|done].
Qed.

Lemma keyless_run evs s : forallb keyless evs = true -> keyed_run s evs = Some s.
Proof.
  induction evs as [|ev evs IH]; cbn; [done|]. intros [Hev Hevs]%andb_prop.
  destruct ev as [| |c r]; [done..|]. cbn in Hev.
  apply andb_prop in Hev as [Ha%negb_true_iff Hn%negb_true_iff].
  assert (Hs : keyed_step s (Call c r) = Some s).
  { unfold keyed_step. rewrite Hn. by destruct c, s. }
  rewrite Hs. by apply IH.
Qed.

Lemma detached_keyed_in {A} s (m : M A) : detached m -> keyed_in s m.
Proof.
  intros H st. destruct (H st) as (_ & evs & Ht & Hr).
  exists evs. split; [done|]. by apply keyless_run.
Qed.

Lemma keyed_in_bind {A B} s (m : M A) (k : A -> M B) :
  keyed_in s m -> (forall a, keyed_in s (k a)) -> keyed_in s (bind m k).
Proof.
  intros Hm Hk st. destruct (Hm st) as (evs1 & Ht1 & Hr1).
  unfold bind. destruct (m st) as [[a|e|e] st1]; cbn in *; [|by eauto..].
  destruct (Hk a st1) as (evs2 & Ht2 & Hr2).
  exists (evs1 ++ evs2). split.
  - by rewrite Ht2, Ht1, app_assoc.
  - by rewrite keyed_run_app, Hr1.
Qed.

Lemma keyed_in_defer {A B} s (d : M B) (body : M A) :
  keyed_in s d -> keyed_in s body -> keyed_in s (defer d body).
Proof.
  intros Hd Hb st. destruct (Hb st) as (evs1 & Ht1 & Hr1).
  unfold defer. destruct (body st) as [r st1]; cbn in *.
  destruct (Hd st1) as (evs2 & Ht2 & Hr2).
  exists (evs1 ++ evs2). split.
  - destruct (d st1) as [[?|?|?] st2]; cbn in *; by rewrite Ht2, Ht1, app_assoc.
  - by rewrite keyed_run_app, Hr1.
Qed.

Lemma keyed_in_call c : ambient c = false -> keyed_in Bound (call c).
Proof.
  intros Ha st. eexists. split; [reflexivity|]. cbn. by destruct c.
Qed.

(** The bound section runs [fn] with the lane bound. *)
Lemma withServerKey_keyed {A} sk (fn : M A) :
  keyed_in Bound fn -> keyed (withServerKey sk fn).
Proof.
  intros Hfn st.
  destruct (withServerKey_cases fn st sk) as [(r & -> & _)|(l & p & -> & Hl & Hp)].
  { exists []. by rewrite app_nil_r. }
  rewrite (withServerKey_run _ _ _ _ Hl Hp). cbn zeta.
  destruct (code _ =? 0) eqn:Hc.
  - match goal with |- context [fn ?s] =>
      destruct (Hfn s) as (evs & Ht & Hr); destruct (fn s) as [r st1] end.
    cbn in *. eexists. split.
    + rewrite Ht, <- !app_assoc. reflexivity.
    + cbn. rewrite Hc. rewrite keyed_run_app, Hr. reflexivity.
  - eexists. split; [cbn; rewrite <- !app_assoc; reflexivity|].
    cbn. by rewrite Hc.
Qed.

Lemma uint8_binary_keyed f context l r :
  (forall p q, ambient (f p q) = false) -> keyed (uint8_binary f context l r).
Proof.
  intros Hf. unfold uint8_binary, keyed.
  apply keyed_in_bind; [apply detached_keyed_in, detached_is_nil|intros nl].
  apply keyed_in_bind;
    [destruct nl; apply detached_keyed_in; detached_auto|intros nr].
  destruct nr; [apply detached_keyed_in; detached_auto|].
  apply keyed_in_bind; [by apply detached_keyed_in, detached_pure|intros sk].
  apply keyed_in_bind; [|intros out; apply detached_keyed_in; detached_auto].
  apply withServerKey_keyed.
  apply keyed_in_bind; [apply detached_keyed_in, detached_load|intros a].
  apply keyed_in_bind; [apply detached_keyed_in, detached_load|intros b].
  apply keyed_in_bind; [by apply keyed_in_call|intros res].
  apply detached_keyed_in. detached_auto.
Qed.

Lemma binaryUint8_keyed lhs rhs op :
  (forall l r, keyed (op l r)) -> keyed (binaryUint8 lhs rhs op).
Proof.
  intros Hop. unfold binaryUint8, keyed, Uint8Ciphertext_Close.
  apply keyed_in_bind; [apply detached_keyed_in, detached_deserializeUint8|intros l].
  apply keyed_in_defer; [apply detached_keyed_in; detached_auto|].
  apply keyed_in_bind; [apply detached_keyed_in, detached_deserializeUint8|intros r].
  apply keyed_in_defer; [apply detached_keyed_in; detached_auto|].
  apply keyed_in_bind; [apply Hop|intros out].
  apply keyed_in_defer; [apply detached_keyed_in; detached_auto|].
  apply detached_keyed_in, detached_serializeUint8ToBase64.
Qed.

(** The integer primitives [fhe_uint8_add], [fhe_uint8_bitand] and
    [fhe_uint8_bitxor] are called only while a server key is bound: in
    the events of every integer binary operation, at the service and at
    the binding level, each such call lies between a successful
    [set_server_key] and the [unset_server_key] that follows it, on a
    pinned lane.  When the bind fails the primitive is not called. *)
Theorem primitives_run_under_a_bound_key
    (s : Uint8Service) (lhs rhs : string) (l r : goptr) :
  keyed (Uint8Service_Add s lhs rhs) /\
  keyed (Uint8Service_BitAnd s lhs rhs) /\
  keyed (Uint8Service_BitXor s lhs rhs) /\
  keyed (Uint8Add l r) /\
  keyed (Uint8BitAnd l r) /\
  keyed (Uint8BitXor l r).
Proof.
  repeat split;
    first [ apply binaryUint8_keyed; intros; by apply uint8_binary_keyed
          | by apply uint8_binary_keyed ].
Qed.

Lemma detached_boolean_operations (bs : BooleanService) (lhs rhs : string) (b : bool) :
  detached (EncryptBoolToBase64 bs b) /\
  detached (DecryptBoolFromBase64 bs lhs) /\
  detached (AndBase64 bs lhs rhs) /\
  detached (OrBase64 bs lhs rhs) /\
  detached (XorBase64 bs lhs rhs) /\
  detached (NotBase64 bs lhs).
Proof.
  repeat apply conj.
  - unfold EncryptBoolToBase64, EncryptBool, Ciphertext_Close, Ciphertext_Serialize.
    detached_auto.
  - unfold DecryptBoolFromBase64, DecryptBool, Ciphertext_Close.
    repeat first [apply detached_deserialize | detached_auto].
  - apply detached_binaryOp. intros. by apply detached_gate2.
  - apply detached_binaryOp. intros. by apply detached_gate2.
  - apply detached_binaryOp. intros. by apply detached_gate2.
  - unfold NotBase64, ServerKey_Not, Ciphertext_Close.
    repeat first [apply detached_deserialize | apply detached_serializeToBase64
                 | detached_auto].
Qed.

Lemma detached_uint8_operations (us : Uint8Service) (lhs : string) (v : Z) :
  detached (Uint8Service_Encrypt us v) /\
  detached (Uint8Service_EncryptWithPublic us v) /\
  detached (Uint8Service_Decrypt us lhs).
Proof.
  repeat apply conj.
  - unfold Uint8Service_Encrypt, EncryptUint8, Uint8Ciphertext_Close.
    repeat first [apply detached_serializeUint8ToBase64 | detached_auto].
  - unfold Uint8Service_EncryptWithPublic, EncryptUint8Public, Uint8Ciphertext_Close.
    repeat first [apply detached_serializeUint8ToBase64 | detached_auto].
  - unfold Uint8Service_Decrypt, DecryptUint8, Uint8Ciphertext_Close.
    repeat first [apply detached_deserializeUint8 | detached_auto].
Qed.

(** No operation of the boolean service, no integer encryption or
    decryption, no (de)serialization and no [Close] other than that of
    the integer server key pins the thread, sets or unsets the ambient
    server key, calls a primitive that needs it, or assigns the
    process-wide holder. *)
Theorem other_operations_leave_the_ambient_key
    (bs : BooleanService) (us : Uint8Service) (lhs rhs : string) (b : bool) (v : Z)
    (c : goptr) :
  (detached (EncryptBoolToBase64 bs b) /\
   detached (DecryptBoolFromBase64 bs lhs) /\
   detached (AndBase64 bs lhs rhs) /\
   detached (OrBase64 bs lhs rhs) /\
   detached (XorBase64 bs lhs rhs) /\
   detached (NotBase64 bs lhs)) /\
  (detached (Uint8Service_Encrypt us v) /\
   detached (Uint8Service_EncryptWithPublic us v) /\
   detached (Uint8Service_Decrypt us lhs)) /\
  (detached NewBooleanService /\
   detached (BooleanService_Close bs)) /\
  (detached (ClientKey_Close c) /\ detached (ServerKey_Close c) /\
   detached (Ciphertext_Close c) /\ detached (Uint8ClientKey_Close c) /\
   detached (Uint8PublicKey_Close c) /\ detached (Uint8Ciphertext_Close c)).
Proof.
  split; [apply detached_boolean_operations|].
  split; [apply detached_uint8_operations|].
  split.
  - apply conj.
    + unfold NewBooleanService, GenerateBooleanKeys. detached_auto.
    + unfold BooleanService_Close, ClientKey_Close, ServerKey_Close.
      detached_auto.
  - repeat apply conj; by apply detached_close_with.
Qed.

(** ** Closing a service *)

Lemma Uint8ServerKey_Close_run l st p :
  heap st !! l = Some p ->
  Uint8ServerKey_Close (Some l) st =
  if N.eqb p 0 then (Ok tt, st) else
  let r0 := reply unset_server_key (eng st) in
  let e1 := after unset_server_key (eng st) in
  let r := reply (server_key_destroy p) e1 in
  let tr := trace st ++ [Call unset_server_key r0; Call (server_key_destroy p) r] in
  if code r =? 0
  then (Ok tt, mkState (after (server_key_destroy p) e1) (<[l:=0%N]> (heap st))
                 (holder st) tr)
  else (Err ("destroy server key" +:+ ": tfhe error code " +:+ itoa (code r)),
        mkState (after (server_key_destroy p) e1) (heap st) (holder st) tr).
Proof.
  intros Hp.
  unfold Uint8ServerKey_Close, is_nil, bind, load, ret, call, check, store, fail.
  rewrite Hp. destruct (N.eqb p 0); [done|]. cbn. rewrite Hp.
  destruct (code _ =? 0); cbn; rewrite <- ?app_assoc; cbn [app]; [|done].
  by rewrite Hp.
Qed.

(** One key of a service: [if k != nil { err = k.Close(); k = nil }] on a
    live key calls the engine's destroy, clears the wrapper when the
    engine accepts, and reports the engine's refusal otherwise. *)
Lemma observe_close_with destroy context l st p :
  heap st !! l = Some p -> p <> 0%N ->
  exists err st',
    observe (close_with destroy context (Some l)) st = (Ok err, st') /\
    let r := reply (destroy p) (eng st) in
    trace st' = trace st ++ [Call (destroy p) r] /\
    holder st' = holder st /\
    (forall l', l' <> l -> heap st' !! l' = heap st !! l') /\
    (code r = 0 -> heap st' !! l = Some 0%N) /\
    (err = None <-> code r = 0).
Proof.
  intros Hp Hnz. unfold observe. rewrite (close_with_run _ _ _ _ _ Hp).
  apply N.eqb_neq in Hnz. rewrite Hnz. cbn zeta.
  destruct (code _ =? 0) eqn:Hc.
  - apply Z.eqb_eq in Hc. eexists _, _. split; [reflexivity|]. cbn.
    repeat split; try done.
    + intros l' Hl'. by apply list_lookup_insert_ne.
    + intros _. apply list_lookup_insert_eq. by eapply lookup_lt_Some.
  - apply Z.eqb_neq in Hc. eexists _, _. split; [reflexivity|]. cbn.
    repeat split; try done.
Qed.

Lemma observe_Uint8ServerKey_Close l st p :
  heap st !! l = Some p -> p <> 0%N ->
  exists err st',
    observe (Uint8ServerKey_Close (Some l)) st = (Ok err, st') /\
    let r0 := reply unset_server_key (eng st) in
    let r := reply (server_key_destroy p) (after unset_server_key (eng st)) in
    trace st' = trace st ++ [Call unset_server_key r0; Call (server_key_destroy p) r] /\
    holder st' = holder st /\
    (forall l', l' <> l -> heap st' !! l' = heap st !! l') /\
    (code r = 0 -> heap st' !! l = Some 0%N) /\
    (err = None <-> code r = 0).
Proof.
  intros Hp Hnz. unfold observe. rewrite (Uint8ServerKey_Close_run _ _ _ Hp).
  apply N.eqb_neq in Hnz. rewrite Hnz. cbn zeta.
  destruct (code _ =? 0) eqn:Hc.
  - apply Z.eqb_eq in Hc. eexists _, _. split; [reflexivity|]. cbn.
    repeat split; try done.
    + intros l' Hl'. by apply list_lookup_insert_ne.
    + intros _. apply list_lookup_insert_eq. by eapply lookup_lt_Some.
  - apply Z.eqb_neq in Hc. eexists _, _. split; [reflexivity|]. cbn.
    repeat split; try done.
Qed.

(** [Close] of a service whose keys are live calls the engine's destroy
    for every key, in the order of the source, whether or not an earlier
    destroy was refused; the integer server key is taken off the lane
    ([unset_server_key]) before it is destroyed.  [Close] always returns
    the service with every field [nil]; its error is [nil] exactly when
    the engine accepted every destroy, and a wrapper whose destroy was
    accepted is cleared.  [Close] of a service whose fields are [nil]
    does nothing and returns [nil]. *)
Theorem service_close_destroys_every_key :
  (forall s st lc ls pc ps,
     bs_client s = Some lc -> bs_server s = Some ls -> lc <> ls ->
     heap st !! lc = Some pc -> heap st !! ls = Some ps ->
     pc <> 0%N -> ps <> 0%N ->
     exists err st' r1 r2,
       BooleanService_Close s st = (Ok (mkBooleanService None None, err), st') /\
       trace st' = trace st ++ [Call (boolean_destroy_client_key pc) r1;
                                Call (boolean_destroy_server_key ps) r2] /\
       (code r1 = 0 -> heap st' !! lc = Some 0%N) /\
       (code r2 = 0 -> heap st' !! ls = Some 0%N) /\
       (err = None <-> code r1 = 0 /\ code r2 = 0)) /\
  (forall s st lc ls lp pc ps pp,
     us_client s = Some lc -> us_server s = Some ls -> us_public s = Some lp ->
     lc <> ls -> lc <> lp -> ls <> lp ->
     heap st !! lc = Some pc -> heap st !! ls = Some ps -> heap st !! lp = Some pp ->
     pc <> 0%N -> ps <> 0%N -> pp <> 0%N ->
     exists err st' r1 r2 r3 r4,
       Uint8Service_Close s st = (Ok (mkUint8Service None None None, err), st') /\
       trace st' = trace st ++ [Call (public_key_destroy pp) r1;
                                Call (client_key_destroy pc) r2;
                                Call unset_server_key r3;
                                Call (server_key_destroy ps) r4] /\
       holder st' = holder st /\
       (code r1 = 0 -> heap st' !! lp = Some 0%N) /\
       (code r2 = 0 -> heap st' !! lc = Some 0%N) /\
       (code r4 = 0 -> heap st' !! ls = Some 0%N) /\
       (err = None <-> code r1 = 0 /\ code r2 = 0 /\ code r4 = 0)) /\
  (forall st,
     BooleanService_Close (mkBooleanService None None) st
       = (Ok (mkBooleanService None None, None), st) /\
     Uint8Service_Close (mkUint8Service None None None) st
       = (Ok (mkUint8Service None None None, None), st)).
Proof.
  split; [|split; [|done]].
  - intros [c s] st lc ls pc ps Hc0 Hs0 Hne Hc Hs Hpc Hps.
    cbn [bs_client bs_server] in *. subst c s.
    destruct (observe_close_with boolean_destroy_client_key "destroy client key"
                lc st pc Hc Hpc) as (e1 & st1 & Hrun1 & Ht1 & Hh1 & Hf1 & Hz1 & He1).
    assert (Hs1 : heap st1 !! ls = Some ps) by (rewrite Hf1; done).
    destruct (observe_close_with boolean_destroy_server_key "destroy server key"
                ls st1 ps Hs1 Hps) as (e2 & st2 & Hrun2 & Ht2 & Hh2 & Hf2 & Hz2 & He2).
    unfold BooleanService_Close, ClientKey_Close, ServerKey_Close.
    cbn [bs_client bs_server]. unfold bind at 1 2.
    rewrite Hrun1. cbn [ret fst snd bs_client bs_server]. unfold bind.
    rewrite Hrun2. cbn [ret].
    eexists _, st2, _, _. split; [reflexivity|]. split.
    { rewrite Ht2, Ht1, <- app_assoc. reflexivity. }
    split; [intros H1; rewrite Hf2 by done; by apply Hz1|].
    split; [done|].
    destruct e1, e2; cbn; split; try done; intros; try tauto;
      try (destruct He1 as [He1 _]; specialize (He1 eq_refl));
      try (destruct He2 as [He2 _]; specialize (He2 eq_refl));
      try (split; tauto);
      exfalso; intuition congruence.
  - intros [c s p] st lc ls lp pc ps pp Hc0 Hs0 Hp0 Hcs Hcp Hsp Hc Hs Hp Hpc Hps Hpp.
    cbn [us_client us_server us_public] in *. subst c s p.
    destruct (observe_close_with public_key_destroy "destroy public key"
                lp st pp Hp Hpp) as (e1 & st1 & Hrun1 & Ht1 & Hh1 & Hf1 & Hz1 & He1).
    assert (Hc1 : heap st1 !! lc = Some pc) by (rewrite Hf1; done).
    destruct (observe_close_with client_key_destroy "destroy client key"
                lc st1 pc Hc1 Hpc) as (e2 & st2 & Hrun2 & Ht2 & Hh2 & Hf2 & Hz2 & He2).
    assert (Hs2 : heap st2 !! ls = Some ps) by (rewrite Hf2, Hf1; done).
    destruct (observe_Uint8ServerKey_Close ls st2 ps Hs2 Hps)
      as (e3 & st3 & Hrun3 & Ht3 & Hh3 & Hf3 & Hz3 & He3).
    unfold Uint8Service_Close, Uint8PublicKey_Close, Uint8ClientKey_Close.
    cbn [us_client us_server us_public]. unfold bind at 1 2.
    rewrite Hrun1. cbn [ret fst snd us_client us_server us_public].
    unfold bind at 1 2.
    rewrite Hrun2. cbn [ret fst snd us_client us_server us_public].
    unfold bind. rewrite Hrun3. cbn [ret].
    eexists _, st3, _, _, _, _. split; [reflexivity|]. split.
    { rewrite Ht3, Ht2, Ht1, <- !app_assoc. reflexivity. }
    split; [congruence|].
    split; [intros H1; rewrite Hf3, Hf2 by done; by apply Hz1|].
    split; [intros H2; rewrite Hf3 by done; by apply Hz2|].
    split; [done|].
    destruct e1, e2, e3; cbn; split; try done; intros; try tauto;
      try (destruct He1 as [He1 _]; specialize (He1 eq_refl));
      try (destruct He2 as [He2 _]; specialize (He2 eq_refl));
      try (destruct He3 as [He3 _]; specialize (He3 eq_refl));
      try (repeat split; tauto);
      exfalso; intuition congruence.
Qed.

(** ** Operations of a closed service *)

Lemma nil_first {A} msg (k : M A) st c :
  nil_handle st c ->
  (n <- is_nil c ;; if (n : bool) then fail msg else k) st = (Err msg, st).
Proof. intros Hc. unfold bind. by rewrite (is_nil_nil _ _ Hc). Qed.

Lemma scoped_valid {A} (m : M A) st x :
  scoped m -> valid_handle st x -> valid_handle (m st).2 x.
Proof.
  intros Hm Hx. destruct (Hm st) as (evs & news & _ & Hh & _).
  destruct x as [l|]; [|done]. cbn in *. rewrite Hh, length_app. lia.
Qed.

Lemma block_result {A} destroy context (create : M goptr) (rest : goptr -> M A)
    st x st1 :
  create st = (Ok x, st1) -> valid_handle st1 x -> (forall y, scoped (rest y)) ->
  ((x <- create ;; defer (close_with destroy context x) (rest x)) st).1
  = (rest x st1).1.
Proof.
  intros Hc Hx Hs. rewrite (bind_ok _ _ _ _ _ Hc).
  apply defer_close_result. by apply scoped_valid.
Qed.

Lemma deserialize_cases s st :
  (exists e st', deserialize s st = (Err e, st') /\
     heap st' = heap st /\ holder st' = holder st) \/
  (exists p st', deserialize s st = (Ok (Some (length (heap st))), st') /\
     heap st' = heap st ++ [p] /\ holder st' = holder st).
Proof.
  unfold deserialize. destruct (String.eqb s ""); [left; by eauto|].
  destruct (DecodeString s) as [raw [err|]]; [left; by eauto|].
  apply deserialize_with_cases.
Qed.

Lemma fresh_valid (st st1 : state E) (p : N) :
  heap st1 = heap st ++ [p] -> valid_handle st1 (Some (length (heap st))).
Proof. intros H. cbn. rewrite H, length_app. cbn. lia. Qed.

(** A unary block over a deserialized operand whose body refuses. *)
Lemma unary_refused {A} destroy context (des : string -> M goptr)
    (rest : goptr -> M A) (c : goptr) msg text st :
  (forall s st0,
     (exists e st', des s st0 = (Err e, st') /\
        heap st' = heap st0 /\ holder st' = holder st0) \/
     (exists p st', des s st0 = (Ok (Some (length (heap st0))), st') /\
        heap st' = heap st0 ++ [p] /\ holder st' = holder st0)) ->
  (forall y, scoped (rest y)) ->
  nil_handle st c ->
  (forall y st1, nil_handle st1 c -> (rest y st1).1 = Err msg) ->
  is_err ((x <- des text ;; defer (close_with destroy context x) (rest x)) st).1 /\
  (forall x st1, des text st = (Ok x, st1) ->
     ((x <- des text ;; defer (close_with destroy context x) (rest x)) st).1 = Err msg).
Proof.
  intros Hcases Hs Hc Hrest.
  destruct (Hcases text st) as [(e & st1 & Hl & _)|(p & st1 & Hl & Hheap & _)].
  { rewrite (bind_err _ _ _ _ _ Hl). split; [done|]. intros. congruence. }
  pose proof (fresh_valid _ _ _ Hheap) as Hx.
  rewrite (block_result _ _ _ _ _ _ _ Hl Hx Hs).
  destruct (nil_handle_grow st st1 c [p] (nil_handle_valid _ _ Hc) Hheap) as [Hn _].
  rewrite (Hrest _ _ (proj2 Hn Hc)). done.
Qed.

Lemma binaryOp_refused f context s lhs rhs st :
  (forall a b c, creates (f a b c) = Some Boolean) ->
  nil_handle st s ->
  is_err (binaryOp lhs rhs (gate2 f context s) st).1 /\
  (forall x st1 y st2,
     deserialize lhs st = (Ok x, st1) -> deserialize rhs st1 = (Ok y, st2) ->
     (binaryOp lhs rhs (gate2 f context s) st).1 = Err "server key is nil").
Proof.
  intros Hf Hc. unfold binaryOp, Ciphertext_Close.
  assert (Hout : forall x y, scoped
            (out <- gate2 f context s x y ;;
             defer (close_with boolean_destroy_ciphertext "destroy ciphertext" out)
               (serializeToBase64 out))).
  { intros. apply scoped_boolean; [by apply creator_gate2|].
    intros. apply inert_scoped, inert_serializeToBase64. }
  assert (Hin : forall x, scoped
            (rhs0 <- deserialize rhs ;;
             defer (close_with boolean_destroy_ciphertext "destroy ciphertext" rhs0)
               (out <- gate2 f context s x rhs0 ;;
                defer (close_with boolean_destroy_ciphertext "destroy ciphertext" out)
                  (serializeToBase64 out)))).
  { intros. apply scoped_boolean; [apply creator_deserialize|]. intros. apply Hout. }
  destruct (deserialize_cases lhs st) as [(e & st1 & Hl & _)|(p & st1 & Hl & Hheap & _)].
  { rewrite (bind_err _ _ _ _ _ Hl). split; [done|]. intros. congruence. }
  pose proof (fresh_valid _ _ _ Hheap) as Hx.
  rewrite (block_result _ _ _ _ _ _ _ Hl Hx Hin).
  destruct (nil_handle_grow st st1 s [p] (nil_handle_valid _ _ Hc) Hheap) as [Hn Hv1].
  apply (proj2 Hn) in Hc.
  destruct (deserialize_cases rhs st1) as [(e & st2 & Hr & _)|(q & st2 & Hr & Hheap2 & _)].
  { rewrite (bind_err _ _ _ _ _ Hr). split; [done|]. intros. congruence. }
  pose proof (fresh_valid _ _ _ Hheap2) as Hy.
  rewrite (block_result _ _ _ _ _ _ _ Hr Hy (Hout _)).
  destruct (nil_handle_grow st1 st2 s [q] Hv1 Hheap2) as [Hn2 _].
  apply (proj2 Hn2) in Hc.
  assert (Hg : forall x y, gate2 f context s x y st2 = (Err "server key is nil", st2))
    by (intros; by apply nil_first).
  rewrite (bind_err _ _ _ _ _ (Hg _ _)). done.
Qed.

(** A service whose keys are Nil (closed, or their wrappers cleared)
    refuses every operation with an error and never panics.  The
    encryptions fail at once with the name of the missing key and make no
    engine call.  The operations that take ciphertext texts deserialize
    their operands first: they return the deserialization error if there
    is one, and otherwise the name of the missing key. *)
Theorem closed_service_refuses_operations :
  (forall (s : BooleanService) st,
     nil_handle st (bs_client s) -> nil_handle st (bs_server s) ->
     (forall v, EncryptBoolToBase64 s v st = (Err "client key is nil", st)) /\
     (forall text,
        is_err (DecryptBoolFromBase64 s text st).1 /\
        (forall x st1, deserialize text st = (Ok x, st1) ->
           (DecryptBoolFromBase64 s text st).1 = Err "client key is nil")) /\
     (forall op, In op [AndBase64; OrBase64; XorBase64] ->
        forall lhs rhs,
          is_err (op s lhs rhs st).1 /\
          (forall x st1 y st2,
             deserialize lhs st = (Ok x, st1) -> deserialize rhs st1 = (Ok y, st2) ->
             (op s lhs rhs st).1 = Err "server key is nil")) /\
     (forall text,
        is_err (NotBase64 s text st).1 /\
        (forall x st1, deserialize text st = (Ok x, st1) ->
           (NotBase64 s text st).1 = Err "server key is nil"))) /\
  (forall (s : Uint8Service) st,
     nil_handle st (us_client s) -> nil_handle st (us_public s) ->
     (forall v, Uint8Service_Encrypt s v st = (Err "client key is nil", st)) /\
     (forall v, Uint8Service_EncryptWithPublic s v st = (Err "public key is nil", st)) /\
     (forall text,
        is_err (Uint8Service_Decrypt s text st).1 /\
        (forall x st1, deserializeUint8 text st = (Ok x, st1) ->
           (Uint8Service_Decrypt s text st).1 = Err "client key is nil"))).
Proof.
  split.
  - intros s st Hc Hs. split; [|split; [|split]].
    + intros v. unfold EncryptBoolToBase64, EncryptBool.
      by rewrite (bind_err _ _ _ _ _ (nil_first _ _ _ _ Hc)).
    + intros text. unfold DecryptBoolFromBase64, Ciphertext_Close.
      apply (unary_refused _ _ deserialize (DecryptBool (bs_client s)) (bs_client s)).
      * apply deserialize_cases.
      * intros. apply inert_scoped, inert_DecryptBool.
      * done.
      * intros y st1 Hn. unfold DecryptBool. by rewrite (nil_first _ _ _ _ Hn).
    + intros op Hop lhs rhs. cbn [In] in Hop.
      destruct Hop as [<-|[<-|[<-|[]]]]; by apply binaryOp_refused.
    + intros text. unfold NotBase64, Ciphertext_Close.
      apply (unary_refused _ _ deserialize _ (bs_server s)).
      * apply deserialize_cases.
      * intros. apply scoped_boolean; [apply creator_ServerKey_Not|].
        intros. apply inert_scoped, inert_serializeToBase64.
      * done.
      * intros y st1 Hn.
        assert (Hg : ServerKey_Not (bs_server s) y st1 = (Err "server key is nil", st1))
          by (by apply nil_first).
        by rewrite (bind_err _ _ _ _ _ Hg).
  - intros s st Hc Hp. split; [|split].
    + intros v. unfold Uint8Service_Encrypt, EncryptUint8.
      by rewrite (bind_err _ _ _ _ _ (nil_first _ _ _ _ Hc)).
    + intros v. unfold Uint8Service_EncryptWithPublic, EncryptUint8Public.
      by rewrite (bind_err _ _ _ _ _ (nil_first _ _ _ _ Hp)).
    + intros text. unfold Uint8Service_Decrypt, Uint8Ciphertext_Close.
      apply (unary_refused _ _ deserializeUint8 (DecryptUint8 (us_client s)) (us_client s)).
      * apply deserializeUint8_cases.
      * intros. apply inert_scoped, inert_DecryptUint8.
      * done.
      * intros y st1 Hn. unfold DecryptUint8. by rewrite (nil_first _ _ _ _ Hn).
Qed.

(** ** Constructing a service *)

(** [NewBooleanService] and [NewUint8Service] never panic.  On success
    the service's handles are the wrappers allocated by the call, one
    after the other at the end of the Go heap; the boolean constructor
    leaves the holder alone, the integer constructor leaves it pointing
    to the new server key, which it has passed to [set_server_key].  On
    failure [NewBooleanService] has allocated nothing.  [NewUint8Service]
    fails either before any wrapper is allocated, with the holder
    unchanged, or in the derivation of the public key: then the wrappers
    of the two generated keys stay allocated and the holder points to
    the new server key although no service is returned. *)
Theorem constructors_allocate_their_keys (st : state E) :
  let n := length (heap st) in
  match NewBooleanService st with
  | (Ok s, st') =>
      exists ck sk, s = mkBooleanService (Some n) (Some (S n)) /\
                    heap st' = heap st ++ [ck; sk] /\ holder st' = holder st
  | (Err _, st') => heap st' = heap st /\ holder st' = holder st
  | (Panic _, _) => False
  end /\
  match NewUint8Service st with
  | (Ok s, st') =>
      exists ck sk pk evs,
        s = mkUint8Service (Some n) (Some (S n)) (Some (S (S n))) /\
        heap st' = heap st ++ [ck; sk; pk] /\ holder st' = Some (S n) /\
        trace st' = trace st ++ evs /\ In sk (bind_calls evs)
  | (Err _, st') =>
      (heap st' = heap st /\ holder st' = holder st) \/
      (exists ck sk, heap st' = heap st ++ [ck; sk] /\ holder st' = Some (S n))
  | (Panic _, _) => False
  end.
Proof.
  cbn zeta. split.
  - unfold NewBooleanService, GenerateBooleanKeys, bind, call, check, new_obj, ret, fail.
    destruct (code _ =? 0); cbn; [|done].
    eexists _, _. rewrite length_app, <- app_assoc. cbn.
    replace (length (heap st) + 1)%nat with (S (length (heap st))) by lia. done.
  - unfold NewUint8Service, GenerateUint8Keys, NewUint8PublicKey,
      setServerKeyHolder, is_nil.
    unfold bind, call, check, new_obj, load, ret, fail.
    destruct (code _ =? 0); cbn; [|by left].
    destruct (code _ =? 0); cbn; [|by left].
    destruct (code _ =? 0); cbn; [|by left].
    destruct (code _ =? 0); cbn; [|by left].
    rewrite lookup_app_l by (rewrite length_app; cbn; lia).
    rewrite list_lookup_middle by done.
    assert (Hlen : forall a b : N,
              length ((heap st ++ [a]) ++ [b]) = S (S (length (heap st))))
      by (intros; rewrite !length_app; cbn; lia).
    assert (Hlen1 : forall a : N, length (heap st ++ [a]) = S (length (heap st)))
      by (intros; rewrite !length_app; cbn; lia).
    destruct (N.eqb _ 0); cbn.
    { right. eexists _, _. rewrite <- app_assoc, Hlen1. cbn. done. }
    rewrite lookup_app_l by (rewrite length_app; cbn; lia).
    rewrite list_lookup_middle by done. cbn.
    destruct (code _ =? 0); cbn.
    + eexists _, _, _, _. rewrite Hlen, Hlen1, <- !app_assoc. cbn.
      repeat split; try reflexivity.
      cbn. auto.
    + right. eexists _, _. rewrite <- app_assoc, Hlen1. cbn. done.
Qed.

(** ** Serialization and the engine's buffer *)



(** ** Every ciphertext is destroyed once *)

Lemma tally_app P evs1 evs2 : tally P (evs1 ++ evs2) = (tally P evs1 + tally P evs2)%nat.
Proof. unfold tally. by rewrite List.filter_app, length_app. Qed.

Lemma aside_pure {A} (m : M A) : (forall st, (m st).2 = st) -> aside m.
Proof. intros H st. exists []. rewrite H, app_nil_r. done. Qed.

Lemma aside_load c : aside (load c).
Proof.
  apply aside_pure. intros st. unfold load.
  destruct c as [l|]; [|done]. by destruct (heap st !! l).
Qed.

Lemma aside_call c : creates c = None -> frees c = false -> aside (call c).
Proof.
  intros Hc Hf st. eexists. split; [reflexivity|]. split; [done|].
  unfold tally, makes. cbn. rewrite Hc, Hf. done.
Qed.

Lemma aside_bind {A B} (m : M A) (k : A -> M B) :
  aside m -> (forall a, aside (k a)) -> aside (bind m k).
Proof.
  intros Hm Hk st. destruct (Hm st) as (evs1 & Ht1 & Hh1 & Hm1 & Hu1).
  unfold bind. destruct (m st) as [[a|e|e] st1]; cbn in *; [|by eauto..].
  destruct (Hk a st1) as (evs2 & Ht2 & Hh2 & Hm2 & Hu2).
  exists (evs1 ++ evs2). rewrite !tally_app, Hm1, Hm2, Hu1, Hu2.
  split; [by rewrite Ht2, Ht1, app_assoc|]. split; [congruence|done].
Qed.

Lemma aside_defer {A B} (d : M B) (body : M A) :
  aside d -> aside body -> aside (defer d body).
Proof.
  intros Hd Hb st. destruct (Hb st) as (evs1 & Ht1 & Hh1 & Hm1 & Hu1).
  unfold defer. destruct (body st) as [r st1]; cbn in *.
  destruct (Hd st1) as (evs2 & Ht2 & Hh2 & Hm2 & Hu2).
  exists (evs1 ++ evs2). rewrite !tally_app, Hm1, Hm2, Hu1, Hu2.
  destruct (d st1) as [[?|?|?] st2]; cbn in *;
    (split; [by rewrite Ht2, Ht1, app_assoc|]; split; [congruence|done]).
Qed.

(** Syntax-directed derivation of [aside] for straight-line code. *)
Ltac aside_step :=
  match goal with
  | |- aside (bind _ _) => apply aside_bind; [|intros ?]
  | |- aside (defer _ _) => apply aside_defer
  | |- aside (ret _) => by apply aside_pure
  | |- aside (fail _) => by apply aside_pure
  | |- aside (panic _) => by apply aside_pure
  | |- aside defaultUint8ServerKey => by apply aside_pure
  | |- aside (load _) => apply aside_load
  | |- aside (call _) => apply aside_call; reflexivity
  | |- aside (if ?b then _ else _) => destruct b
  | |- aside (match ?x with _ => _ end) => destruct x
  end.

Lemma aside_is_nil c : aside (is_nil c).
Proof. unfold is_nil. repeat aside_step. Qed.

Lemma aside_check c context : aside (check c context).
Proof. unfold check. repeat aside_step. Qed.

Ltac aside_auto :=
  repeat first [apply aside_is_nil | apply aside_check | aside_step].

Lemma aside_serializeToBase64 c : aside (serializeToBase64 c).
Proof.
  unfold serializeToBase64, Ciphertext_Serialize, serialize_with, GoBytes. aside_auto.
Qed.

Lemma aside_serializeUint8ToBase64 c : aside (serializeUint8ToBase64 c).
Proof.
  unfold serializeUint8ToBase64, Uint8Serialize, serialize_with, GoBytes. aside_auto.
Qed.

Lemma aside_DecryptBool client ct : aside (DecryptBool client ct).
Proof. unfold DecryptBool. aside_auto. Qed.

Lemma aside_DecryptUint8 client ct : aside (DecryptUint8 client ct).
Proof. unfold DecryptUint8. aside_auto. Qed.

Lemma aside_exactly_once {A} (m : M A) : aside m -> exactly_once m.
Proof.
  intros H st. destruct (H st) as (evs & Ht & Hh & Hm & Hu).
  exists evs, []. rewrite app_nil_r, Hm, Hu. done.
Qed.

Lemma supplies_fail msg : supplies (fail msg).
Proof. intros st. exists []. cbn. by rewrite app_nil_r. Qed.

Lemma supplies_bind {A} (m : M A) (k : A -> M cptr) :
  aside m -> (forall a, supplies (k a)) -> supplies (bind m k).
Proof.
  intros Hm Hk st. destruct (Hm st) as (evs1 & Ht1 & Hh1 & Hm1 & Hu1).
  unfold bind. destruct (m st) as [[a|e|e] st1]; cbn in *; [|by eauto..].
  destruct (Hk a st1) as (evs2 & Ht2 & Hh2 & Hu2 & Hm2).
  exists (evs1 ++ evs2). rewrite !tally_app, Hm1, Hm2, Hu1, Hu2.
  split; [by rewrite Ht2, Ht1, app_assoc|]. split; [congruence|done].
Qed.

Lemma makes_call c r f :
  creates c = Some f ->
  makes (Call c r) = (code r =? 0) && negb (N.eqb (out_ptr r) 0).
Proof.
  intros Hc. unfold makes. cbn. rewrite Hc.
  by destruct ((code r =? 0) && negb (N.eqb (out_ptr r) 0)).
Qed.

Lemma supplies_call f c context :
  creates c = Some f -> frees c = false ->
  supplies (r <- call c ;; do check (code r) context ;; ret (out_ptr r)).
Proof.
  intros Hc Hf st. eexists. unfold bind, call, check.
  split; [|split; [|split]].
  - destruct (code _ =? 0); reflexivity.
  - by destruct (code _ =? 0).
  - unfold tally. cbn. by rewrite Hf.
  - unfold tally. cbn [List.filter]. rewrite (makes_call _ _ _ Hc).
    destruct (code _ =? 0); cbn; [|done].
    by destruct (N.eqb _ 0).
Qed.

Lemma supplies_withServerKey sk (fn : M cptr) :
  supplies fn -> supplies (withServerKey sk fn).
Proof.
  intros Hfn st.
  destruct (withServerKey_cases fn st sk) as [(r & -> & Hr)|(l & p & -> & Hl & Hp)].
  { exists []. cbn. rewrite app_nil_r. repeat split; try done.
    destruct r; [|done..]. destruct Hr. eauto. }
  rewrite (withServerKey_run _ _ _ _ Hl Hp). cbn zeta.
  destruct (code _ =? 0) eqn:Hc.
  - match goal with |- context [fn ?s] =>
      destruct (Hfn s) as (evs & Ht & Hh & Hu & Hm); destruct (fn s) as [r st1] end.
    cbn in *.
    exists ([LockOSThread; Call (set_server_key p) (reply (set_server_key p) (eng st))]
            ++ evs ++ [Call unset_server_key (reply unset_server_key (eng st1));
                       UnlockOSThread]).
    rewrite !tally_app, Hu, Hm.
    split; [by rewrite Ht, <- !app_assoc|]. split; [done|].
    split; [done|]. unfold tally. cbn. lia.
  - eexists. split; [cbn; rewrite <- !app_assoc; reflexivity|].
    split; [done|]. done.
Qed.

Lemma allocates_fail msg : allocates (fail msg).
Proof. intros st. exists []. cbn. by rewrite app_nil_r. Qed.

Lemma allocates_bind {A} (m : M A) (k : A -> M goptr) :
  aside m -> (forall a, allocates (k a)) -> allocates (bind m k).
Proof.
  intros Hm Hk st. destruct (Hm st) as (evs1 & Ht1 & Hh1 & Hm1 & Hu1).
  unfold bind. destruct (m st) as [[a|e|e] st1]; cbn in *; [|by eauto 10..].
  destruct (Hk a st1) as (evs2 & Ht2 & Hu2 & Hr2).
  exists (evs1 ++ evs2). rewrite !tally_app, Hm1, Hu1, Hu2.
  split; [by rewrite Ht2, Ht1, app_assoc|]. split; [done|].
  destruct (k a st1) as [[x|e|e] st2]; cbn in *; rewrite <- ?Hh1; done.
Qed.

Lemma allocates_new (m : M cptr) : supplies m -> allocates (out <- m ;; new_obj out).
Proof.
  intros Hm st. destruct (Hm st) as (evs & Ht & Hh & Hu & Hk).
  exists evs. unfold bind, new_obj.
  destruct (m st) as [[p|e|e] st1]; cbn in *; [|done..].
  split; [done|]. split; [done|]. exists p. by rewrite Hh.
Qed.

Lemma allocates_call f c context :
  creates c = Some f -> frees c = false ->
  allocates (r <- call c ;; do check (code r) context ;; new_obj (out_ptr r)).
Proof.
  intros Hc Hf st. eexists. unfold bind, call, check, new_obj.
  split; [|split].
  - destruct (code _ =? 0); reflexivity.
  - unfold tally. cbn. by rewrite Hf.
  - unfold tally. cbn [List.filter]. rewrite (makes_call _ _ _ Hc).
    destruct (code _ =? 0); cbn; [|done].
    eexists. split; [done|]. split; [done|]. by destruct (N.eqb _ 0).
Qed.

Ltac allocates_auto :=
  repeat first
    [ apply allocates_fail
    | eapply allocates_call; reflexivity
    | apply allocates_bind; [by aside_auto|intros ?]
    | match goal with
      | |- allocates (if ?b then _ else _) => destruct b
      | |- allocates (match ?x with _ => _ end) => destruct x
      end ].

Lemma allocates_deserialize s : allocates (deserialize s).
Proof. unfold deserialize, DeserializeCiphertext, deserialize_with. allocates_auto. Qed.

Lemma allocates_deserializeUint8 s : allocates (deserializeUint8 s).
Proof. unfold deserializeUint8, Uint8Deserialize, deserialize_with. allocates_auto. Qed.

Lemma allocates_EncryptBool client v : allocates (EncryptBool client v).
Proof. unfold EncryptBool. allocates_auto. Qed.

Lemma allocates_EncryptUint8 client v : allocates (EncryptUint8 client v).
Proof. unfold EncryptUint8. allocates_auto. Qed.

Lemma allocates_EncryptUint8Public pub v : allocates (EncryptUint8Public pub v).
Proof. unfold EncryptUint8Public. allocates_auto. Qed.

Lemma allocates_gate2 g context s l r :
  (forall a b c, creates (g a b c) = Some Boolean /\ frees (g a b c) = false) ->
  allocates (gate2 g context s l r).
Proof.
  intros Hg. unfold gate2.
  repeat first
    [ apply allocates_fail
    | eapply allocates_call; apply Hg
    | apply allocates_bind; [by aside_auto|intros ?]
    | match goal with
      | |- allocates (if ?b then _ else _) => destruct b
      end ].
Qed.

Lemma allocates_ServerKey_Not s i : allocates (ServerKey_Not s i).
Proof. unfold ServerKey_Not. allocates_auto. Qed.

Lemma allocates_uint8_binary g context l r :
  (forall a b, creates (g a b) = Some Uint8 /\ frees (g a b) = false) ->
  allocates (uint8_binary g context l r).
Proof.
  intros Hg. unfold uint8_binary.
  apply allocates_bind; [apply aside_is_nil|intros nl].
  apply allocates_bind; [destruct nl; aside_auto|intros nr].
  destruct nr; [apply allocates_fail|].
  apply allocates_bind; [by apply aside_pure|intros sk].
  apply allocates_new, supplies_withServerKey.
  apply supplies_bind; [apply aside_load|intros a].
  apply supplies_bind; [apply aside_load|intros b].
  eapply supplies_call; apply Hg.
Qed.

(** [x, err := create(); if err != nil { return }; defer x.Close(); rest] *)
Lemma exactly_once_block {A} destroy context (create : M goptr) (rest : goptr -> M A) :
  (forall p, frees (destroy p) = true /\ creates (destroy p) = None) ->
  allocates create -> (forall x, exactly_once (rest x)) ->
  exactly_once (x <- create ;; defer (close_with destroy context x) (rest x)).
Proof.
  intros Hd Hcreate Hrest st.
  destruct (Hcreate st) as (evs1 & Ht1 & Hu1 & Hr1).
  unfold bind. destruct (create st) as [[x|e|e] st1]; cbn [fst snd] in *.
  2,3: destruct Hr1 as [Hh1 Hm1]; exists evs1, []; rewrite app_nil_r, Hm1, Hu1; done.
  destruct Hr1 as (p & -> & Hh1 & Hm1).
  unfold defer. destruct (Hrest (Some (length (heap st))) st1)
    as (evs2 & news & Ht2 & Hh2 & Hbal).
  destruct (rest (Some (length (heap st))) st1) as [r st2]; cbn [fst snd] in *.
  assert (Hp : heap st2 !! length (heap st) = Some p).
  { rewrite Hh2, Hh1, <- app_assoc. by apply list_lookup_middle. }
  rewrite (close_with_run _ _ _ _ _ Hp).
  destruct (N.eqb p 0) eqn:Hnull.
  { destruct r; cbn.
    all: exists (evs1 ++ evs2), ([p] ++ news); split; [by rewrite Ht2, Ht1, app_assoc|].
    all: split; [by rewrite Hh2, Hh1, app_assoc|].
    all: rewrite !tally_app, Hm1, Hu1, Hbal; done. }
  cbn zeta. generalize (reply (destroy p) (eng st2)). intros r3.
  pose (ev := Call (destroy p) r3). fold ev.
  assert (Hev : tally makes [ev] = 0%nat /\ tally unmakes [ev] = 1%nat).
  { unfold tally, makes, ev. cbn. destruct (Hd p) as [-> ->]. done. }
  destruct Hev as [Hev1 Hev2].
  assert (Hbal3 : tally makes (evs1 ++ evs2 ++ [ev]) = tally unmakes (evs1 ++ evs2 ++ [ev])).
  { rewrite !tally_app, Hm1, Hu1, Hbal, Hev1, Hev2. lia. }
  destruct (code _ =? 0) eqn:Hcode.
  - assert (Hfin : exists evs news0,
        trace st2 ++ [ev] = trace st ++ evs /\
        <[length (heap st):=0%N]> (heap st2) = heap st ++ news0 /\
        tally makes evs = tally unmakes evs).
    { exists (evs1 ++ evs2 ++ [ev]), ([0%N] ++ news).
      split; [by rewrite Ht2, Ht1, <- !app_assoc|]. split; [|done].
      rewrite Hh2, Hh1, <- !app_assoc.
      rewrite insert_app_r_alt by lia. by rewrite Nat.sub_diag. }
    by destruct r.
  - assert (Hfin : exists evs news0,
        trace st2 ++ [ev] = trace st ++ evs /\
        heap st2 = heap st ++ news0 /\
        tally makes evs = tally unmakes evs).
    { exists (evs1 ++ evs2 ++ [ev]), ([p] ++ news).
      split; [by rewrite Ht2, Ht1, <- !app_assoc|].
      split; [by rewrite Hh2, Hh1, <- !app_assoc|done]. }
    by destruct r.
Qed.

Lemma exactly_once_boolean {A} (create : M goptr) (rest : goptr -> M A) :
  allocates create -> (forall x, exactly_once (rest x)) ->
  exactly_once (x <- create ;; defer (Ciphertext_Close x) (rest x)).
Proof. by apply exactly_once_block. Qed.

Lemma exactly_once_uint8 {A} (create : M goptr) (rest : goptr -> M A) :
  allocates create -> (forall x, exactly_once (rest x)) ->
  exactly_once (x <- create ;; defer (Uint8Ciphertext_Close x) (rest x)).
Proof. by apply exactly_once_block. Qed.

Lemma exactly_once_boolean_operations (bs : BooleanService) (lhs rhs : string) (b : bool) :
  exactly_once (EncryptBoolToBase64 bs b) /\
  exactly_once (DecryptBoolFromBase64 bs lhs) /\
  exactly_once (AndBase64 bs lhs rhs) /\
  exactly_once (OrBase64 bs lhs rhs) /\
  exactly_once (XorBase64 bs lhs rhs) /\
  exactly_once (NotBase64 bs lhs).
Proof.
  assert (Hbin : forall g context,
    (forall a b c, creates (g a b c) = Some Boolean /\ frees (g a b c) = false) ->
    exactly_once (binaryOp lhs rhs (gate2 g context (bs_server bs)))).
  { intros g context Hg. unfold binaryOp.
    apply exactly_once_boolean; [apply allocates_deserialize|intros l].
    apply exactly_once_boolean; [apply allocates_deserialize|intros r].
    apply exactly_once_boolean; [by apply allocates_gate2|intros out].
    apply aside_exactly_once, aside_serializeToBase64. }
  repeat apply conj.
  - apply exactly_once_boolean; [apply allocates_EncryptBool|intros ct].
    apply aside_exactly_once, aside_serializeToBase64.
  - apply exactly_once_boolean; [apply allocates_deserialize|intros ct].
    apply aside_exactly_once, aside_DecryptBool.
  - by apply Hbin.
  - by apply Hbin.
  - by apply Hbin.
  - apply exactly_once_boolean; [apply allocates_deserialize|intros ct].
    apply exactly_once_boolean; [apply allocates_ServerKey_Not|intros out].
    apply aside_exactly_once, aside_serializeToBase64.
Qed.

Lemma exactly_once_uint8_operations (us : Uint8Service) (lhs rhs : string) (v : Z) :
  exactly_once (Uint8Service_Encrypt us v) /\
  exactly_once (Uint8Service_EncryptWithPublic us v) /\
  exactly_once (Uint8Service_Decrypt us lhs) /\
  exactly_once (Uint8Service_Add us lhs rhs) /\
  exactly_once (Uint8Service_BitAnd us lhs rhs) /\
  exactly_once (Uint8Service_BitXor us lhs rhs).
Proof.
  assert (Hbin : forall g context,
    (forall a b, creates (g a b) = Some Uint8 /\ frees (g a b) = false) ->
    exactly_once (binaryUint8 lhs rhs (uint8_binary g context))).
  { intros g context Hg. unfold binaryUint8.
    apply exactly_once_uint8; [apply allocates_deserializeUint8|intros l].
    apply exactly_once_uint8; [apply allocates_deserializeUint8|intros r].
    apply exactly_once_uint8; [by apply allocates_uint8_binary|intros out].
    apply aside_exactly_once, aside_serializeUint8ToBase64. }
  repeat apply conj.
  - apply exactly_once_uint8; [apply allocates_EncryptUint8|intros ct].
    apply aside_exactly_once, aside_serializeUint8ToBase64.
  - apply exactly_once_uint8; [apply allocates_EncryptUint8Public|intros ct].
    apply aside_exactly_once, aside_serializeUint8ToBase64.
  - apply exactly_once_uint8; [apply allocates_deserializeUint8|intros ct].
    apply aside_exactly_once, aside_DecryptUint8.
  - by apply Hbin.
  - by apply Hbin.
  - by apply Hbin.
Qed.

(** No ciphertext is destroyed twice and none is left: in the events of
    every service operation, whatever its operands and on every exit
    path, the calls of the engine's destroy for ciphertexts are as many
    as the ciphertexts the engine created for the operation (one per
    wrapper whose pointer is not [NULL]); the operation destroys no
    ciphertext it has not created, and the wrappers that existed before
    are untouched. *)
Theorem ciphertexts_are_destroyed_once
    (bs : BooleanService) (us : Uint8Service) (lhs rhs : string) (b : bool) (v : Z) :
  (exactly_once (EncryptBoolToBase64 bs b) /\
   exactly_once (DecryptBoolFromBase64 bs lhs) /\
   exactly_once (AndBase64 bs lhs rhs) /\
   exactly_once (OrBase64 bs lhs rhs) /\
   exactly_once (XorBase64 bs lhs rhs) /\
   exactly_once (NotBase64 bs lhs)) /\
  (exactly_once (Uint8Service_Encrypt us v) /\
   exactly_once (Uint8Service_EncryptWithPublic us v) /\
   exactly_once (Uint8Service_Decrypt us lhs) /\
   exactly_once (Uint8Service_Add us lhs rhs) /\
   exactly_once (Uint8Service_BitAnd us lhs rhs) /\
   exactly_once (Uint8Service_BitXor us lhs rhs)).
Proof.
  split; [apply exactly_once_boolean_operations|apply exactly_once_uint8_operations].
Qed.

(** ** The server key of the integer service *)









(** ** The HTTP handlers *)

Lemma post_json_guard {Q A} (decode : string -> string + Q) (run : Q -> M A)
    (reply_body : A -> jobject) w r st :
  Method r <> MethodPost ->
  post_json decode run reply_body w r st
  = (Ok (WriteHeader StatusMethodNotAllowed w), st).
Proof.
  intros Hm%String.eqb_neq. unfold post_json. by rewrite Hm.
Qed.

Lemma post_json_bad {Q A} (decode : string -> string + Q) (run : Q -> M A)
    (reply_body : A -> jobject) w r st err :
  Method r = MethodPost -> decode (Body r) = inl err ->
  post_json decode run reply_body w r st
  = (Ok (writeError w StatusBadRequest err), st).
Proof.
  intros Hm%String.eqb_eq Hd. unfold post_json. by rewrite Hm, Hd.
Qed.

Lemma post_json_run {Q A} (decode : string -> string + Q) (run : Q -> M A)
    (reply_body : A -> jobject) w r st q :
  Method r = MethodPost -> decode (Body r) = inr q ->
  post_json decode run reply_body w r st =
  match run q st with
  | (Ok a, st') => (Ok (writeJSON w StatusOK (reply_body a)), st')
  | (Err e, st') => (Ok (writeError w StatusInternalServerError e), st')
  | (Panic e, st') => (Panic e, st')
  end.
Proof.
  intros Hm%String.eqb_eq Hd. unfold post_json. rewrite Hm, Hd. cbn.
  unfold bind, attempt. by destruct (run q st) as [[a|e|e] st'].
Qed.

Lemma post_json_effect {Q A} (decode : string -> string + Q) (run : Q -> M A)
    (reply_body : A -> jobject) w r st :
  (post_json decode run reply_body w r st).2 = st \/
  exists q, (post_json decode run reply_body w r st).2 = (run q st).2.
Proof.
  destruct (String.eqb (Method r) MethodPost) eqn:Hm.
  - apply String.eqb_eq in Hm. destruct (decode (Body r)) as [err|q] eqn:Hd.
    + left. by rewrite (post_json_bad _ _ _ _ _ _ _ Hm Hd).
    + right. exists q. rewrite (post_json_run _ _ _ _ _ _ _ Hm Hd).
      by destruct (run q st) as [[a|e|e] st'].
  - apply String.eqb_neq in Hm. left. by rewrite post_json_guard.
Qed.

Lemma scoped_post_json {Q A} (decode : string -> string + Q) (run : Q -> M A)
    (reply_body : A -> jobject) w r :
  (forall q, scoped (run q)) -> scoped (post_json decode run reply_body w r).
Proof.
  intros Hs st.
  destruct (post_json_effect decode run reply_body w r st) as [->|[q ->]].
  - exists [], []. by rewrite !app_nil_r.
  - apply Hs.
Qed.

Lemma keyed_post_json {Q A} (decode : string -> string + Q) (run : Q -> M A)
    (reply_body : A -> jobject) w r :
  (forall q, keyed (run q)) -> keyed (post_json decode run reply_body w r).
Proof.
  intros Hs st.
  destruct (post_json_effect decode run reply_body w r st) as [->|[q ->]].
  - exists []. by rewrite !app_nil_r.
  - apply Hs.
Qed.

Lemma writeJSON_fresh w status body :
  rw_status w = None ->
  rw_status (writeJSON w status body) = Some status /\
  rw_body (writeJSON w status body) = rw_body w ++ [body] /\
  In ("Content-Type", "application/json") (rw_header (writeJSON w status body)).
Proof.
  intros Hw. unfold writeJSON, Encode, WriteHeader, Header_Set. cbn.
  rewrite Hw. cbn. auto.
Qed.

Lemma answered_post_json {Q A} (decode : string -> string + Q) (run : Q -> M A)
    (reply_body : A -> jobject) w r st :
  (forall a e, reply_body a <> [("error", JString e)]) ->
  rw_status w = None ->
  match post_json decode run reply_body w r st with
  | (Ok w', _) => answered w w'
  | (Err _, _) => False
  | (Panic _, _) => True
  end.
Proof.
  intros Hb Hw.
  destruct (String.eqb (Method r) MethodPost) eqn:Hm.
  - apply String.eqb_eq in Hm. destruct (decode (Body r)) as [err|q] eqn:Hd.
    + rewrite (post_json_bad _ _ _ _ _ _ _ Hm Hd). right.
      destruct (writeJSON_fresh w StatusBadRequest [("error", JString err)] Hw)
        as (Hs & Hbody & Hh).
      eexists. split; [exact Hbody|]. split; [exact Hh|]. right. by eauto.
    + rewrite (post_json_run _ _ _ _ _ _ _ Hm Hd).
      destruct (run q st) as [[a|e|e] st']; [| |done].
      * right. destruct (writeJSON_fresh w StatusOK (reply_body a) Hw)
          as (Hs & Hbody & Hh).
        eexists. split; [exact Hbody|]. split; [exact Hh|]. left. by split.
      * right.
        destruct (writeJSON_fresh w StatusInternalServerError [("error", JString e)] Hw)
          as (Hs & Hbody & Hh).
        eexists. split; [exact Hbody|]. split; [exact Hh|]. right. by eauto.
  - apply String.eqb_neq in Hm. rewrite post_json_guard by done. left.
    unfold WriteHeader. by rewrite Hw.
Qed.

(** Every POST handler is an instance of the shared shape. *)
Lemma Handler_binaryOp_shape h w r fn :
  Handler_binaryOp h w r fn =
  post_json DecodeLeftRight (fun req => fn (fst req) (snd req))
    (fun ct => [("ciphertext", JString ct)]) w r.
Proof. reflexivity. Qed.

Lemma Handler_binaryOpUint8_shape h w r fn :
  Handler_binaryOpUint8 h w r fn =
  post_json DecodeLeftRight (fun req => fn (fst req) (snd req))
    (fun ct => [("ciphertext", JString ct)]) w r.
Proof. reflexivity. Qed.

(** The handlers with the request they decode, the service operation
    they run and the member their reply carries. *)
Lemma post_handlers_shape h f :
  In f (post_handlers h) ->
  (exists Q A (decode : string -> string + Q) (run : Q -> M A)
          (reply_body : A -> jobject),
     f = post_json decode run reply_body /\
     (forall a e, reply_body a <> [("error", JString e)]) /\
     (forall q, scoped (run q)) /\ (forall q, keyed (run q))).
Proof.
  intros Hin. cbn in Hin.
  assert (Hb1 : forall (a e : string),
            [("ciphertext", JString a)] <> [("error", JString e)]) by done.
  assert (Hb2 : forall (a : bool) (e : string),
            [("value", JBool a)] <> [("error", JString e)]) by done.
  assert (Hb3 : forall (a : Z) (e : string),
            [("value", JNumber a)] <> [("error", JString e)]) by done.
  pose proof (detached_boolean_operations (h_boolean h)) as Hdb.
  pose proof (detached_uint8_operations (h_uint8 h)) as Hdu.
  assert (Hscb : forall lhs rhs f0 context,
            (forall a b c, creates (f0 a b c) = Some Boolean) ->
            scoped (binaryOp lhs rhs (gate2 f0 context (bs_server (h_boolean h)))))
    by (intros; apply binaryOp_scoped; intros; by apply creator_gate2).
  assert (Hscu : forall lhs rhs f0 context,
            (forall a b, creates (f0 a b) = Some Uint8) ->
            scoped (binaryUint8 lhs rhs (uint8_binary f0 context)))
    by (intros; apply binaryUint8_scoped; intros; by apply creator_uint8_binary).
  assert (Hku : forall lhs rhs f0 context,
            (forall a b, ambient (f0 a b) = false) ->
            keyed (binaryUint8 lhs rhs (uint8_binary f0 context)))
    by (intros; apply binaryUint8_keyed; intros; by apply uint8_binary_keyed).
  destruct Hin as [<-|[<-|[<-|[<-|[<-|[<-|[<-|[<-|[<-|[<-|[<-|[<-|[]]]]]]]]]]]]].
  - exists bool, string, DecodeBoolValue, (EncryptBoolToBase64 (h_boolean h)),
      (fun ct => [("ciphertext", JString ct)]).
    split; [reflexivity|]. split; [done|]. split; intros q.
    + apply scoped_boolean; [apply creator_EncryptBool|intros ct].
      apply inert_scoped, inert_serializeToBase64.
    + apply detached_keyed_in, (Hdb "" "" q).
  - exists string, bool, DecodeCiphertext, (DecryptBoolFromBase64 (h_boolean h)),
      (fun v => [("value", JBool v)]).
    split; [reflexivity|]. split; [done|]. split; intros q.
    + apply scoped_boolean; [apply creator_deserialize|intros ct].
      apply inert_scoped, inert_DecryptBool.
    + apply detached_keyed_in, (Hdb q "" true).
  - exists (string * string)%type, string, DecodeLeftRight,
      (fun req => AndBase64 (h_boolean h) (fst req) (snd req)),
      (fun ct => [("ciphertext", JString ct)]).
    split; [reflexivity|]. split; [done|]. split; intros q.
    + by apply Hscb.
    + apply detached_keyed_in, (Hdb (fst q) (snd q) true).
  - exists (string * string)%type, string, DecodeLeftRight,
      (fun req => OrBase64 (h_boolean h) (fst req) (snd req)),
      (fun ct => [("ciphertext", JString ct)]).
    split; [reflexivity|]. split; [done|]. split; intros q.
    + by apply Hscb.
    + apply detached_keyed_in, (Hdb (fst q) (snd q) true).
  - exists (string * string)%type, string, DecodeLeftRight,
      (fun req => XorBase64 (h_boolean h) (fst req) (snd req)),
      (fun ct => [("ciphertext", JString ct)]).
    split; [reflexivity|]. split; [done|]. split; intros q.
    + by apply Hscb.
    + apply detached_keyed_in, (Hdb (fst q) (snd q) true).
  - exists string, string, DecodeCiphertext, (NotBase64 (h_boolean h)),
      (fun ct => [("ciphertext", JString ct)]).
    split; [reflexivity|]. split; [done|]. split; intros q.
    + apply scoped_boolean; [apply creator_deserialize|intros ct].
      apply scoped_boolean; [apply creator_ServerKey_Not|intros out].
      apply inert_scoped, inert_serializeToBase64.
    + apply detached_keyed_in, (Hdb q "" true).
  - exists Z, string, DecodeUint8Value, (Uint8Service_Encrypt (h_uint8 h)),
      (fun ct => [("ciphertext", JString ct)]).
    split; [reflexivity|]. split; [done|]. split; intros q.
    + apply scoped_uint8; [apply creator_EncryptUint8|intros ct].
      apply inert_scoped, inert_serializeUint8ToBase64.
    + apply detached_keyed_in, (Hdu "" q).
  - exists Z, string, DecodeUint8Value, (Uint8Service_EncryptWithPublic (h_uint8 h)),
      (fun ct => [("ciphertext", JString ct)]).
    split; [reflexivity|]. split; [done|]. split; intros q.
    + apply scoped_uint8; [apply creator_EncryptUint8Public|intros ct].
      apply inert_scoped, inert_serializeUint8ToBase64.
    + apply detached_keyed_in, (Hdu "" q).
  - exists string, Z, DecodeCiphertext, (Uint8Service_Decrypt (h_uint8 h)),
      (fun v => [("value", JNumber v)]).
    split; [reflexivity|]. split; [done|]. split; intros q.
    + apply scoped_uint8; [apply creator_deserializeUint8|intros ct].
      apply inert_scoped, inert_DecryptUint8.
    + apply detached_keyed_in, (Hdu q 0).
  - exists (string * string)%type, string, DecodeLeftRight,
      (fun req => Uint8Service_Add (h_uint8 h) (fst req) (snd req)),
      (fun ct => [("ciphertext", JString ct)]).
    split; [reflexivity|]. split; [done|]. split; intros q; [by apply Hscu|by apply Hku].
  - exists (string * string)%type, string, DecodeLeftRight,
      (fun req => Uint8Service_BitAnd (h_uint8 h) (fst req) (snd req)),
      (fun ct => [("ciphertext", JString ct)]).
    split; [reflexivity|]. split; [done|]. split; intros q; [by apply Hscu|by apply Hku].
  - exists (string * string)%type, string, DecodeLeftRight,
      (fun req => Uint8Service_BitXor (h_uint8 h) (fst req) (snd req)),
      (fun ct => [("ciphertext", JString ct)]).
    split; [reflexivity|]. split; [done|]. split; intros q; [by apply Hscu|by apply Hku].
Qed.

(** A request that is not a POST, or whose body the JSON decoder
    refuses, never reaches the service: every handler but [health]
    answers a method other than POST with status 405 and nothing else,
    and a POST whose body does not decode with status 400 and the
    decoder's error; in both cases the program state is untouched (no
    engine call, no wrapper allocated).  [health] answers every request
    with status 200. *)
Theorem requests_rejected_before_the_service (h : Handler) (w : ResponseWriter)
    (r : Request) (st : state E) :
  (forall f, In f (post_handlers h) -> Method r <> MethodPost ->
     f w r st = (Ok (WriteHeader StatusMethodNotAllowed w), st)) /\
  (Method r = MethodPost ->
   forall err,
     let bad := (Ok (writeError w StatusBadRequest err), st) in
     (DecodeBoolValue (Body r) = inl err -> Handler_encrypt h w r st = bad) /\
     (DecodeUint8Value (Body r) = inl err ->
        Handler_encryptUint8 h w r st = bad /\
        Handler_encryptUint8Public h w r st = bad) /\
     (DecodeCiphertext (Body r) = inl err ->
        Handler_decrypt h w r st = bad /\ Handler_not h w r st = bad /\
        Handler_decryptUint8 h w r st = bad) /\
     (DecodeLeftRight (Body r) = inl err ->
        Handler_and h w r st = bad /\ Handler_or h w r st = bad /\
        Handler_xor h w r st = bad /\ Handler_addUint8 h w r st = bad /\
        Handler_bitAndUint8 h w r st = bad /\ Handler_bitXorUint8 h w r st = bad)) /\
  Handler_health h w r st = (Ok (writeJSON w StatusOK [("status", JString "ok")]), st).
Proof.
  split; [|split; [|done]].
  - intros f Hin Hm.
    destruct (post_handlers_shape h f Hin) as (Q & A & d & run & b & -> & _).
    by apply post_json_guard.
  - intros Hm err. cbn zeta. split; [|split; [|split]]; intros Hd.
    + by apply (post_json_bad DecodeBoolValue).
    + split; by apply (post_json_bad DecodeUint8Value).
    + repeat apply conj; by apply (post_json_bad DecodeCiphertext).
    + repeat apply conj; by apply (post_json_bad DecodeLeftRight).
Qed.

(** Every handler answers: called with a response that has no status
    yet, it never returns an error of its own, and unless the service
    operation panics it sends exactly one status: 405 with no body and
    no header, or the JSON content type and one JSON object, which is an
    error object exactly when the status is 400 or 500 and a result
    object when the status is 200. *)
Theorem handlers_always_answer (h : Handler) (f : HandlerFunc)
    (w : ResponseWriter) (r : Request) (st : state E) :
  In f (map snd (routes h)) -> rw_status w = None ->
  match f w r st with
  | (Ok w', _) => answered w w'
  | (Err _, _) => False
  | (Panic _, _) => True
  end.
Proof.
  intros [<-|Hin] Hw.
  - cbn. right.
    destruct (writeJSON_fresh w StatusOK [("status", JString "ok")] Hw)
      as (Hs & Hbody & Hh).
    eexists. split; [exact Hbody|]. split; [exact Hh|]. left. by split.
  - destruct (post_handlers_shape h f Hin) as (Q & A & d & run & b & -> & Hb & _).
    by apply answered_post_json.
Qed.

(** No request leaves a ciphertext behind or a key bound: whatever the
    method and the body, every ciphertext the engine creates while a
    handler runs is handed to the engine's destroy before the handler
    returns, the wrappers that existed before are untouched, and the
    events of the handler take the lane from unbound back to unbound
    with every integer primitive called under a bound key. *)
Theorem handlers_release_and_unbind (h : Handler) (f : HandlerFunc)
    (w : ResponseWriter) (r : Request) :
  In f (map snd (routes h)) -> scoped (f w r) /\ keyed (f w r).
Proof.
  intros [<-|Hin].
  - split; intros st; cbn.
    + exists [], []. by rewrite !app_nil_r.
    + exists []. by rewrite !app_nil_r.
  - destruct (post_handlers_shape h f Hin) as (Q & A & d & run & b & -> & _ & Hs & Hk).
    split; [by apply scoped_post_json|by apply keyed_post_json].
Qed.

Lemma post_json_refused {Q A} (decode : string -> string + Q) (run : Q -> M A)
    (reply_body : A -> jobject) w r st q :
  Method r = MethodPost -> decode (Body r) = inr q ->
  is_err (run q st).1 -> heap (run q st).2 = heap st ->
  exists e st',
    post_json decode run reply_body w r st
      = (Ok (writeError w StatusInternalServerError e), st') /\
    heap st' = heap st.
Proof.
  intros Hm Hd He Hh. rewrite (post_json_run _ _ _ _ _ _ _ Hm Hd).
  destruct (run q st) as [[a|e|e] st']; cbn in *; try done. by eauto.
Qed.

Lemma block_rejected {A} de context text (k : goptr -> M A) st :
  rejected de st text ->
  let m := (ct <- (if String.eqb text "" then fail "ciphertext is empty" else
                   match DecodeString text with
                   | (_, Some err) => fail err
                   | (raw, None) => deserialize_with de context raw
                   end) ;; k ct) in
  is_err (m st).1 /\ heap (m st).2 = heap st.
Proof.
  intros Hrej. cbn zeta.
  destruct (text_rejected de context st text Hrej) as [He Hh]. cbn zeta in *.
  destruct (bind_is_err _ k st He) as [He' Hs']. split; [exact He'|].
  exact (eq_trans (f_equal heap Hs') Hh).
Qed.

(** A ciphertext text the codec cannot read is answered with status 500
    and an error object, not with 400: the empty text, text that is not
    base64 and bytes the engine's deserializer refuses all pass the JSON
    decoder and fail inside the service.  The handler does not panic and
    no wrapper is allocated.  For the binary operations it is enough
    that the left operand is such a text. *)
Theorem unreadable_ciphertext_is_a_server_error (h : Handler) (w : ResponseWriter)
    (r : Request) (st : state E) :
  Method r = MethodPost ->
  let refused (f : HandlerFunc) :=
    exists e st',
      f w r st = (Ok (writeError w StatusInternalServerError e), st') /\
      heap st' = heap st in
  (forall text, DecodeCiphertext (Body r) = inr text ->
     (rejected boolean_deserialize_ciphertext st text ->
        refused (Handler_decrypt h) /\ refused (Handler_not h)) /\
     (rejected fhe_uint8_deserialize st text -> refused (Handler_decryptUint8 h))) /\
  (forall lhs rhs, DecodeLeftRight (Body r) = inr (lhs, rhs) ->
     (rejected boolean_deserialize_ciphertext st lhs ->
        refused (Handler_and h) /\ refused (Handler_or h) /\ refused (Handler_xor h)) /\
     (rejected fhe_uint8_deserialize st lhs ->
        refused (Handler_addUint8 h) /\ refused (Handler_bitAndUint8 h) /\
        refused (Handler_bitXorUint8 h))).
Proof.
  intros Hm. cbn zeta. split.
  - intros text Hd. split; intros Hrej.
    + split.
      * apply (post_json_refused DecodeCiphertext _ _ _ _ _ _ Hm Hd);
          by apply (block_rejected boolean_deserialize_ciphertext).
      * apply (post_json_refused DecodeCiphertext _ _ _ _ _ _ Hm Hd);
          by apply (block_rejected boolean_deserialize_ciphertext).
    + apply (post_json_refused DecodeCiphertext _ _ _ _ _ _ Hm Hd);
        by apply (block_rejected fhe_uint8_deserialize).
  - intros lhs rhs Hd. split; intros Hrej.
    + repeat apply conj;
        apply (post_json_refused DecodeLeftRight _ _ _ _ _ _ Hm Hd);
        by apply (block_rejected boolean_deserialize_ciphertext).
    + repeat apply conj;
        apply (post_json_refused DecodeLeftRight _ _ _ _ _ _ Hm Hd);
        by apply (block_rejected fhe_uint8_deserialize).
Qed.

(** ** Registering the routes *)






(** ** Refusals of the engine *)

(** Runs a binding whose handles are live up to the status check of its
    engine call and closes the case of a refused call. *)
Ltac refuse :=
  intros Hc; apply Z.eqb_neq in Hc;
  repeat match goal with
  | H : ?l !! ?i = Some ?p |- context [?l !! ?i] => rewrite H
  | H : N.eqb ?p 0 = false |- context [N.eqb ?p 0] => rewrite H
  | H : (?a =? 0) = false |- context [?a =? 0] => rewrite H
  | _ => progress cbn
  end;
  try reflexivity.

(** A call the engine refuses (a non-zero status) is reported by the
    binding that made it: the binding returns the error made of the name
    of the operation and the status code, wraps no out-pointer, and
    leaves the Go heap and the holder as they were; a refused destroy
    leaves the wrapper's pointer in place.  For the integer binary
    operations a refused [set_server_key] is reported without calling
    the primitive and without [unset_server_key], and a refused primitive
    is reported after the key has been unset; in both cases the thread
    is unpinned. *)
Theorem engine_refusals_are_reported (st : state E) (l : nat) (p : cptr) :
  heap st !! l = Some p -> p <> 0%N ->
  ((forall v, refusal (boolean_client_key_encrypt p v) "encrypt bool"
                (EncryptBool (Some l) v) st) /\
   (forall v, refusal (fhe_uint8_try_encrypt_with_client_key_u8 (uint8 v) p)
                "encrypt uint8" (EncryptUint8 (Some l) v) st) /\
   (forall v, refusal (fhe_uint8_try_encrypt_with_public_key_u8 (uint8 v) p)
                "encrypt uint8 with public key" (EncryptUint8Public (Some l) v) st) /\
   refusal (public_key_new p) "new public key" (NewUint8PublicKey (Some l)) st) /\
  (refusal (boolean_destroy_client_key p) "destroy client key"
     (ClientKey_Close (Some l)) st /\
   refusal (boolean_destroy_server_key p) "destroy server key"
     (ServerKey_Close (Some l)) st /\
   refusal (boolean_destroy_ciphertext p) "destroy ciphertext"
     (Ciphertext_Close (Some l)) st /\
   refusal (client_key_destroy p) "destroy client key"
     (Uint8ClientKey_Close (Some l)) st /\
   refusal (public_key_destroy p) "destroy public key"
     (Uint8PublicKey_Close (Some l)) st /\
   refusal (fhe_uint8_destroy p) "destroy uint8 ciphertext"
     (Uint8Ciphertext_Close (Some l)) st) /\
  (forall l2 q, heap st !! l2 = Some q -> q <> 0%N ->
     refusal (boolean_client_key_decrypt p q) "decrypt bool"
       (DecryptBool (Some l) (Some l2)) st /\
     refusal (fhe_uint8_decrypt q p) "decrypt uint8"
       (DecryptUint8 (Some l) (Some l2)) st /\
     refusal (boolean_server_key_not p q) "boolean NOT"
       (ServerKey_Not (Some l) (Some l2)) st /\
     (forall l3 q3, heap st !! l3 = Some q3 -> q3 <> 0%N ->
        refusal (boolean_server_key_and p q q3) "boolean AND"
          (ServerKey_And (Some l) (Some l2) (Some l3)) st /\
        refusal (boolean_server_key_or p q q3) "boolean OR"
          (ServerKey_Or (Some l) (Some l2) (Some l3)) st /\
        refusal (boolean_server_key_xor p q q3) "boolean XOR"
          (ServerKey_Xor (Some l) (Some l2) (Some l3)) st)) /\
  (forall data, data <> [] ->
     refusal (boolean_deserialize_ciphertext data) "deserialize ciphertext"
       (DeserializeCiphertext data) st /\
     refusal (fhe_uint8_deserialize data) "deserialize uint8 ciphertext"
       (Uint8Deserialize data) st) /\
  (holder st = Some l ->
   forall op f context l1 q1 l2 q2,
     In (op, f, context) uint8_operations ->
     heap st !! l1 = Some q1 -> q1 <> 0%N ->
     heap st !! l2 = Some q2 -> q2 <> 0%N ->
     let b := reply (set_server_key p) (eng st) in
     let e1 := after (set_server_key p) (eng st) in
     let r := reply (f q1 q2) e1 in
     let e2 := after (f q1 q2) e1 in
     (code b <> 0 ->
      op (Some l1) (Some l2) st =
      (Err ("set server key: tfhe error code " +:+ itoa (code b)),
       mkState e1 (heap st) (holder st)
         (trace st ++ [LockOSThread; Call (set_server_key p) b; UnlockOSThread]))) /\
     (code b = 0 -> code r <> 0 ->
      op (Some l1) (Some l2) st =
      (Err (context +:+ ": tfhe error code " +:+ itoa (code r)),
       mkState (after unset_server_key e2) (heap st) (holder st)
         (trace st ++ [LockOSThread; Call (set_server_key p) b; Call (f q1 q2) r;
                       Call unset_server_key (reply unset_server_key e2);
                       UnlockOSThread])))).
Proof.
  intros Hl Hp. pose proof Hp as Hpz. apply N.eqb_neq in Hpz.
  split; [|split; [|split; [|split]]].
  - repeat apply conj; intros;
      unfold refusal, EncryptBool, EncryptUint8, EncryptUint8Public, NewUint8PublicKey,
        is_nil, bind, load, call, check, new_obj, ret, fail; refuse.
  - repeat apply conj;
      unfold refusal, ClientKey_Close, ServerKey_Close, Ciphertext_Close,
        Uint8ClientKey_Close, Uint8PublicKey_Close, Uint8Ciphertext_Close,
        close_with, is_nil, bind, load, call, check, store, ret, fail; refuse.
  - intros l2 q Hl2 Hq. pose proof Hq as Hqz. apply N.eqb_neq in Hqz.
    split; [|split; [|split]].
    + unfold refusal, DecryptBool, is_nil, bind, load, call, check, ret, fail. refuse.
    + unfold refusal, DecryptUint8, is_nil, bind, load, call, check, ret, fail. refuse.
    + unfold refusal, ServerKey_Not, is_nil, bind, load, call, check, new_obj, ret, fail.
      refuse.
    + intros l3 q3 Hl3 Hq3. pose proof Hq3 as Hq3z. apply N.eqb_neq in Hq3z.
      repeat apply conj;
        unfold refusal, ServerKey_And, ServerKey_Or, ServerKey_Xor, gate2,
          is_nil, bind, load, call, check, new_obj, ret, fail; refuse.
  - intros data Hd.
    assert (Hlen : (length data =? 0)%nat = false)
      by (destruct data; [done|reflexivity]).
    split;
      unfold refusal, DeserializeCiphertext, Uint8Deserialize, deserialize_with,
        bind, call, check, new_obj, ret, fail; rewrite Hlen; refuse.
  - intros Hh op f context l1 q1 l2 q2 Hin Hl1 Hq1 Hl2 Hq2. cbn zeta.
    assert (Hop : op = uint8_binary f context).
    { cbn in Hin. destruct Hin as [[= <- <- <-]|[[= <- <- <-]|[[= <- <- <-]|[]]]];
        reflexivity. }
    subst op. clear Hin.
    pose proof Hq1 as Hq1z. apply N.eqb_neq in Hq1z.
    pose proof Hq2 as Hq2z. apply N.eqb_neq in Hq2z.
    assert (Hrun : uint8_binary f context (Some l1) (Some l2) st =
              bind (withServerKey (Some l)
                      (a <- load (Some l1) ;; b <- load (Some l2) ;;
                       res <- call (f a b) ;;
                       do check (code res) context ;; ret (out_ptr res)))
                   new_obj st).
    { unfold uint8_binary, is_nil, defaultUint8ServerKey.
      unfold bind at 1 2 3 4 5 6. unfold load at 1. rewrite Hl1. cbn [ret].
      rewrite Hq1z. unfold bind at 1. unfold load at 1. rewrite Hl2. cbn [ret].
      rewrite Hq2z. by rewrite Hh. }
    rewrite Hrun. split.
    + intros Hb. apply Z.eqb_neq in Hb.
      unfold bind at 1. rewrite (withServerKey_run _ _ _ _ Hl Hp). cbn zeta.
      rewrite Hb. cbn. rewrite <- app_assoc. reflexivity.
    + intros Hb Hr. apply Z.eqb_eq in Hb. apply Z.eqb_neq in Hr.
      unfold bind at 1. rewrite (withServerKey_run _ _ _ _ Hl Hp). cbn zeta.
      rewrite Hb.
      unfold bind, load, call, check, ret, fail. cbn. rewrite Hl1. cbn.
      rewrite Hl2. cbn. rewrite Hr. cbn. rewrite <- !app_assoc. reflexivity.
Qed.

Section Contract.

Hypothesis contract : EngineContract.
Hypothesis base64 : Base64Contract.

Lemma keeps_refl st : keeps st st.
Proof. by repeat split. Qed.

Lemma keeps_trans st1 st2 st3 : keeps st1 st2 -> keeps st2 st3 -> keeps st1 st3.
Proof.
  intros (H1 & H2 & H3) (H4 & H5 & H6). repeat split; try congruence. auto.
Qed.

Lemma wraps_keeps st st' c x : keeps st st' -> wraps st c x -> wraps st' c x.
Proof.
  intros (_ & Hh & He) (l & p & -> & Hl & Hp). exists l, p. rewrite Hh. auto.
Qed.

Lemma wraps_grows st st' q c x : grows st st' q -> wraps st c x -> wraps st' c x.
Proof.
  intros (_ & Hh & He) (l & p & -> & Hl & Hp). exists l, p. rewrite Hh.
  split; [done|]. split; [by apply lookup_app_l_Some|auto].
Qed.

Lemma wraps_new st st' p x :
  grows st st' p -> holds (eng st') p x -> wraps st' (Some (length (heap st))) x.
Proof.
  intros (_ & Hh & _) Hp. exists (length (heap st)), p. rewrite Hh.
  split; [done|]. split; [by apply list_lookup_middle|done].
Qed.

Lemma is_nil_wraps st c x : wraps st c x -> is_nil c st = (Ok false, st).
Proof.
  intros (l & p & -> & Hl & Hp). unfold is_nil, bind, load, ret. rewrite Hl.
  apply (holds_nonnull contract) in Hp. by apply N.eqb_neq in Hp as ->.
Qed.

Lemma load_wraps st l p : heap st !! l = Some p -> load (Some l) st = (Ok p, st).
Proof. unfold load. by intros ->. Qed.

(** One engine call that consumes nothing. *)
Lemma call_keeps c st :
  consumes c = None ->
  keeps st (mkState (after c (eng st)) (heap st) (holder st)
              (trace st ++ [Call c (reply c (eng st))])).
Proof.
  intros Hc. repeat split. cbn. intros q y Hq.
  apply (holds_frame contract); [by rewrite Hc|done].
Qed.

(** *** Serialization *)

Lemma cint_small n : 0 <= n < 2 ^ 31 -> cint n = n.
Proof. intros H. unfold cint. rewrite Z.mod_small; lia. Qed.

Lemma serialize_with_spec ser context st c x :
  (forall p, consumes (ser p) = None) ->
  (forall e p, holds e p x ->
     code (reply (ser p) e) = 0 /\ encodes (out_buf (reply (ser p) e)) x) ->
  wraps st c x ->
  exists bs st',
    serialize_with ser context c st = (Ok bs, st') /\
    encodes bs x /\ keeps st st'.
Proof.
  intros Hcons Hlaw Hw. unfold serialize_with.
  rewrite (bind_ok _ _ _ _ _ (is_nil_wraps _ _ _ Hw)).
  destruct Hw as (l & p & -> & Hl & Hp).
  rewrite (bind_ok _ _ _ _ _ (load_wraps _ _ _ Hl)).
  destruct (Hlaw _ _ Hp) as [Hcode Henc].
  destruct (encodes_size contract _ _ Henc) as [Hne Hlen].
  unfold bind at 1, call at 1. unfold check. rewrite Hcode. cbn [negb Z.eqb].
  unfold bind at 1, ret at 1. unfold defer, call, GoBytes.
  set (buf := out_buf (reply (ser p) (eng st))) in *.
  assert (Hz : (Z.of_nat (length buf) =? 0) = false).
  { apply Z.eqb_neq. destruct buf; [done|]. cbn. lia. }
  rewrite Hz, cint_small by lia.
  assert (Hneg : (Z.of_nat (length buf) <? 0) = false) by (apply Z.ltb_ge; lia).
  rewrite Hneg. unfold ret. rewrite Nat2Z.id, firstn_all.
  eexists _, _. split; [reflexivity|]. split; [done|].
  eapply keeps_trans; [apply (call_keeps (ser p)); apply Hcons|].
  by apply (call_keeps (destroy_dynamic_buffer buf)).
Qed.

Lemma deserialize_with_spec de context st bs x :
  (forall d, consumes (de d) = None) ->
  (forall e, yields (de bs) e x) ->
  encodes bs x ->
  exists p st',
    deserialize_with de context bs st = (Ok (Some (length (heap st))), st') /\
    grows st st' p /\ holds (eng st') p x.
Proof.
  intros Hcons Hlaw Henc. unfold deserialize_with.
  destruct (encodes_size contract _ _ Henc) as [Hne _].
  destruct bs as [|b bs]; [done|]. cbn [length Nat.eqb].
  destruct (Hlaw (eng st)) as [Hcode Hp].
  unfold bind, call, check, new_obj, ret. rewrite Hcode. cbn.
  eexists _, _. split; [reflexivity|]. split; [|exact Hp].
  repeat split. cbn. intros q y Hq.
  apply (holds_frame contract); [by rewrite Hcons|done].
Qed.

(** *** Decryption *)

Lemma DecryptBool_spec st client ct k v :
  wraps st client (KBoolClient k) -> wraps st ct (CBool k v) ->
  exists st', DecryptBool client ct st = (Ok v, st') /\ keeps st st'.
Proof.
  intros Hck Hct. unfold DecryptBool.
  rewrite (bind_ok _ _ _ _ _ (is_nil_wraps _ _ _ Hck)).
  rewrite (bind_ok _ _ _ _ _ (is_nil_wraps _ _ _ Hct)).
  destruct Hck as (l & ck & -> & Hl & Hk). destruct Hct as (l' & p & -> & Hl' & Hp).
  rewrite (bind_ok _ _ _ _ _ (load_wraps _ _ _ Hl)).
  rewrite (bind_ok _ _ _ _ _ (load_wraps _ _ _ Hl')).
  destruct (law_boolean_decrypt contract _ _ _ _ _ Hk Hp) as [Hcode Hv].
  unfold bind, call, check, ret. rewrite Hcode, Hv. cbn.
  eexists. split; [reflexivity|]. by apply (call_keeps (boolean_client_key_decrypt ck p)).
Qed.

Lemma DecryptUint8_spec st client ct k v :
  wraps st client (KClient k) -> wraps st ct (CUint8 k v) ->
  exists st', DecryptUint8 client ct st = (Ok (uint8 v), st') /\ keeps st st'.
Proof.
  intros Hck Hct. unfold DecryptUint8.
  rewrite (bind_ok _ _ _ _ _ (is_nil_wraps _ _ _ Hck)).
  rewrite (bind_ok _ _ _ _ _ (is_nil_wraps _ _ _ Hct)).
  destruct Hck as (l & ck & -> & Hl & Hk). destruct Hct as (l' & p & -> & Hl' & Hp).
  rewrite (bind_ok _ _ _ _ _ (load_wraps _ _ _ Hl')).
  rewrite (bind_ok _ _ _ _ _ (load_wraps _ _ _ Hl)).
  destruct (law_uint8_decrypt contract _ _ _ _ _ Hk Hp) as [Hcode Hv].
  unfold bind, call, check, ret. rewrite Hcode, Hv. cbn.
  eexists. split; [reflexivity|]. by apply (call_keeps (fhe_uint8_decrypt p ck)).
Qed.

(** C1.  Under the engine's contract, for a ciphertext handle [c] that
    wraps a live ciphertext with plaintext [v] under key pair [k], and a
    client-key handle of the same pair: [Serialize] succeeds with some
    bytes, deserializing those bytes succeeds with a new handle, and
    decrypting the new handle yields the same plaintext as decrypting
    [c].  Boolean family first, integer family second. *)
Theorem serialize_deserialize_roundtrip (st : state E) (client c : goptr) (k : K) :
  (forall v,
     wraps st client (KBoolClient k) -> wraps st c (CBool k v) ->
     exists bs st1 c' st2,
       Ciphertext_Serialize c st = (Ok bs, st1) /\
       DeserializeCiphertext bs st1 = (Ok c', st2) /\
       (DecryptBool client c' st2).1 = Ok v /\
       (DecryptBool client c st).1 = Ok v) /\
  (forall v,
     wraps st client (KClient k) -> wraps st c (CUint8 k v) ->
     exists bs st1 c' st2,
       Uint8Serialize c st = (Ok bs, st1) /\
       Uint8Deserialize bs st1 = (Ok c', st2) /\
       (DecryptUint8 client c' st2).1 = Ok (uint8 v) /\
       (DecryptUint8 client c st).1 = Ok (uint8 v)).
Proof.
  split; intros v Hck Hct.
  - destruct (serialize_with_spec boolean_serialize_ciphertext
                "serialize ciphertext" st c (CBool k v))
      as (bs & st1 & Hser & Henc & Hk1); [done| |done|].
    { intros e p Hp. apply (law_boolean_serialize contract _ _ _ _ Hp). }
    destruct (deserialize_with_spec boolean_deserialize_ciphertext
                "deserialize ciphertext" st1 bs (CBool k v))
      as (p' & st2 & Hde & Hg2 & Hp'); [done| |done|].
    { intros e. by apply (law_boolean_deserialize contract). }
    exists bs, st1, (Some (length (heap st1))), st2.
    split; [exact Hser|]. split; [exact Hde|]. split.
    + destruct (DecryptBool_spec st2 client (Some (length (heap st1))) k v)
        as (st3 & -> & _); [|by eapply wraps_new|done].
      eapply wraps_grows; [exact Hg2|]. by eapply wraps_keeps.
    + by destruct (DecryptBool_spec st client c k v Hck Hct) as (st3 & -> & _).
  - destruct (serialize_with_spec fhe_uint8_serialize
                "serialize uint8 ciphertext" st c (CUint8 k v))
      as (bs & st1 & Hser & Henc & Hk1); [done| |done|].
    { intros e p Hp. apply (law_uint8_serialize contract _ _ _ _ Hp). }
    destruct (deserialize_with_spec fhe_uint8_deserialize
                "deserialize uint8 ciphertext" st1 bs (CUint8 k v))
      as (p' & st2 & Hde & Hg2 & Hp'); [done| |done|].
    { intros e. by apply (law_uint8_deserialize contract). }
    exists bs, st1, (Some (length (heap st1))), st2.
    split; [exact Hser|]. split; [exact Hde|]. split.
    + destruct (DecryptUint8_spec st2 client (Some (length (heap st1))) k v)
        as (st3 & -> & _); [|by eapply wraps_new|done].
      eapply wraps_grows; [exact Hg2|]. by eapply wraps_keeps.
    + by destruct (DecryptUint8_spec st client c k v Hck Hct) as (st3 & -> & _).
Qed.

(** *** Guarded key wrappers *)

Lemma guards_keeps G st st' : keeps st st' -> guards G st -> guards G st'.
Proof.
  intros (_ & Hh & He) HG. eapply Forall_impl; [exact HG|].
  intros [[l q] x] (Hk & Hl & Hq). rewrite Hh. auto.
Qed.

Lemma guards_grows G st st' p : grows st st' p -> guards G st -> guards G st'.
Proof.
  intros (_ & Hh & He) HG. eapply Forall_impl; [exact HG|].
  intros [[l q] x] (Hk & Hl & Hq). rewrite Hh.
  split; [done|]. split; [by apply lookup_app_l_Some|auto].
Qed.

(** A live ciphertext is apart from all guarded keys. *)
Lemma guards_apart G st p y :
  guards G st -> holds (eng st) p y -> is_key y = false -> apart G p.
Proof.
  intros HG Hp Hy. eapply Forall_impl; [exact HG|].
  intros [[l q] x] (Hk & Hl & Hq) Heq. cbn in *. subst q.
  rewrite (holds_fun contract _ _ _ _ Hq Hp) in Hk. congruence.
Qed.

Lemma guards_wraps G st l q x :
  guards G st -> In (l, q, x) G -> wraps st (Some l) x.
Proof.
  intros HG Hin. unfold guards in HG. rewrite Forall_forall in HG.
  destruct (HG _ (proj2 (list_elem_of_In _ _) Hin)) as (_ & Hl & Hq).
  by exists l, q.
Qed.

(** [defer x.Close()] around a body, for a wrapper whose pointer is apart
    from the guarded keys. *)
Lemma defer_close_guards {A} G destroy context (body : M A) st r st1 l p :
  (forall q, consumes (destroy q) = Some q) ->
  body st = (r, st1) -> heap st1 !! l = Some p ->
  guards G st1 -> apart G p ->
  exists st2,
    defer (close_with destroy context (Some l)) body st = (r, st2) /\
    guards G st2 /\ holder st2 = holder st1 /\
    forall l', l' <> l -> heap st2 !! l' = heap st1 !! l'.
Proof.
  intros Hcons Hbody Hl HG Hap. unfold defer. rewrite Hbody.
  rewrite (close_with_run _ _ _ _ _ Hl).
  destruct (N.eqb p 0); [by destruct r; eauto|]. cbn zeta.
  assert (HG' : forall h' tr,
    (forall l', l' <> l -> h' !! l' = heap st1 !! l') ->
    guards G (mkState (after (destroy p) (eng st1)) h' (holder st1) tr)).
  { intros h' tr Hh'. unfold guards, apart in *. rewrite Forall_forall in *.
    intros [[lg q] x] Hin. destruct (HG _ Hin) as (Hk & Hlg & Hq).
    specialize (Hap _ Hin). cbn in *. split; [done|].
    assert (lg <> l) by (intros ->; congruence).
    split; [by rewrite Hh'|].
    apply (holds_frame contract); [|done]. rewrite Hcons. congruence. }
  destruct (code _ =? 0).
  - eexists. split; [by destruct r|]. split; [|split; [done|]].
    + apply HG'. intros l' Hne. by apply list_lookup_insert_ne.
    + intros l' Hne. cbn. by apply list_lookup_insert_ne.
  - eexists. split; [by destruct r|]. split; [by apply HG'|]. done.
Qed.

(** [x, err := create(); ...; defer x.Close(); rest] when [create] and
    [rest] succeed. *)
Lemma scope_spec {A} G destroy context (create : M goptr) (rest : goptr -> M A)
    st p st1 r st2 :
  (forall q, consumes (destroy q) = Some q) ->
  create st = (Ok (Some (length (heap st))), st1) ->
  grows st st1 p -> apart G p ->
  rest (Some (length (heap st))) st1 = (Ok r, st2) ->
  guards G st2 -> holder st2 = holder st1 ->
  (forall l, (l < length (heap st1))%nat -> heap st2 !! l = heap st1 !! l) ->
  exists st3,
    (x <- create ;; defer (close_with destroy context x) (rest x)) st = (Ok r, st3) /\
    guards G st3 /\ holder st3 = holder st /\
    (forall l, (l < length (heap st))%nat -> heap st3 !! l = heap st !! l).
Proof.
  intros Hcons Hcreate (Hh1 & Hheap1 & _) Hap Hrest HG2 Hh2 Hold2.
  rewrite (bind_ok _ _ _ _ _ Hcreate).
  assert (Hl : heap st2 !! length (heap st) = Some p).
  { rewrite Hold2, Hheap1; [by apply list_lookup_middle|].
    rewrite Hheap1, length_app. cbn. lia. }
  destruct (defer_close_guards G destroy context _ _ _ _ _ _ Hcons Hrest Hl HG2 Hap)
    as (st3 & Hrun & HG3 & Hh3 & Hold3).
  exists st3. split; [exact Hrun|]. split; [done|]. split; [congruence|].
  intros l Hlt. rewrite Hold3 by lia. rewrite Hold2, Hheap1.
  - by apply lookup_app_l.
  - rewrite Hheap1, length_app. lia.
Qed.

(** *** Text encoding *)

Lemma encode_nonempty bs : bs <> [] -> String.eqb (EncodeToString bs) "" = false.
Proof.
  intros Hne. apply String.eqb_neq. intros Heq.
  pose proof (decode_encode base64 bs) as H1.
  pose proof (decode_encode base64 []) as H2.
  rewrite Heq in H1. rewrite (encode_nil base64) in H2. congruence.
Qed.

(** The two [deserialize] helpers of service.go on the encoding of valid
    bytes. *)
Lemma text_spec de context st bs x :
  (forall d, consumes (de d) = None) ->
  (forall e, yields (de bs) e x) ->
  encodes bs x ->
  exists p st',
    (if String.eqb (EncodeToString bs) "" then fail "ciphertext is empty" else
     match DecodeString (EncodeToString bs) with
     | (_, Some err) => fail err
     | (raw, None) => deserialize_with de context raw
     end) st = (Ok (Some (length (heap st))), st') /\
    grows st st' p /\ holds (eng st') p x.
Proof.
  intros Hcons Hlaw Henc.
  destruct (encodes_size contract _ _ Henc) as [Hne _].
  rewrite (encode_nonempty _ Hne), (decode_encode base64).
  by apply deserialize_with_spec.
Qed.

Lemma serialize_text_spec ser context st c x :
  (forall p, consumes (ser p) = None) ->
  (forall e p, holds e p x ->
     code (reply (ser p) e) = 0 /\ encodes (out_buf (reply (ser p) e)) x) ->
  wraps st c x ->
  exists bs st',
    (bytes <- serialize_with ser context c ;; ret (EncodeToString bytes)) st
      = (Ok (EncodeToString bs), st') /\
    encodes bs x /\ keeps st st'.
Proof.
  intros Hcons Hlaw Hw.
  destruct (serialize_with_spec ser context st c x Hcons Hlaw Hw)
    as (bs & st' & Hrun & Henc & Hk).
  exists bs, st'. by rewrite (bind_ok _ _ _ _ _ Hrun).
Qed.

(** A successful creating call followed by [check] and the allocation of
    the wrapper. *)
Lemma create_spec c context st x :
  consumes c = None -> yields c (eng st) x ->
  exists p st',
    (r <- call c ;; do check (code r) context ;; new_obj (out_ptr r)) st
      = (Ok (Some (length (heap st))), st') /\
    grows st st' p /\ holds (eng st') p x.
Proof.
  intros Hcons [Hcode Hp]. unfold bind, call, check, new_obj, ret.
  rewrite Hcode. cbn. eexists _, _. split; [reflexivity|]. split; [|exact Hp].
  repeat split. cbn. intros q y Hq.
  apply (holds_frame contract); [by rewrite Hcons|done].
Qed.

(** *** The boolean service *)

(** The guarded wrappers of a ready boolean service. *)
Lemma boolean_ready_guards k s st :
  boolean_ready k s st <->
  exists lc ck ls sk,
    bs_client s = Some lc /\ bs_server s = Some ls /\
    guards [(lc, ck, KBoolClient k); (ls, sk, KBoolServer k)] st.
Proof.
  unfold boolean_ready, wraps, guards. split.
  - intros [(lc & ck & Hc & Hlc & Hck) (ls & sk & Hs & Hls & Hsk)].
    exists lc, ck, ls, sk. repeat split; try done. repeat constructor; done.
  - intros (lc & ck & ls & sk & Hc & Hs & HG).
    apply Forall_cons in HG as [(_ & Hlc & Hck) HG].
    apply Forall_cons in HG as [(_ & Hls & Hsk) _].
    split; [by exists lc, ck|by exists ls, sk].
Qed.

Lemma NewBooleanService_spec st :
  exists s st' k, NewBooleanService st = (Ok s, st') /\ boolean_ready k s st'.
Proof.
  unfold NewBooleanService, GenerateBooleanKeys, bind, call, check, new_obj, ret.
  destruct (law_boolean_gen_keys contract (eng st)) as (Hcode & k & Hck & Hsk).
  cbn zeta in *. rewrite Hcode. cbn.
  eexists _, _, k. split; [reflexivity|]. split.
  - exists (length (heap st)), (out_ptr (reply boolean_gen_keys_with_default_parameters (eng st))).
    cbn. split; [done|]. split; [|done].
    rewrite <- app_assoc. by apply list_lookup_middle.
  - exists (length (heap st ++ [out_ptr (reply boolean_gen_keys_with_default_parameters (eng st))])),
      (out_ptr2 (reply boolean_gen_keys_with_default_parameters (eng st))).
    cbn. split; [done|]. split; [|done]. by apply list_lookup_middle.
Qed.

Lemma EncryptBool_spec st client k v :
  wraps st client (KBoolClient k) ->
  exists p st',
    EncryptBool client v st = (Ok (Some (length (heap st))), st') /\
    grows st st' p /\ holds (eng st') p (CBool k v).
Proof.
  intros Hck. unfold EncryptBool.
  rewrite (bind_ok _ _ _ _ _ (is_nil_wraps _ _ _ Hck)).
  destruct Hck as (l & ck & -> & Hl & Hk).
  rewrite (bind_ok _ _ _ _ _ (load_wraps _ _ _ Hl)).
  apply create_spec; [done|]. by apply (law_boolean_encrypt contract).
Qed.

Lemma gate2_spec f g context st s lhs rhs k a b :
  (forall sk l r, consumes (f sk l r) = None) ->
  (forall e sk l r,
     holds e sk (KBoolServer k) -> holds e l (CBool k a) -> holds e r (CBool k b) ->
     yields (f sk l r) e (CBool k (g a b))) ->
  wraps st s (KBoolServer k) -> wraps st lhs (CBool k a) -> wraps st rhs (CBool k b) ->
  exists p st',
    gate2 f context s lhs rhs st = (Ok (Some (length (heap st))), st') /\
    grows st st' p /\ holds (eng st') p (CBool k (g a b)).
Proof.
  intros Hcons Hlaw Hs Hl Hr. unfold gate2.
  rewrite (bind_ok _ _ _ _ _ (is_nil_wraps _ _ _ Hs)).
  rewrite (bind_ok _ _ _ _ _ (is_nil_wraps _ _ _ Hl)).
  rewrite (bind_ok _ _ _ _ _ (is_nil_wraps _ _ _ Hr)).
  destruct Hs as (ls & sk & -> & Hls & Hsk).
  destruct Hl as (ll & pl & -> & Hll & Hpl).
  destruct Hr as (lr & pr & -> & Hlr & Hpr).
  rewrite (bind_ok _ _ _ _ _ (load_wraps _ _ _ Hls)).
  rewrite (bind_ok _ _ _ _ _ (load_wraps _ _ _ Hll)).
  rewrite (bind_ok _ _ _ _ _ (load_wraps _ _ _ Hlr)).
  apply create_spec; [done|]. by apply Hlaw.
Qed.

Lemma ServerKey_Not_spec st s input k a :
  wraps st s (KBoolServer k) -> wraps st input (CBool k a) ->
  exists p st',
    ServerKey_Not s input st = (Ok (Some (length (heap st))), st') /\
    grows st st' p /\ holds (eng st') p (CBool k (negb a)).
Proof.
  intros Hs Hi. unfold ServerKey_Not.
  rewrite (bind_ok _ _ _ _ _ (is_nil_wraps _ _ _ Hs)).
  rewrite (bind_ok _ _ _ _ _ (is_nil_wraps _ _ _ Hi)).
  destruct Hs as (ls & sk & -> & Hls & Hsk).
  destruct Hi as (li & pi & -> & Hli & Hpi).
  rewrite (bind_ok _ _ _ _ _ (load_wraps _ _ _ Hls)).
  rewrite (bind_ok _ _ _ _ _ (load_wraps _ _ _ Hli)).
  apply create_spec; [done|]. by apply (law_boolean_not contract).
Qed.

Lemma deserialize_spec st bs k v :
  encodes bs (CBool k v) ->
  exists p st',
    deserialize (EncodeToString bs) st = (Ok (Some (length (heap st))), st') /\
    grows st st' p /\ holds (eng st') p (CBool k v).
Proof.
  intros Henc. apply text_spec; [done| |done].
  intros e. by apply (law_boolean_deserialize contract).
Qed.

Lemma serializeToBase64_spec st c k v :
  wraps st c (CBool k v) ->
  exists bs st',
    serializeToBase64 c st = (Ok (EncodeToString bs), st') /\
    encodes bs (CBool k v) /\ keeps st st'.
Proof.
  intros Hw. apply serialize_text_spec; [done| |done].
  intros e p Hp. by apply (law_boolean_serialize contract).
Qed.

Lemma grows_old st st' p l :
  grows st st' p -> (l < length (heap st))%nat -> heap st' !! l = heap st !! l.
Proof. intros (_ & -> & _) Hl. by apply lookup_app_l. Qed.

Lemma keeps_old st st' (l : nat) : keeps st st' -> heap st' !! l = heap st !! l.
Proof. by intros (_ & -> & _). Qed.

Lemma EncryptBoolToBase64_spec k s st v :
  boolean_ready k s st ->
  exists bs st',
    EncryptBoolToBase64 s v st = (Ok (EncodeToString bs), st') /\
    encodes bs (CBool k v) /\ boolean_ready k s st' /\ holder st' = holder st.
Proof.
  intros Hready. pose proof Hready as [Hck Hsk].
  apply boolean_ready_guards in Hready as (lc & ck & ls & sk & Hc & Hs & HG).
  destruct (EncryptBool_spec st (bs_client s) k v Hck) as (p & st1 & Hrun1 & Hg1 & Hp1).
  pose proof (guards_grows _ _ _ _ Hg1 HG) as HG1.
  destruct (serializeToBase64_spec st1 (Some (length (heap st))) k v)
    as (bs & st2 & Hrun2 & Henc & Hk2); [by eapply wraps_new|].
  destruct (scope_spec _ boolean_destroy_ciphertext "destroy ciphertext"
              (EncryptBool (bs_client s) v) serializeToBase64
              st p st1 _ st2 ltac:(done) Hrun1 Hg1
              (guards_apart _ _ _ _ HG1 Hp1 eq_refl) Hrun2
              (guards_keeps _ _ _ Hk2 HG1))
    as (st3 & Hrun & HG3 & Hh3 & _).
  { by destruct Hk2. }
  { intros l _. by apply keeps_old. }
  exists bs, st3. split; [exact Hrun|]. split; [done|]. split; [|done].
  apply boolean_ready_guards. by exists lc, ck, ls, sk.
Qed.

Lemma DecryptBoolFromBase64_spec k s st bs v :
  boolean_ready k s st -> encodes bs (CBool k v) ->
  exists st',
    DecryptBoolFromBase64 s (EncodeToString bs) st = (Ok v, st') /\
    boolean_ready k s st' /\ holder st' = holder st.
Proof.
  intros Hready Henc. pose proof Hready as [Hck Hsk].
  apply boolean_ready_guards in Hready as (lc & ck & ls & sk & Hc & Hs & HG).
  destruct (deserialize_spec st bs k v Henc) as (p & st1 & Hrun1 & Hg1 & Hp1).
  pose proof (guards_grows _ _ _ _ Hg1 HG) as HG1.
  destruct (DecryptBool_spec st1 (bs_client s) (Some (length (heap st))) k v)
    as (st2 & Hrun2 & Hk2); [by eapply wraps_grows|by eapply wraps_new|].
  destruct (scope_spec _ boolean_destroy_ciphertext "destroy ciphertext"
              (deserialize (EncodeToString bs)) (DecryptBool (bs_client s))
              st p st1 _ st2 ltac:(done) Hrun1 Hg1
              (guards_apart _ _ _ _ HG1 Hp1 eq_refl) Hrun2
              (guards_keeps _ _ _ Hk2 HG1))
    as (st3 & Hrun & HG3 & Hh3 & _).
  { by destruct Hk2. }
  { intros l _. by apply keeps_old. }
  exists st3. split; [exact Hrun|]. split; [|done].
  apply boolean_ready_guards. by exists lc, ck, ls, sk.
Qed.

(** *** The shape shared by [binaryOp] and [binaryUint8] *)

Lemma binary_spec G destroy context (des : string -> M goptr)
    (ser : goptr -> M string) (op : goptr -> goptr -> M goptr) st bl br xa xb xr :
  (forall q, consumes (destroy q) = Some q) ->
  is_key xa = false -> is_key xb = false -> is_key xr = false ->
  (forall st0 bs x, x = xa \/ x = xb -> encodes bs x ->
     exists p st', des (EncodeToString bs) st0 = (Ok (Some (length (heap st0))), st') /\
                   grows st0 st' p /\ holds (eng st') p x) ->
  (forall st0 c, wraps st0 c xr ->
     exists bs st', ser c st0 = (Ok (EncodeToString bs), st') /\
                    encodes bs xr /\ keeps st0 st') ->
  (forall st0 x y, guards G st0 -> holder st0 = holder st ->
     wraps st0 x xa -> wraps st0 y xb ->
     exists p st', op x y st0 = (Ok (Some (length (heap st0))), st') /\
                   grows st0 st' p /\ holds (eng st') p xr) ->
  guards G st -> encodes bl xa -> encodes br xb ->
  exists bs st',
    (lhs <- des (EncodeToString bl) ;;
     defer (close_with destroy context lhs)
       (rhs <- des (EncodeToString br) ;;
        defer (close_with destroy context rhs)
          (out <- op lhs rhs ;;
           defer (close_with destroy context out) (ser out)))) st
    = (Ok (EncodeToString bs), st') /\
    encodes bs xr /\ guards G st' /\ holder st' = holder st.
Proof.
  intros Hcons Hka Hkb Hkr Hdes Hser Hop HG Hea Heb.
  (* forward: the states the three creations and the serialization reach *)
  destruct (Hdes st bl xa (or_introl eq_refl) Hea) as (p1 & st1 & Hrun1 & Hg1 & Hp1).
  pose proof (guards_grows _ _ _ _ Hg1 HG) as HG1.
  destruct (Hdes st1 br xb (or_intror eq_refl) Heb) as (p2 & st2 & Hrun2 & Hg2 & Hp2).
  pose proof (guards_grows _ _ _ _ Hg2 HG1) as HG2.
  assert (Hx2 : wraps st2 (Some (length (heap st))) xa).
  { eapply wraps_grows; [exact Hg2|]. by eapply wraps_new. }
  assert (Hy2 : wraps st2 (Some (length (heap st1))) xb) by (by eapply wraps_new).
  assert (Hh2 : holder st2 = holder st).
  { destruct Hg1 as (Hh1 & _), Hg2 as (Hh2 & _). congruence. }
  destruct (Hop st2 _ _ HG2 Hh2 Hx2 Hy2) as (p3 & st3 & Hrun3 & Hg3 & Hp3).
  pose proof (guards_grows _ _ _ _ Hg3 HG2) as HG3.
  destruct (Hser st3 (Some (length (heap st2)))) as (bs & st4 & Hrun4 & Hebs & Hk4);
    [by eapply wraps_new|].
  (* backward: close the three scopes *)
  destruct (scope_spec G destroy context
              (op (Some (length (heap st))) (Some (length (heap st1)))) ser
              st2 p3 st3 _ st4 Hcons Hrun3 Hg3
              (guards_apart _ _ _ _ HG3 Hp3 Hkr) Hrun4 (guards_keeps _ _ _ Hk4 HG3))
    as (st5 & Hrun5 & HG5 & Hh5 & Hold5).
  { by destruct Hk4. }
  { intros l _. by apply keeps_old. }
  destruct (scope_spec G destroy context (des (EncodeToString br))
              (fun rhs => out <- op (Some (length (heap st))) rhs ;;
                          defer (close_with destroy context out) (ser out))
              st1 p2 st2 _ st5 Hcons Hrun2 Hg2
              (guards_apart _ _ _ _ HG2 Hp2 Hkb) Hrun5 HG5 Hh5 Hold5)
    as (st6 & Hrun6 & HG6 & Hh6 & Hold6).
  destruct (scope_spec G destroy context (des (EncodeToString bl))
              (fun lhs => rhs <- des (EncodeToString br) ;;
                 defer (close_with destroy context rhs)
                   (out <- op lhs rhs ;;
                    defer (close_with destroy context out) (ser out)))
              st p1 st1 _ st6 Hcons Hrun1 Hg1
              (guards_apart _ _ _ _ HG1 Hp1 Hka) Hrun6 HG6 Hh6 Hold6)
    as (st7 & Hrun7 & HG7 & Hh7 & _).
  exists bs, st7. done.
Qed.

Lemma binaryOp_spec f g context k s st bl br a b :
  (forall sk l r, consumes (f sk l r) = None) ->
  (forall e sk l r,
     holds e sk (KBoolServer k) -> holds e l (CBool k a) -> holds e r (CBool k b) ->
     yields (f sk l r) e (CBool k (g a b))) ->
  boolean_ready k s st -> encodes bl (CBool k a) -> encodes br (CBool k b) ->
  exists bs st',
    binaryOp (EncodeToString bl) (EncodeToString br)
      (gate2 f context (bs_server s)) st = (Ok (EncodeToString bs), st') /\
    encodes bs (CBool k (g a b)) /\ boolean_ready k s st' /\ holder st' = holder st.
Proof.
  intros Hcons Hlaw Hready Hea Heb.
  apply boolean_ready_guards in Hready as (lc & ck & ls & sk & Hc & Hs & HG).
  destruct (binary_spec [(lc, ck, KBoolClient k); (ls, sk, KBoolServer k)]
              boolean_destroy_ciphertext "destroy ciphertext"
              deserialize serializeToBase64 (gate2 f context (bs_server s))
              st bl br (CBool k a) (CBool k b) (CBool k (g a b)))
    as (bs & st' & Hrun & Henc & HG' & Hh'); try done.
  - intros st0 bs x [-> | ->] Hx; by apply deserialize_spec.
  - intros st0 c Hw. by apply serializeToBase64_spec.
  - intros st0 x y HG0 _ Hx Hy. eapply gate2_spec; try done.
    rewrite Hs. eapply guards_wraps; [exact HG0|]. cbn. auto.
  - exists bs, st'. split; [exact Hrun|]. split; [done|]. split; [|done].
    apply boolean_ready_guards. by exists lc, ck, ls, sk.
Qed.

Lemma NotBase64_spec k s st bs a :
  boolean_ready k s st -> encodes bs (CBool k a) ->
  exists bs' st',
    NotBase64 s (EncodeToString bs) st = (Ok (EncodeToString bs'), st') /\
    encodes bs' (CBool k (negb a)) /\ boolean_ready k s st' /\ holder st' = holder st.
Proof.
  intros Hready Henc. pose proof Hready as [Hck Hsk].
  apply boolean_ready_guards in Hready as (lc & ck & ls & sk & Hc & Hs & HG).
  destruct (deserialize_spec st bs k a Henc) as (p1 & st1 & Hrun1 & Hg1 & Hp1).
  pose proof (guards_grows _ _ _ _ Hg1 HG) as HG1.
  destruct (ServerKey_Not_spec st1 (bs_server s) (Some (length (heap st))) k a)
    as (p2 & st2 & Hrun2 & Hg2 & Hp2); [by eapply wraps_grows|by eapply wraps_new|].
  pose proof (guards_grows _ _ _ _ Hg2 HG1) as HG2.
  destruct (serializeToBase64_spec st2 (Some (length (heap st1))) k (negb a))
    as (bs' & st3 & Hrun3 & Henc' & Hk3); [by eapply wraps_new|].
  destruct (scope_spec _ boolean_destroy_ciphertext "destroy ciphertext"
              (ServerKey_Not (bs_server s) (Some (length (heap st)))) serializeToBase64
              st1 p2 st2 _ st3 ltac:(done) Hrun2 Hg2
              (guards_apart _ _ _ _ HG2 Hp2 eq_refl) Hrun3 (guards_keeps _ _ _ Hk3 HG2))
    as (st4 & Hrun4 & HG4 & Hh4 & Hold4).
  { by destruct Hk3. }
  { intros l _. by apply keeps_old. }
  destruct (scope_spec _ boolean_destroy_ciphertext "destroy ciphertext"
              (deserialize (EncodeToString bs))
              (fun ct => out <- ServerKey_Not (bs_server s) ct ;;
                         defer (Ciphertext_Close out) (serializeToBase64 out))
              st p1 st1 _ st4 ltac:(done) Hrun1 Hg1
              (guards_apart _ _ _ _ HG1 Hp1 eq_refl) Hrun4 HG4 Hh4 Hold4)
    as (st5 & Hrun5 & HG5 & Hh5 & _).
  exists bs', st5. split; [exact Hrun5|]. split; [done|]. split; [|done].
  apply boolean_ready_guards. by exists lc, ck, ls, sk.
Qed.

Lemma gate_scenario_spec f g context k s st a b :
  (forall sk l r, consumes (f sk l r) = None) ->
  (forall e sk l r a b,
     holds e sk (KBoolServer k) -> holds e l (CBool k a) -> holds e r (CBool k b) ->
     yields (f sk l r) e (CBool k (g a b))) ->
  boolean_ready k s st ->
  exists st',
    gate_scenario (fun s l r => binaryOp l r (gate2 f context (bs_server s))) s a b st
      = (Ok (g a b), st') /\ boolean_ready k s st'.
Proof.
  intros Hcons Hlaw Hready. unfold gate_scenario.
  destruct (EncryptBoolToBase64_spec k s st a Hready) as (ba & st1 & Hrun_1 & Ha & Hr1 & _).
    rewrite (bind_ok _ _ _ _ _ Hrun_1).
  destruct (EncryptBoolToBase64_spec k s st1 b Hr1) as (bb & st2 & Hrun_2 & Hb & Hr2 & _).
    rewrite (bind_ok _ _ _ _ _ Hrun_2).
  destruct (binaryOp_spec f g context k s st2 ba bb a b Hcons (fun e sk l r => Hlaw e sk l r a b) Hr2 Ha Hb)
    as (bc & st3 & Hrun_3 & Hc & Hr3 & _).
    rewrite (bind_ok _ _ _ _ _ Hrun_3).
  destruct (DecryptBoolFromBase64_spec k s st3 bc (g a b) Hr3 Hc) as (st4 & -> & Hr4 & _).
  by exists st4.
Qed.

(** C3.  Under the engine's contract a new boolean service is ready, and
    for a ready service and all booleans [a], [b]: encrypting [a] and
    [b], applying [AndBase64] to the two texts and decrypting the result
    yields [a && b]; likewise [OrBase64] yields [a || b], [XorBase64]
    yields [a != b] and [NotBase64] of the encryption of [a] decrypts to
    [!a].  Every operation leaves the service ready. *)
Theorem boolean_gates_correct (s : BooleanService) (st : state E) (k : K) (a b : bool) :
  boolean_ready k s st ->
  (exists st', gate_scenario AndBase64 s a b st = (Ok (a && b), st') /\
               boolean_ready k s st') /\
  (exists st', gate_scenario OrBase64 s a b st = (Ok (a || b), st') /\
               boolean_ready k s st') /\
  (exists st', gate_scenario XorBase64 s a b st = (Ok (xorb a b), st') /\
               boolean_ready k s st') /\
  (exists st', not_scenario s a st = (Ok (negb a), st') /\
               boolean_ready k s st') /\
  (forall st0, exists s0 st1 k0,
     NewBooleanService st0 = (Ok s0, st1) /\ boolean_ready k0 s0 st1).
Proof.
  intros Hready. split; [|split; [|split; [|split]]].
  - apply (gate_scenario_spec boolean_server_key_and andb "boolean AND"); try done.
    intros. by apply (law_boolean_and contract).
  - apply (gate_scenario_spec boolean_server_key_or orb "boolean OR"); try done.
    intros. by apply (law_boolean_or contract).
  - apply (gate_scenario_spec boolean_server_key_xor xorb "boolean XOR"); try done.
    intros. by apply (law_boolean_xor contract).
  - unfold not_scenario.
    destruct (EncryptBoolToBase64_spec k s st a Hready) as (ba & st1 & Hrun_4 & Ha & Hr1 & _).
    rewrite (bind_ok _ _ _ _ _ Hrun_4).
    destruct (NotBase64_spec k s st1 ba a Hr1 Ha) as (bc & st2 & Hrun_5 & Hc & Hr2 & _).
    rewrite (bind_ok _ _ _ _ _ Hrun_5).
    destruct (DecryptBoolFromBase64_spec k s st2 bc (negb a) Hr2 Hc) as (st3 & -> & Hr3 & _).
    by exists st3.
  - apply NewBooleanService_spec.
Qed.

(** *** The integer service *)

Lemma land_range a b : 0 <= a < 256 -> 0 <= b < 256 -> 0 <= Z.land a b < 256.
Proof.
  intros Ha Hb. split; [apply Z.land_nonneg; lia|].
  destruct (Z.eq_dec (Z.land a b) 0) as [->|Hne]; [lia|].
  assert (0 <= Z.land a b) by (apply Z.land_nonneg; lia).
  apply (Z.log2_lt_pow2 _ 8); [lia|].
  pose proof (Z.log2_land a b ltac:(lia) ltac:(lia)).
  assert (Z.log2 a < 8).
  { destruct (Z.eq_dec a 0) as [->|]; [cbn; lia|]. apply Z.log2_lt_pow2; lia. }
  lia.
Qed.

Lemma lxor_range a b : 0 <= a < 256 -> 0 <= b < 256 -> 0 <= Z.lxor a b < 256.
Proof.
  intros Ha Hb. split; [apply Z.lxor_nonneg; lia|].
  destruct (Z.eq_dec (Z.lxor a b) 0) as [->|Hne]; [lia|].
  assert (0 < Z.lxor a b) by (pose proof (proj2 (Z.lxor_nonneg a b)); lia).
  apply (Z.log2_lt_pow2 _ 8); [lia|].
  pose proof (Z.log2_lxor a b ltac:(lia) ltac:(lia)).
  assert (Z.log2 a < 8).
  { destruct (Z.eq_dec a 0) as [->|]; [cbn; lia|]. apply Z.log2_lt_pow2; lia. }
  assert (Z.log2 b < 8).
  { destruct (Z.eq_dec b 0) as [->|]; [cbn; lia|]. apply Z.log2_lt_pow2; lia. }
  lia.
Qed.

Lemma uint8_id v : 0 <= v < 256 -> uint8 v = v.
Proof. intros H. unfold uint8. by apply Z.mod_small. Qed.

Lemma uint8_ready_guards k s st :
  uint8_ready k s st <->
  exists lc ck lp pk ls sk,
    us_client s = Some lc /\ us_public s = Some lp /\ holder st = Some ls /\
    guards [(lc, ck, KClient k); (lp, pk, KPublic k); (ls, sk, KServer k)] st.
Proof.
  unfold uint8_ready, wraps, guards. split.
  - intros [(lc & ck & Hc & Hlc & Hck) [(lp & pk & Hp & Hlp & Hpk) (ls & sk & Hs & Hls & Hsk)]].
    exists lc, ck, lp, pk, ls, sk. repeat split; try done. repeat constructor; done.
  - intros (lc & ck & lp & pk & ls & sk & Hc & Hp & Hs & HG).
    apply Forall_cons in HG as [(_ & Hlc & Hck) HG].
    apply Forall_cons in HG as [(_ & Hlp & Hpk) HG].
    apply Forall_cons in HG as [(_ & Hls & Hsk) _].
    split; [by exists lc, ck|]. split; [by exists lp, pk|by exists ls, sk].
Qed.

Lemma NewUint8Service_spec st :
  exists s st' k, NewUint8Service st = (Ok s, st') /\ uint8_ready k s st'.
Proof.
  unfold NewUint8Service, GenerateUint8Keys, NewUint8PublicKey,
    setServerKeyHolder, is_nil.
  unfold bind, call, check, new_obj, load, ret.
  destruct (law_config_builder_default contract (eng st)) as [Hc1 Hb].
  rewrite Hc1. cbn.
  destruct (law_config_builder_build contract _ _ Hb) as [Hc2 Hcfg].
  rewrite Hc2. cbn.
  destruct (law_generate_keys contract _ _ Hcfg) as (Hc3 & k & Hck & Hsk).
  cbn zeta in *. rewrite Hc3. cbn.
  destruct (law_set_server_key contract _ _ _ Hsk) as [Hc4 _].
  cbn zeta in *. rewrite Hc4. cbn.
  set (e4 := after (set_server_key _) _) in *.
  set (ck := out_ptr (reply (generate_keys _) _)) in *.
  set (sk := out_ptr2 (reply (generate_keys _) _)) in *.
  assert (Hck4 : holds e4 ck (KClient k))
    by (apply (holds_frame contract); done).
  assert (Hsk4 : holds e4 sk (KServer k))
    by (apply (holds_frame contract); done).
  rewrite lookup_app_l by (rewrite length_app; cbn; lia).
  rewrite list_lookup_middle by done.
  pose proof (holds_nonnull contract _ _ _ Hck4) as Hnn.
  apply N.eqb_neq in Hnn. rewrite Hnn. cbn.
  rewrite lookup_app_l by (rewrite length_app; cbn; lia).
  rewrite list_lookup_middle by done. cbn.
  destruct (law_public_key_new contract _ _ _ Hck4) as [Hc5 Hpk].
  rewrite Hc5. cbn.
  eexists _, _, k. split; [reflexivity|].
  set (e5 := after (public_key_new ck) e4) in *.
  assert (Hck5 : holds e5 ck (KClient k))
    by (apply (holds_frame contract); done).
  assert (Hsk5 : holds e5 sk (KServer k))
    by (apply (holds_frame contract); done).
  unfold uint8_ready, wraps. cbn. split; [|split].
  - exists (length (heap st)), ck. split; [done|]. split; [|done].
    rewrite <- !app_assoc. by apply list_lookup_middle.
  - exists (length ((heap st ++ [ck]) ++ [sk])), (out_ptr (reply (public_key_new ck) e4)).
    split; [done|]. split; [|done]. by apply list_lookup_middle.
  - exists (length (heap st ++ [ck])), sk. split; [done|]. split; [|done].
    rewrite lookup_app_l by (rewrite !length_app; cbn; lia).
    by apply list_lookup_middle.
Qed.

Lemma EncryptUint8_spec st client k v :
  wraps st client (KClient k) ->
  exists p st',
    EncryptUint8 client v st = (Ok (Some (length (heap st))), st') /\
    grows st st' p /\ holds (eng st') p (CUint8 k (uint8 v)).
Proof.
  intros Hck. unfold EncryptUint8.
  rewrite (bind_ok _ _ _ _ _ (is_nil_wraps _ _ _ Hck)).
  destruct Hck as (l & ck & -> & Hl & Hk).
  rewrite (bind_ok _ _ _ _ _ (load_wraps _ _ _ Hl)).
  apply create_spec; [done|]. apply (law_uint8_encrypt contract); [done|].
  unfold uint8. apply Z.mod_pos_bound. lia.
Qed.

Lemma deserializeUint8_spec st bs k v :
  encodes bs (CUint8 k v) ->
  exists p st',
    deserializeUint8 (EncodeToString bs) st = (Ok (Some (length (heap st))), st') /\
    grows st st' p /\ holds (eng st') p (CUint8 k v).
Proof.
  intros Henc. apply text_spec; [done| |done].
  intros e. by apply (law_uint8_deserialize contract).
Qed.

Lemma serializeUint8ToBase64_spec st c k v :
  wraps st c (CUint8 k v) ->
  exists bs st',
    serializeUint8ToBase64 c st = (Ok (EncodeToString bs), st') /\
    encodes bs (CUint8 k v) /\ keeps st st'.
Proof.
  intros Hw. apply serialize_text_spec; [done| |done].
  intros e p Hp. by apply (law_uint8_serialize contract).
Qed.

(** The bound section around a primitive that succeeds once the key is
    bound. *)
Lemma uint8_binary_spec f g context st lhs rhs k a b :
  (forall l r, consumes (f l r) = None) ->
  (forall e l r,
     bound e k -> holds e l (CUint8 k a) -> holds e r (CUint8 k b) ->
     yields (f l r) e (CUint8 k (g a b))) ->
  wraps st (holder st) (KServer k) ->
  wraps st lhs (CUint8 k a) -> wraps st rhs (CUint8 k b) ->
  exists p st',
    uint8_binary f context lhs rhs st = (Ok (Some (length (heap st))), st') /\
    grows st st' p /\ holds (eng st') p (CUint8 k (g a b)).
Proof.
  intros Hcons Hlaw Hs Hl Hr. unfold uint8_binary.
  rewrite (bind_ok _ _ _ _ _ (is_nil_wraps _ _ _ Hl)).
  rewrite (bind_ok _ _ _ _ _ (is_nil_wraps _ _ _ Hr)).
  unfold defaultUint8ServerKey, bind at 1.
  destruct Hs as (ls & sk & Hh & Hls & Hsk).
  destruct Hl as (ll & pl & -> & Hll & Hpl).
  destruct Hr as (lr & pr & -> & Hlr & Hpr).
  rewrite Hh. unfold bind at 1.
  rewrite (withServerKey_run _ _ _ _ Hls (holds_nonnull contract _ _ _ Hsk)).
  cbn zeta.
  destruct (law_set_server_key contract _ _ _ Hsk) as [Hc1 Hb].
  cbn zeta in *. rewrite Hc1. cbn [Z.eqb].
  set (e1 := after (set_server_key sk) (eng st)) in *.
  assert (Hpl1 : holds e1 pl (CUint8 k a)) by (apply (holds_frame contract); done).
  assert (Hpr1 : holds e1 pr (CUint8 k b)) by (apply (holds_frame contract); done).
  destruct (Hlaw e1 pl pr Hb Hpl1 Hpr1) as [Hc2 Hout].
  unfold bind, load, call, check, new_obj, ret. cbn. rewrite Hll. cbn.
  rewrite Hlr. cbn. fold e1. rewrite Hc2. cbn.
  eexists _, _. split; [reflexivity|].
  split.
  - split; [done|]. split; [done|]. cbn. intros q y Hq.
    apply (holds_frame contract); [done|].
    apply (holds_frame contract); [by rewrite Hcons|].
    by apply (holds_frame contract).
  - cbn. by apply (holds_frame contract).
Qed.

Lemma Uint8Service_Encrypt_spec k s st v :
  uint8_ready k s st ->
  exists bs st',
    Uint8Service_Encrypt s v st = (Ok (EncodeToString bs), st') /\
    encodes bs (CUint8 k (uint8 v)) /\ uint8_ready k s st'.
Proof.
  intros Hready. pose proof Hready as (Hck & Hpk & Hsk).
  apply uint8_ready_guards in Hready
    as (lc & ck & lp & pk & ls & sk & Hc & Hp & Hs & HG).
  destruct (EncryptUint8_spec st (us_client s) k v Hck) as (p & st1 & Hrun1 & Hg1 & Hp1).
  pose proof (guards_grows _ _ _ _ Hg1 HG) as HG1.
  destruct (serializeUint8ToBase64_spec st1 (Some (length (heap st))) k (uint8 v))
    as (bs & st2 & Hrun2 & Henc & Hk2); [by eapply wraps_new|].
  destruct (scope_spec _ fhe_uint8_destroy "destroy uint8 ciphertext"
              (EncryptUint8 (us_client s) v) serializeUint8ToBase64
              st p st1 _ st2 ltac:(done) Hrun1 Hg1
              (guards_apart _ _ _ _ HG1 Hp1 eq_refl) Hrun2
              (guards_keeps _ _ _ Hk2 HG1))
    as (st3 & Hrun & HG3 & Hh3 & _).
  { by destruct Hk2. }
  { intros l _. by apply keeps_old. }
  exists bs, st3. split; [exact Hrun|]. split; [done|].
  apply uint8_ready_guards. exists lc, ck, lp, pk, ls, sk.
  repeat split; try done. congruence.
Qed.

Lemma Uint8Service_Decrypt_spec k s st bs v :
  uint8_ready k s st -> encodes bs (CUint8 k v) ->
  exists st',
    Uint8Service_Decrypt s (EncodeToString bs) st = (Ok (uint8 v), st') /\
    uint8_ready k s st'.
Proof.
  intros Hready Henc. pose proof Hready as (Hck & Hpk & Hsk).
  apply uint8_ready_guards in Hready
    as (lc & ck & lp & pk & ls & sk & Hc & Hp & Hs & HG).
  destruct (deserializeUint8_spec st bs k v Henc) as (p & st1 & Hrun1 & Hg1 & Hp1).
  pose proof (guards_grows _ _ _ _ Hg1 HG) as HG1.
  destruct (DecryptUint8_spec st1 (us_client s) (Some (length (heap st))) k v)
    as (st2 & Hrun2 & Hk2); [by eapply wraps_grows|by eapply wraps_new|].
  destruct (scope_spec _ fhe_uint8_destroy "destroy uint8 ciphertext"
              (deserializeUint8 (EncodeToString bs)) (DecryptUint8 (us_client s))
              st p st1 _ st2 ltac:(done) Hrun1 Hg1
              (guards_apart _ _ _ _ HG1 Hp1 eq_refl) Hrun2
              (guards_keeps _ _ _ Hk2 HG1))
    as (st3 & Hrun & HG3 & Hh3 & _).
  { by destruct Hk2. }
  { intros l _. by apply keeps_old. }
  exists st3. split; [exact Hrun|].
  apply uint8_ready_guards. exists lc, ck, lp, pk, ls, sk.
  repeat split; try done. congruence.
Qed.

Lemma binaryUint8_spec f g context k s st bl br a b :
  (forall l r, consumes (f l r) = None) ->
  (forall e l r,
     bound e k -> holds e l (CUint8 k a) -> holds e r (CUint8 k b) ->
     yields (f l r) e (CUint8 k (g a b))) ->
  uint8_ready k s st -> encodes bl (CUint8 k a) -> encodes br (CUint8 k b) ->
  exists bs st',
    binaryUint8 (EncodeToString bl) (EncodeToString br)
      (uint8_binary f context) st = (Ok (EncodeToString bs), st') /\
    encodes bs (CUint8 k (g a b)) /\ uint8_ready k s st'.
Proof.
  intros Hcons Hlaw Hready Hea Heb.
  apply uint8_ready_guards in Hready
    as (lc & ck & lp & pk & ls & sk & Hc & Hp & Hs & HG).
  destruct (binary_spec [(lc, ck, KClient k); (lp, pk, KPublic k); (ls, sk, KServer k)]
              fhe_uint8_destroy "destroy uint8 ciphertext"
              deserializeUint8 serializeUint8ToBase64 (uint8_binary f context)
              st bl br (CUint8 k a) (CUint8 k b) (CUint8 k (g a b)))
    as (bs & st' & Hrun & Henc & HG' & Hh'); try done.
  - intros st0 bs x [-> | ->] Hx; by apply deserializeUint8_spec.
  - intros st0 c Hw. by apply serializeUint8ToBase64_spec.
  - intros st0 x y HG0 Hh0 Hx Hy. eapply uint8_binary_spec; try done.
    rewrite Hh0, Hs. eapply guards_wraps; [exact HG0|]. cbn. auto.
  - exists bs, st'. split; [exact Hrun|]. split; [done|].
    apply uint8_ready_guards. exists lc, ck, lp, pk, ls, sk.
    repeat split; try done. congruence.
Qed.

Lemma uint8_scenario_spec f g context k s st a b :
  (forall l r, consumes (f l r) = None) ->
  (forall e l r a b,
     bound e k -> holds e l (CUint8 k a) -> holds e r (CUint8 k b) ->
     yields (f l r) e (CUint8 k (g a b))) ->
  uint8_ready k s st -> 0 <= a < 256 -> 0 <= b < 256 ->
  exists st',
    uint8_scenario (fun _ l r => binaryUint8 l r (uint8_binary f context)) s a b st
      = (Ok (uint8 (g a b)), st') /\ uint8_ready k s st'.
Proof.
  intros Hcons Hlaw Hready Ha Hb. unfold uint8_scenario.
  destruct (Uint8Service_Encrypt_spec k s st a Hready) as (ba & st1 & Hrun1 & Hea & Hr1).
  rewrite (bind_ok _ _ _ _ _ Hrun1).
  destruct (Uint8Service_Encrypt_spec k s st1 b Hr1) as (bb & st2 & Hrun2 & Heb & Hr2).
  rewrite (bind_ok _ _ _ _ _ Hrun2).
  rewrite (uint8_id a Ha) in Hea. rewrite (uint8_id b Hb) in Heb.
  destruct (binaryUint8_spec f g context k s st2 ba bb a b Hcons
              (fun e l r => Hlaw e l r a b) Hr2 Hea Heb)
    as (bc & st3 & Hrun3 & Hec & Hr3).
  rewrite (bind_ok _ _ _ _ _ Hrun3).
  destruct (Uint8Service_Decrypt_spec k s st3 bc (g a b) Hr3 Hec) as (st4 & -> & Hr4).
  by exists st4.
Qed.

(** C2.  Under the engine's contract a new integer service is ready, and
    for a ready service and all [a], [b] in [0, 255]: encrypting [a] and
    [b] with the client key, applying [Add] to the two texts and
    decrypting the result yields [(a + b) mod 256]; likewise [BitAnd]
    yields the bitwise AND and [BitXor] the bitwise XOR of [a] and [b].
    Every operation leaves the service ready. *)
Theorem integer_operations_correct (s : Uint8Service) (st : state E) (k : K) (a b : Z) :
  uint8_ready k s st -> 0 <= a < 256 -> 0 <= b < 256 ->
  (exists st', uint8_scenario Uint8Service_Add s a b st = (Ok ((a + b) mod 256), st') /\
               uint8_ready k s st') /\
  (exists st', uint8_scenario Uint8Service_BitAnd s a b st = (Ok (Z.land a b), st') /\
               uint8_ready k s st') /\
  (exists st', uint8_scenario Uint8Service_BitXor s a b st = (Ok (Z.lxor a b), st') /\
               uint8_ready k s st') /\
  (forall st0, exists s0 st1 k0,
     NewUint8Service st0 = (Ok s0, st1) /\ uint8_ready k0 s0 st1).
Proof.
  intros Hready Ha Hb. split; [|split; [|split]].
  - destruct (uint8_scenario_spec fhe_uint8_add (fun a b => (a + b) mod 256)
                "uint8 add" k s st a b) as (st' & Hrun & Hr); try done.
    { intros. by apply (law_uint8_add contract). }
    exists st'. split; [|done]. rewrite <- (uint8_id ((a + b) mod 256)); [exact Hrun|].
    apply Z.mod_pos_bound. lia.
  - destruct (uint8_scenario_spec fhe_uint8_bitand Z.land
                "uint8 bitand" k s st a b) as (st' & Hrun & Hr); try done.
    { intros. by apply (law_uint8_bitand contract). }
    exists st'. split; [|done]. rewrite <- (uint8_id (Z.land a b)); [exact Hrun|].
    by apply land_range.
  - destruct (uint8_scenario_spec fhe_uint8_bitxor Z.lxor
                "uint8 bitxor" k s st a b) as (st' & Hrun & Hr); try done.
    { intros. by apply (law_uint8_bitxor contract). }
    exists st'. split; [|done]. rewrite <- (uint8_id (Z.lxor a b)); [exact Hrun|].
    by apply lxor_range.
  - apply NewUint8Service_spec.
Qed.

(** *** Encryption with the public key, round trips and circuits *)

Lemma EncryptUint8Public_spec st pub k v :
  wraps st pub (KPublic k) ->
  exists p st',
    EncryptUint8Public pub v st = (Ok (Some (length (heap st))), st') /\
    grows st st' p /\ holds (eng st') p (CUint8 k (uint8 v)).
Proof.
  intros Hpk. unfold EncryptUint8Public.
  rewrite (bind_ok _ _ _ _ _ (is_nil_wraps _ _ _ Hpk)).
  destruct Hpk as (l & pk & -> & Hl & Hk).
  rewrite (bind_ok _ _ _ _ _ (load_wraps _ _ _ Hl)).
  apply create_spec; [done|]. apply (law_uint8_encrypt_public contract); [done|].
  unfold uint8. apply Z.mod_pos_bound. lia.
Qed.

Lemma Uint8Service_EncryptWithPublic_spec k s st v :
  uint8_ready k s st ->
  exists bs st',
    Uint8Service_EncryptWithPublic s v st = (Ok (EncodeToString bs), st') /\
    encodes bs (CUint8 k (uint8 v)) /\ uint8_ready k s st'.
Proof.
  intros Hready. pose proof Hready as (Hck & Hpk & Hsk).
  apply uint8_ready_guards in Hready
    as (lc & ck & lp & pk & ls & sk & Hc & Hp & Hs & HG).
  destruct (EncryptUint8Public_spec st (us_public s) k v Hpk)
    as (p & st1 & Hrun1 & Hg1 & Hp1).
  pose proof (guards_grows _ _ _ _ Hg1 HG) as HG1.
  destruct (serializeUint8ToBase64_spec st1 (Some (length (heap st))) k (uint8 v))
    as (bs & st2 & Hrun2 & Henc & Hk2); [by eapply wraps_new|].
  destruct (scope_spec _ fhe_uint8_destroy "destroy uint8 ciphertext"
              (EncryptUint8Public (us_public s) v) serializeUint8ToBase64
              st p st1 _ st2 ltac:(done) Hrun1 Hg1
              (guards_apart _ _ _ _ HG1 Hp1 eq_refl) Hrun2
              (guards_keeps _ _ _ Hk2 HG1))
    as (st3 & Hrun & HG3 & Hh3 & _).
  { by destruct Hk2. }
  { intros l _. by apply keeps_old. }
  exists bs, st3. split; [exact Hrun|]. split; [done|].
  apply uint8_ready_guards. exists lc, ck, lp, pk, ls, sk.
  repeat split; try done. congruence.
Qed.

(** Under the engine's contract, decrypting what a ready service has
    encrypted returns the plaintext: for the boolean service, for the
    integer service with the client key, and for the integer service
    with the public key (the ciphertext made with the public key is
    decrypted with the client key).  The service stays ready. *)
Theorem encrypt_decrypt_roundtrip (k : K) :
  (forall s st v,
     boolean_ready k s st ->
     exists c st1 st2,
       EncryptBoolToBase64 s v st = (Ok c, st1) /\
       DecryptBoolFromBase64 s c st1 = (Ok v, st2) /\
       boolean_ready k s st2) /\
  (forall s st v,
     uint8_ready k s st -> 0 <= v < 256 ->
     (exists c st1 st2,
        Uint8Service_Encrypt s v st = (Ok c, st1) /\
        Uint8Service_Decrypt s c st1 = (Ok v, st2) /\
        uint8_ready k s st2) /\
     (exists c st1 st2,
        Uint8Service_EncryptWithPublic s v st = (Ok c, st1) /\
        Uint8Service_Decrypt s c st1 = (Ok v, st2) /\
        uint8_ready k s st2)).
Proof.
  split.
  - intros s st v Hr.
    destruct (EncryptBoolToBase64_spec k s st v Hr) as (bs & st1 & Hrun1 & Henc & Hr1 & _).
    destruct (DecryptBoolFromBase64_spec k s st1 bs v Hr1 Henc) as (st2 & Hrun2 & Hr2 & _).
    by eauto 10.
  - intros s st v Hr Hv. split.
    + destruct (Uint8Service_Encrypt_spec k s st v Hr) as (bs & st1 & Hrun1 & Henc & Hr1).
      destruct (Uint8Service_Decrypt_spec k s st1 bs _ Hr1 Henc) as (st2 & Hrun2 & Hr2).
      rewrite (uint8_id (uint8 v)), (uint8_id v) in Hrun2
        by (rewrite ?uint8_id; done).
      by eauto 10.
    + destruct (Uint8Service_EncryptWithPublic_spec k s st v Hr)
        as (bs & st1 & Hrun1 & Henc & Hr1).
      destruct (Uint8Service_Decrypt_spec k s st1 bs _ Hr1 Henc) as (st2 & Hrun2 & Hr2).
      rewrite (uint8_id (uint8 v)), (uint8_id v) in Hrun2
        by (rewrite ?uint8_id; done).
      by eauto 10.
Qed.

Lemma boolean_circuit_spec k s e : forall st,
  boolean_ready k s st ->
  exists bs st',
    boolean_circuit s e st = (Ok (EncodeToString bs), st') /\
    encodes bs (CBool k (bvalue e)) /\ boolean_ready k s st'.
Proof.
  assert (Hbin : forall f g context x y,
    (forall sk l r, consumes (f sk l r) = None) ->
    (forall e0 sk l r a b,
       holds e0 sk (KBoolServer k) -> holds e0 l (CBool k a) -> holds e0 r (CBool k b) ->
       yields (f sk l r) e0 (CBool k (g a b))) ->
    (forall st, boolean_ready k s st ->
       exists bs st', boolean_circuit s x st = (Ok (EncodeToString bs), st') /\
         encodes bs (CBool k (bvalue x)) /\ boolean_ready k s st') ->
    (forall st, boolean_ready k s st ->
       exists bs st', boolean_circuit s y st = (Ok (EncodeToString bs), st') /\
         encodes bs (CBool k (bvalue y)) /\ boolean_ready k s st') ->
    forall st, boolean_ready k s st ->
    exists bs st',
      (cx <- boolean_circuit s x ;; cy <- boolean_circuit s y ;;
       binaryOp cx cy (gate2 f context (bs_server s))) st
        = (Ok (EncodeToString bs), st') /\
      encodes bs (CBool k (g (bvalue x) (bvalue y))) /\ boolean_ready k s st').
  { intros f g context x y Hcons Hlaw IHx IHy st Hr.
    destruct (IHx st Hr) as (bx & st1 & Hrun1 & Hex & Hr1).
    rewrite (bind_ok _ _ _ _ _ Hrun1).
    destruct (IHy st1 Hr1) as (by' & st2 & Hrun2 & Hey & Hr2).
    rewrite (bind_ok _ _ _ _ _ Hrun2).
    destruct (binaryOp_spec f g context k s st2 bx by' (bvalue x) (bvalue y) Hcons
                (fun e0 sk l r => Hlaw e0 sk l r _ _) Hr2 Hex Hey)
      as (bs & st3 & Hrun3 & Henc & Hr3 & _).
    by eauto. }
  induction e as [b|x IHx y IHy|x IHx y IHy|x IHx y IHy|x IHx]; intros st Hr.
  - destruct (EncryptBoolToBase64_spec k s st b Hr) as (bs & st1 & Hrun & Henc & Hr1 & _).
    by eauto.
  - apply (Hbin boolean_server_key_and andb "boolean AND"); try done.
    intros. by apply (law_boolean_and contract).
  - apply (Hbin boolean_server_key_or orb "boolean OR"); try done.
    intros. by apply (law_boolean_or contract).
  - apply (Hbin boolean_server_key_xor xorb "boolean XOR"); try done.
    intros. by apply (law_boolean_xor contract).
  - cbn [boolean_circuit bvalue].
    destruct (IHx st Hr) as (bx & st1 & Hrun1 & Hex & Hr1).
    rewrite (bind_ok _ _ _ _ _ Hrun1).
    destruct (NotBase64_spec k s st1 bx (bvalue x) Hr1 Hex)
      as (bs & st2 & Hrun2 & Henc & Hr2 & _).
    by eauto.
Qed.

(** Under the engine's contract the boolean service evaluates circuits:
    the result of a gate is accepted as an operand by every gate, and
    for every circuit of AND, OR, XOR and NOT gates over encrypted
    constants, evaluating gate by gate through the service and
    decrypting the final text yields the value of the circuit. *)
Theorem boolean_circuits_evaluate (k : K) (s : BooleanService) (e : bexpr)
    (st : state E) :
  boolean_ready k s st ->
  exists st',
    (c <- boolean_circuit s e ;; DecryptBoolFromBase64 s c) st = (Ok (bvalue e), st') /\
    boolean_ready k s st'.
Proof.
  intros Hr.
  destruct (boolean_circuit_spec k s e st Hr) as (bs & st1 & Hrun1 & Henc & Hr1).
  rewrite (bind_ok _ _ _ _ _ Hrun1).
  destruct (DecryptBoolFromBase64_spec k s st1 bs _ Hr1 Henc) as (st2 & Hrun2 & Hr2 & _).
  by eauto.
Qed.

Lemma uvalue_range e : uliterals e -> 0 <= uvalue e < 256.
Proof.
  induction e as [v|v|x IHx y IHy|x IHx y IHy|x IHx y IHy]; cbn; try done.
  - intros _. apply Z.mod_pos_bound. lia.
  - intros [Hx Hy]. apply land_range; auto.
  - intros [Hx Hy]. apply lxor_range; auto.
Qed.

Lemma uint8_circuit_spec k s e : forall st,
  uint8_ready k s st -> uliterals e ->
  exists bs st',
    uint8_circuit s e st = (Ok (EncodeToString bs), st') /\
    encodes bs (CUint8 k (uvalue e)) /\ uint8_ready k s st'.
Proof.
  assert (Hbin : forall f g context x y,
    (forall l r, consumes (f l r) = None) ->
    (forall e0 l r a b,
       bound e0 k -> holds e0 l (CUint8 k a) -> holds e0 r (CUint8 k b) ->
       yields (f l r) e0 (CUint8 k (g a b))) ->
    (forall st, uint8_ready k s st ->
       exists bs st', uint8_circuit s x st = (Ok (EncodeToString bs), st') /\
         encodes bs (CUint8 k (uvalue x)) /\ uint8_ready k s st') ->
    (forall st, uint8_ready k s st ->
       exists bs st', uint8_circuit s y st = (Ok (EncodeToString bs), st') /\
         encodes bs (CUint8 k (uvalue y)) /\ uint8_ready k s st') ->
    forall st, uint8_ready k s st ->
    exists bs st',
      (cx <- uint8_circuit s x ;; cy <- uint8_circuit s y ;;
       binaryUint8 cx cy (uint8_binary f context)) st
        = (Ok (EncodeToString bs), st') /\
      encodes bs (CUint8 k (g (uvalue x) (uvalue y))) /\ uint8_ready k s st').
  { intros f g context x y Hcons Hlaw IHx IHy st Hr.
    destruct (IHx st Hr) as (bx & st1 & Hrun1 & Hex & Hr1).
    rewrite (bind_ok _ _ _ _ _ Hrun1).
    destruct (IHy st1 Hr1) as (by' & st2 & Hrun2 & Hey & Hr2).
    rewrite (bind_ok _ _ _ _ _ Hrun2).
    destruct (binaryUint8_spec f g context k s st2 bx by' (uvalue x) (uvalue y) Hcons
                (fun e0 l r => Hlaw e0 l r _ _) Hr2 Hex Hey)
      as (bs & st3 & Hrun3 & Henc & Hr3).
    by eauto. }
  induction e as [v|v|x IHx y IHy|x IHx y IHy|x IHx y IHy]; intros st Hr Hlit.
  - destruct (Uint8Service_Encrypt_spec k s st v Hr) as (bs & st1 & Hrun & Henc & Hr1).
    rewrite (uint8_id v Hlit) in Henc. by eauto.
  - destruct (Uint8Service_EncryptWithPublic_spec k s st v Hr)
      as (bs & st1 & Hrun & Henc & Hr1).
    rewrite (uint8_id v Hlit) in Henc. by eauto.
  - destruct Hlit as [Hx Hy].
    apply (Hbin fhe_uint8_add (fun a b => (a + b) mod 256) "uint8 add"); try done;
      [intros; by apply (law_uint8_add contract)|intros; by apply IHx|intros; by apply IHy].
  - destruct Hlit as [Hx Hy].
    apply (Hbin fhe_uint8_bitand Z.land "uint8 bitand"); try done;
      [intros; by apply (law_uint8_bitand contract)|intros; by apply IHx
      |intros; by apply IHy].
  - destruct Hlit as [Hx Hy].
    apply (Hbin fhe_uint8_bitxor Z.lxor "uint8 bitxor"); try done;
      [intros; by apply (law_uint8_bitxor contract)|intros; by apply IHx
      |intros; by apply IHy].
Qed.

(** Under the engine's contract the integer service evaluates
    expressions: for every expression of additions, bitwise ANDs and
    bitwise XORs over constants in [0, 255] encrypted with the client or
    with the public key, evaluating operation by operation through the
    service and decrypting the final text yields the value of the
    expression in 8-bit arithmetic. *)
Theorem uint8_circuits_evaluate (k : K) (s : Uint8Service) (e : uexpr)
    (st : state E) :
  uint8_ready k s st -> uliterals e ->
  exists st',
    (c <- uint8_circuit s e ;; Uint8Service_Decrypt s c) st = (Ok (uvalue e), st') /\
    uint8_ready k s st'.
Proof.
  intros Hr Hlit.
  destruct (uint8_circuit_spec k s e st Hr Hlit) as (bs & st1 & Hrun1 & Henc & Hr1).
  rewrite (bind_ok _ _ _ _ _ Hrun1).
  destruct (Uint8Service_Decrypt_spec k s st1 bs _ Hr1 Henc) as (st2 & Hrun2 & Hr2).
  rewrite (uint8_id _ (uvalue_range e Hlit)) in Hrun2.
  by eauto.
Qed.

(** *** The handlers on ciphertexts *)

Lemma post_json_ok {Q A} (decode : string -> string + Q) (run : Q -> M A)
    (reply_body : A -> jobject) w r st q a st' :
  Method r = MethodPost -> decode (Body r) = inr q -> run q st = (Ok a, st') ->
  post_json decode run reply_body w r st = (Ok (writeJSON w StatusOK (reply_body a)), st').
Proof.
  intros Hm Hd Hrun. by rewrite (post_json_run _ _ _ _ _ _ _ Hm Hd), Hrun.
Qed.

(** Under the engine's contract the HTTP handlers compute on
    ciphertexts.  For a POST request whose body decodes: the encrypt
    handlers answer 200 with a ciphertext of the value in the body; the
    decrypt handlers answer 200 with the plaintext of the ciphertext in
    the body; [not], [and], [or] and [xor] answer 200 with a ciphertext
    of the negation, conjunction, disjunction and exclusive or of the
    operands' plaintexts; [addUint8], [bitAndUint8] and [bitXorUint8]
    answer 200 with a ciphertext of the sum modulo 256, the bitwise AND
    and the bitwise XOR.  The services stay ready for the next
    request. *)
Theorem handlers_compute_on_ciphertexts (k : K) (h : Handler)
    (w : ResponseWriter) (r : Request) :
  Method r = MethodPost ->
  (forall st, boolean_ready k (h_boolean h) st ->
     let post st' := boolean_ready k (h_boolean h) st' in
     (forall v, DecodeBoolValue (Body r) = inr v ->
        served (Handler_encrypt h) w r st (CBool k v) post) /\
     (forall bs v,
        DecodeCiphertext (Body r) = inr (EncodeToString bs) ->
        encodes bs (CBool k v) ->
        (exists st',
           Handler_decrypt h w r st
             = (Ok (writeJSON w StatusOK [("value", JBool v)]), st') /\ post st') /\
        served (Handler_not h) w r st (CBool k (negb v)) post) /\
     (forall bl br a b,
        DecodeLeftRight (Body r) = inr (EncodeToString bl, EncodeToString br) ->
        encodes bl (CBool k a) -> encodes br (CBool k b) ->
        served (Handler_and h) w r st (CBool k (a && b)) post /\
        served (Handler_or h) w r st (CBool k (a || b)) post /\
        served (Handler_xor h) w r st (CBool k (xorb a b)) post)) /\
  (forall st, uint8_ready k (h_uint8 h) st ->
     let post st' := uint8_ready k (h_uint8 h) st' in
     (forall v, DecodeUint8Value (Body r) = inr v -> 0 <= v < 256 ->
        served (Handler_encryptUint8 h) w r st (CUint8 k v) post /\
        served (Handler_encryptUint8Public h) w r st (CUint8 k v) post) /\
     (forall bs v,
        DecodeCiphertext (Body r) = inr (EncodeToString bs) ->
        encodes bs (CUint8 k v) -> 0 <= v < 256 ->
        exists st',
          Handler_decryptUint8 h w r st
            = (Ok (writeJSON w StatusOK [("value", JNumber v)]), st') /\ post st') /\
     (forall bl br a b,
        DecodeLeftRight (Body r) = inr (EncodeToString bl, EncodeToString br) ->
        encodes bl (CUint8 k a) -> encodes br (CUint8 k b) ->
        served (Handler_addUint8 h) w r st (CUint8 k ((a + b) mod 256)) post /\
        served (Handler_bitAndUint8 h) w r st (CUint8 k (Z.land a b)) post /\
        served (Handler_bitXorUint8 h) w r st (CUint8 k (Z.lxor a b)) post)).
Proof.
  intros Hm. split; intros st Hr; cbn zeta.
  - split; [|split].
    + intros v Hd.
      destruct (EncryptBoolToBase64_spec k _ st v Hr) as (bs & st' & Hrun & Henc & Hr' & _).
      exists bs, st'. split; [|done].
      by apply (post_json_ok DecodeBoolValue _ (fun ct => [("ciphertext", JString ct)])
                    _ _ _ _ _ _ Hm Hd Hrun).
    + intros bs v Hd Henc. split.
      * destruct (DecryptBoolFromBase64_spec k _ st bs v Hr Henc) as (st' & Hrun & Hr' & _).
        exists st'. split; [|done].
        by apply (post_json_ok DecodeCiphertext _ (fun v0 => [("value", JBool v0)])
                    _ _ _ _ _ _ Hm Hd Hrun).
      * destruct (NotBase64_spec k _ st bs v Hr Henc) as (bs' & st' & Hrun & Henc' & Hr' & _).
        exists bs', st'. split; [|done].
        by apply (post_json_ok DecodeCiphertext _ (fun ct => [("ciphertext", JString ct)])
                    _ _ _ _ _ _ Hm Hd Hrun).
    + intros bl br a b Hd Ha Hb.
      assert (Hgate : forall f g context,
        (forall sk l r0, consumes (f sk l r0) = None) ->
        (forall e sk l r0,
           holds e sk (KBoolServer k) -> holds e l (CBool k a) -> holds e r0 (CBool k b) ->
           yields (f sk l r0) e (CBool k (g a b))) ->
        served (fun w0 r0 => Handler_binaryOp h w0 r0
                  (fun lhs rhs => binaryOp lhs rhs (gate2 f context (bs_server (h_boolean h)))))
          w r st (CBool k (g a b)) (fun st' => boolean_ready k (h_boolean h) st')).
      { intros f g context Hcons Hlaw.
        destruct (binaryOp_spec f g context k _ st bl br a b Hcons Hlaw Hr Ha Hb)
          as (bs & st' & Hrun & Henc & Hr' & _).
        exists bs, st'. split; [|done].
        by apply (post_json_ok DecodeLeftRight
                    (fun req => binaryOp (fst req) (snd req) _) (fun ct => [("ciphertext", JString ct)])
                    _ _ _ _ _ _ Hm Hd Hrun). }
      repeat apply conj.
      * apply (Hgate boolean_server_key_and andb "boolean AND"); [done|].
        intros. by apply (law_boolean_and contract).
      * apply (Hgate boolean_server_key_or orb "boolean OR"); [done|].
        intros. by apply (law_boolean_or contract).
      * apply (Hgate boolean_server_key_xor xorb "boolean XOR"); [done|].
        intros. by apply (law_boolean_xor contract).
  - split; [|split].
    + intros v Hd Hv. split.
      * destruct (Uint8Service_Encrypt_spec k _ st v Hr) as (bs & st' & Hrun & Henc & Hr').
        rewrite (uint8_id v Hv) in Henc.
        exists bs, st'. split; [|done].
        by apply (post_json_ok DecodeUint8Value _ (fun ct => [("ciphertext", JString ct)])
                    _ _ _ _ _ _ Hm Hd Hrun).
      * destruct (Uint8Service_EncryptWithPublic_spec k _ st v Hr)
          as (bs & st' & Hrun & Henc & Hr').
        rewrite (uint8_id v Hv) in Henc.
        exists bs, st'. split; [|done].
        by apply (post_json_ok DecodeUint8Value _ (fun ct => [("ciphertext", JString ct)])
                    _ _ _ _ _ _ Hm Hd Hrun).
    + intros bs v Hd Henc Hv.
      destruct (Uint8Service_Decrypt_spec k _ st bs v Hr Henc) as (st' & Hrun & Hr').
      rewrite (uint8_id v Hv) in Hrun.
      exists st'. split; [|done].
      by apply (post_json_ok DecodeCiphertext _ (fun v0 => [("value", JNumber v0)])
                  _ _ _ _ _ _ Hm Hd Hrun).
    + intros bl br a b Hd Ha Hb.
      assert (Hop : forall f g context,
        (forall l r0, consumes (f l r0) = None) ->
        (forall e l r0,
           bound e k -> holds e l (CUint8 k a) -> holds e r0 (CUint8 k b) ->
           yields (f l r0) e (CUint8 k (g a b))) ->
        served (fun w0 r0 => Handler_binaryOpUint8 h w0 r0
                  (fun lhs rhs => binaryUint8 lhs rhs (uint8_binary f context)))
          w r st (CUint8 k (g a b)) (fun st' => uint8_ready k (h_uint8 h) st')).
      { intros f g context Hcons Hlaw.
        destruct (binaryUint8_spec f g context k _ st bl br a b Hcons Hlaw Hr Ha Hb)
          as (bs & st' & Hrun & Henc & Hr').
        exists bs, st'. split; [|done].
        by apply (post_json_ok DecodeLeftRight
                    (fun req => binaryUint8 (fst req) (snd req) _) (fun ct => [("ciphertext", JString ct)])
                    _ _ _ _ _ _ Hm Hd Hrun). }
      repeat apply conj.
      * apply (Hop fhe_uint8_add (fun a b => (a + b) mod 256) "uint8 add"); [done|].
        intros. by apply (law_uint8_add contract).
      * apply (Hop fhe_uint8_bitand Z.land "uint8 bitand"); [done|].
        intros. by apply (law_uint8_bitand contract).
      * apply (Hop fhe_uint8_bitxor Z.lxor "uint8 bitxor"); [done|].
        intros. by apply (law_uint8_bitxor contract).
Qed.

(** *** The homomorphic operations of the bindings *)

(** Under the engine's contract the homomorphic operations of the
    bindings compute on handles and consume nothing: given live operands
    (the two operands may be one and the same handle), each returns a new
    handle, allocated at the end of the Go heap, that wraps a ciphertext
    of the expected plaintext, and every handle that was live before,
    the operands and the keys included, is still live with the same
    content.  The integer operations need the holder's key to be the
    server key of the operands' key pair. *)
Theorem bindings_compute_and_consume_nothing (k : K) (st : state E) :
  let computes (m : M goptr) (x : content K) :=
    exists st',
      m st = (Ok (Some (length (heap st))), st') /\
      wraps st' (Some (length (heap st))) x /\
      (forall c y, wraps st c y -> wraps st' c y) in
  (forall s l r a b,
     wraps st s (KBoolServer k) -> wraps st l (CBool k a) -> wraps st r (CBool k b) ->
     computes (ServerKey_And s l r) (CBool k (a && b)) /\
     computes (ServerKey_Or s l r) (CBool k (a || b)) /\
     computes (ServerKey_Xor s l r) (CBool k (xorb a b)) /\
     computes (ServerKey_Not s l) (CBool k (negb a))) /\
  (forall l r a b,
     wraps st (holder st) (KServer k) ->
     wraps st l (CUint8 k a) -> wraps st r (CUint8 k b) ->
     computes (Uint8Add l r) (CUint8 k ((a + b) mod 256)) /\
     computes (Uint8BitAnd l r) (CUint8 k (Z.land a b)) /\
     computes (Uint8BitXor l r) (CUint8 k (Z.lxor a b))).
Proof.
  cbn zeta.
  assert (Hnew : forall (m : M goptr) x,
    (exists p st', m st = (Ok (Some (length (heap st))), st') /\
                   grows st st' p /\ holds (eng st') p x) ->
    exists st',
      m st = (Ok (Some (length (heap st))), st') /\
      wraps st' (Some (length (heap st))) x /\
      (forall c y, wraps st c y -> wraps st' c y)).
  { intros m x (p & st' & Hrun & Hg & Hp). exists st'. split; [done|]. split.
    - by eapply wraps_new.
    - intros c y. by apply wraps_grows with (q := p). }
  split.
  - intros s l r a b Hs Hl Hr. repeat apply conj; apply Hnew.
    + apply (gate2_spec boolean_server_key_and andb); try done.
      intros. by apply (law_boolean_and contract).
    + apply (gate2_spec boolean_server_key_or orb); try done.
      intros. by apply (law_boolean_or contract).
    + apply (gate2_spec boolean_server_key_xor xorb); try done.
      intros. by apply (law_boolean_xor contract).
    + by apply ServerKey_Not_spec.
  - intros l r a b Hh Hl Hr. repeat apply conj; apply Hnew.
    + apply (uint8_binary_spec fhe_uint8_add (fun a b => (a + b) mod 256)); try done.
      intros. by apply (law_uint8_add contract).
    + apply (uint8_binary_spec fhe_uint8_bitand Z.land); try done.
      intros. by apply (law_uint8_bitand contract).
    + apply (uint8_binary_spec fhe_uint8_bitxor Z.lxor); try done.
      intros. by apply (law_uint8_bitxor contract).
Qed.

End Contract.

End Bindings.

(** * The concrete codec and the reference engine *)

(** ** Base64 *)

Module Base64Facts.
Import Base64Std.

Lemma char_sextet_char n : (n < 64)%N -> char_sextet (sextet_char n) = Some n.
Proof.
  intros H.
  assert (Hall : forallb (fun k =>
            match char_sextet (sextet_char k) with
            | Some k' => N.eqb k k'
            | None => false
            end) (map N.of_nat (seq 0 64)) = true) by (vm_compute; reflexivity).
  rewrite List.forallb_forall in Hall.
  assert (Hin : List.In n (map N.of_nat (seq 0 64))).
  { apply List.in_map_iff. exists (N.to_nat n). split; [lia|]. apply List.in_seq. lia. }
  specialize (Hall n Hin).
  destruct (char_sextet (sextet_char n)); [|done].
  f_equal. symmetry. by apply N.eqb_eq.
Qed.

Lemma sextet_char_not_pad n : (n < 64)%N -> is_pad (sextet_char n) = false.
Proof.
  intros H.
  assert (Hall : forallb (fun k => negb (is_pad (sextet_char k)))
            (map N.of_nat (seq 0 64)) = true) by (vm_compute; reflexivity).
  rewrite List.forallb_forall in Hall.
  apply negb_true_iff, Hall, List.in_map_iff.
  exists (N.to_nat n). split; [lia|]. apply List.in_seq. lia.
Qed.

Lemma byte_of_to_N b : byte_of_N (Byte.to_N b) = b.
Proof.
  unfold byte_of_N. pose proof (Byte.to_N_bounded b).
  rewrite N.mod_small by lia. by rewrite Byte.of_to_N.
Qed.

Ltac arith := zify; Z.to_euclidean_division_equations; lia.

Lemma encode_chars_cons d rest : exists x xs, encode_chars (d :: rest) = x :: xs.
Proof. destruct rest as [|? [|? ?]]; cbn; eauto. Qed.

Lemma decode_encode_chars bs si out :
  decode_chars (encode_chars bs) si [] out = (out ++ bs, None).
Proof.
  revert si out.
  induction bs as [bs IH] using (induction_ltof1 _ (@length byte)). unfold ltof in IH.
  intros si out.
  destruct bs as [|a [|b [|c rest]]]; [cbn; by rewrite app_nil_r| | |].
  - pose proof (Byte.to_N_bounded a).
    cbn [encode_chars decode_chars].
    rewrite !char_sextet_char by arith. cbn.
    replace ((Byte.to_N a / 4 * 4 + Byte.to_N a mod 4 * 16 / 16))%N
      with (Byte.to_N a) by arith.
    by rewrite byte_of_to_N.
  - pose proof (Byte.to_N_bounded a). pose proof (Byte.to_N_bounded b).
    cbn [encode_chars decode_chars].
    repeat (rewrite char_sextet_char by arith; cbn [app]). cbn.
    replace ((Byte.to_N a / 4 * 4 + (Byte.to_N a mod 4 * 16 + Byte.to_N b / 16) / 16))%N
      with (Byte.to_N a) by arith.
    replace (((Byte.to_N a mod 4 * 16 + Byte.to_N b / 16) mod 16 * 16
              + Byte.to_N b mod 16 * 4 / 4))%N with (Byte.to_N b) by arith.
    by rewrite !byte_of_to_N.
  - pose proof (Byte.to_N_bounded a). pose proof (Byte.to_N_bounded b).
    pose proof (Byte.to_N_bounded c).
    cbn [encode_chars decode_chars].
    repeat (rewrite char_sextet_char by arith; cbn [app]).
    rewrite (IH rest) by (cbn; lia).
    replace ((Byte.to_N a / 4 * 4 + (Byte.to_N a mod 4 * 16 + Byte.to_N b / 16) / 16))%N
      with (Byte.to_N a) by arith.
    replace (((Byte.to_N a mod 4 * 16 + Byte.to_N b / 16) mod 16 * 16
              + (Byte.to_N b mod 16 * 4 + Byte.to_N c / 64) / 4))%N
      with (Byte.to_N b) by arith.
    replace (((Byte.to_N b mod 16 * 4 + Byte.to_N c / 64) mod 4 * 64
              + Byte.to_N c mod 64))%N with (Byte.to_N c) by arith.
    rewrite !byte_of_to_N. by rewrite <- app_assoc.
Qed.

(** The codec satisfies what the bindings rely on. *)
Lemma codec_contract : Base64Contract (codec := codec).
Proof.
  split; [|reflexivity].
  intros bs. cbn. unfold decode, encode.
  by rewrite list_ascii_of_string_of_list_ascii, decode_encode_chars.
Qed.

End Base64Facts.

(** ** The reference engine satisfies the contract *)

Module IdealFacts.
Import Ideal IdealView.

#[local] Existing Instance Ideal.engine.

Lemma get_null e : get e 0%N = Freed.
Proof. reflexivity. Qed.

Lemma get_live e p o :
  get e p = o -> o <> Freed ->
  p <> 0%N /\ objs e !! (N.to_nat p - 1)%nat = Some o.
Proof.
  unfold get. destruct (N.eqb p 0) eqn:Hp; [congruence|].
  apply N.eqb_neq in Hp. destruct (objs e !! _) as [o'|]; cbn; [|congruence].
  intros -> _. done.
Qed.

Lemma get_alloc e o' p o :
  get e p = o -> o <> Freed -> get (alloc o' e) p = o.
Proof.
  intros Hg Ho. destruct (get_live _ _ _ Hg Ho) as [Hp Hl].
  unfold get, alloc. apply N.eqb_neq in Hp. rewrite Hp. cbn.
  by rewrite (lookup_app_l_Some _ _ _ _ Hl).
Qed.

Lemma get_next e o : get (alloc o e) (next e) = o.
Proof.
  unfold get, alloc, next. cbn [objs].
  replace (N.eqb (N.of_nat (S (length (objs e)))) 0) with false
    by (symmetry; apply N.eqb_neq; lia).
  replace (N.to_nat (N.of_nat (S (length (objs e)))) - 1)%nat
    with (length (objs e)) by lia.
  by rewrite list_lookup_middle.
Qed.

Lemma next_alloc e o : next (alloc o e) = (next e + 1)%N.
Proof. unfold next, alloc. cbn. rewrite length_app. cbn. lia. Qed.

Lemma get_free e q p o :
  get e p = o -> o <> Freed -> p <> q -> q <> 0%N -> get (free q e) p = o.
Proof.
  intros Hg Ho Hne Hq. destruct (get_live _ _ _ Hg Ho) as [Hp Hl].
  unfold get, free. rewrite (proj2 (N.eqb_neq p 0) Hp). cbn.
  rewrite list_lookup_insert_ne by lia. by rewrite Hl.
Qed.

Lemma get_tls e p q : get (mk (objs e) q) p = get e p.
Proof. reflexivity. Qed.

Lemma same_kind_live o kind : same_kind o kind = true -> o <> Freed.
Proof. by destruct o. Qed.

Lemma obj_of_live x : obj_of x <> Freed.
Proof. by destruct x. Qed.

(** Whatever a call does, an object it does not consume stays. *)
Lemma get_frame c e p o :
  consumes c <> Some p -> get e p = o -> o <> Freed ->
  get (step c e).2 p = o.
Proof.
  intros Hc Hg Ho.
  assert (Hdestroy : forall kind q, Some q <> Some p ->
            get (destroy kind q e).2 p = o).
  { intros kind q Hq. unfold destroy.
    destruct (same_kind (get e q) kind) eqn:Hk; [|done]. cbn.
    apply get_free; try done; [congruence|].
    intros ->. by rewrite get_null in Hk. }
  assert (Hgate : forall f sk l r, get (gate f sk l r e).2 p = o).
  { intros f sk l r. unfold gate.
    destruct (get e sk), (get e l), (get e r); try done. by apply get_alloc. }
  assert (Harith : forall f l r, get (arith f l r e).2 p = o).
  { intros f l r. unfold arith.
    destruct (get e (tls e)), (get e l), (get e r); try done. by apply get_alloc. }
  destruct c; cbn [consumes] in Hc; cbn [step];
    try (by apply Hdestroy); try apply Hgate; try apply Harith; try done.
  - cbn. apply get_alloc; [by apply get_alloc|done].
  - destruct (get e ck); try done. by apply get_alloc.
  - by destruct (get e ck), (get e ct).
  - destruct (get e sk), (get e input); try done. by apply get_alloc.
  - by destruct (get e ct).
  - destruct view as [|b1 [|b2 [|]]]; try done.
    destruct (_ && _); [|done]. by apply get_alloc.
  - by apply get_alloc.
  - destruct (get e builder) eqn:Hb; try done. cbn.
    apply get_alloc; [|done]. apply get_free; try done; [congruence|].
    intros ->. by rewrite get_null in Hb.
  - destruct (get e config) eqn:Hb; try done. cbn.
    apply get_alloc; [|done]. apply get_alloc; [|done].
    apply get_free; try done; [congruence|].
    intros ->. by rewrite get_null in Hb.
  - by destruct (get e sk).
  - destruct (get e ck); try done. by apply get_alloc.
  - destruct (get e ck); try done. by apply get_alloc.
  - destruct (get e pk); try done. by apply get_alloc.
  - by destruct (get e ck), (get e ct).
  - by destruct (get e ct).
  - destruct view as [|b1 [|b2 [|]]]; try done.
    destruct (Byte.eqb b1 x55); [|done]. by apply get_alloc.
Qed.

Lemma holds_alloc e o x :
  o = obj_of x -> in_range x -> holds (alloc o e) (next e) x.
Proof. intros -> Hr. split; [apply get_next|done]. Qed.

Lemma u8_byte_inj v w :
  0 <= v < 256 -> 0 <= w < 256 -> u8_byte v = u8_byte w -> v = w.
Proof.
  intros Hv Hw Heq. unfold u8_byte, Base64Std.byte_of_N in Heq.
  rewrite !N.mod_small in Heq by lia.
  destruct (Byte.of_N (Z.to_N v)) as [bv|] eqn:Ev; cycle 1.
  { apply Byte.of_N_None_iff in Ev. lia. }
  destruct (Byte.of_N (Z.to_N w)) as [bw|] eqn:Ew; cycle 1.
  { apply Byte.of_N_None_iff in Ew. lia. }
  subst bw. apply Byte.to_of_N in Ev, Ew. lia.
Qed.

Lemma to_N_u8_byte v : 0 <= v < 256 -> Z.of_N (Byte.to_N (u8_byte v)) = v.
Proof.
  intros Hv. unfold u8_byte, Base64Std.byte_of_N.
  rewrite N.mod_small by lia.
  destruct (Byte.of_N (Z.to_N v)) as [bv|] eqn:Ev.
  - apply Byte.to_of_N in Ev. lia.
  - apply Byte.of_N_None_iff in Ev. lia.
Qed.

#[local] Arguments alloc : simpl never.
#[local] Arguments free : simpl never.
#[local] Arguments next : simpl never.
#[local] Arguments get : simpl never.

Ltac law_alloc :=
  split; [reflexivity|]; cbn; apply holds_alloc; [reflexivity|done].

Theorem ideal_contract : EngineContract holds bound encodes.
Proof.
  split.
  - intros e p x [Hg _] ->. rewrite get_null in Hg. by destruct x.
  - intros e p x y [Hx Rx] [Hy Ry]. rewrite Hx in Hy.
    destruct x as [[]|[]|[] ?| | |[]|[]|[]|[] ?], y as [[]|[]|[] ?| | |[]|[]|[]|[] ?];
      cbn in Hy; congruence.
  - intros e c p x Hc [Hg Hr]. split; [|done].
    apply get_frame; try done. apply obj_of_live.
  - intros bs x Henc. destruct x; cbn in Henc; try done.
    + subst bs. split; [done|]. cbn. lia.
    + destruct Henc as [_ ->]. split; [done|]. cbn. lia.
  - intros e. cbn zeta. split; [reflexivity|]. exists tt. split.
    + split; [|done]. unfold after, reply. cbn.
      apply get_alloc; [apply get_next|done].
    + unfold after, reply. cbn. rewrite <- (next_alloc e BoolClientKey).
      by apply holds_alloc.
  - intros e ck k v [Hg _]. unfold yields, after, reply. cbn in *. rewrite Hg.
    law_alloc.
  - intros e ck ct k v [Hg _] [Hc _]. unfold after, reply. cbn in *.
    by rewrite Hg, Hc.
  - intros e sk l r k a b [Hs _] [Hl _] [Hr _]. unfold yields, after, reply. cbn in *.
    unfold gate. rewrite Hs, Hl, Hr. law_alloc.
  - intros e sk l r k a b [Hs _] [Hl _] [Hr _]. unfold yields, after, reply. cbn in *.
    unfold gate. rewrite Hs, Hl, Hr. law_alloc.
  - intros e sk l r k a b [Hs _] [Hl _] [Hr _]. unfold yields, after, reply. cbn in *.
    unfold gate. rewrite Hs, Hl, Hr. law_alloc.
  - intros e sk i k a [Hs _] [Hi _]. unfold yields, after, reply. cbn in *.
    rewrite Hs, Hi. law_alloc.
  - intros e ct k v [Hg _]. unfold after, reply. cbn in *. by rewrite Hg.
  - intros e bs k v Henc. unfold yields, after, reply. cbn in *. subst bs.
    destruct v; law_alloc.
  - intros e. unfold yields, after, reply. cbn. law_alloc.
  - intros e b [Hg _]. unfold yields, after, reply. cbn in *. rewrite Hg.
    split; [reflexivity|]. cbn.
    assert (Hn : next (free b e) = next e)
      by (unfold next, free; cbn; by rewrite length_insert).
    rewrite <- Hn. by apply holds_alloc.
  - intros e cfg [Hg _]. cbn zeta. unfold after, reply. cbn in *. rewrite Hg.
    split; [reflexivity|]. exists tt. cbn.
    assert (Hn : next (free cfg e) = next e)
      by (unfold next, free; cbn; by rewrite length_insert).
    rewrite <- Hn. split.
    + split; [|done]. apply get_alloc; [apply get_next|done].
    + rewrite <- (next_alloc _ ClientKey). by apply holds_alloc.
  - intros e sk k [Hg _]. cbn zeta. unfold after, reply, bound. cbn in *.
    rewrite Hg. cbn. done.
  - intros e ck k [Hg _]. unfold yields, after, reply. cbn in *. rewrite Hg.
    law_alloc.
  - intros e ck k v [Hg _] Hv. unfold yields, after, reply. cbn in *. rewrite Hg.
    split; [reflexivity|]. cbn. apply holds_alloc; [|done].
    cbn. by rewrite Z.mod_small.
  - intros e pk k v [Hg _] Hv. unfold yields, after, reply. cbn in *. rewrite Hg.
    split; [reflexivity|]. cbn. apply holds_alloc; [|done].
    cbn. by rewrite Z.mod_small.
  - intros e ct ck k v [Hk _] [Hc _]. unfold after, reply. cbn in *.
    by rewrite Hk, Hc.
  - intros e l r k a b Hb [Hl Ra] [Hr Rb]. unfold yields, after, reply, bound in *.
    cbn in *. unfold arith. rewrite Hb, Hl, Hr.
    split; [reflexivity|]. cbn. apply holds_alloc; [done|].
    cbn. apply Z.mod_pos_bound. lia.
  - intros e l r k a b Hb [Hl Ra] [Hr Rb]. unfold yields, after, reply, bound in *.
    cbn in *. unfold arith. rewrite Hb, Hl, Hr.
    split; [reflexivity|]. cbn. apply holds_alloc; [done|].
    cbn. by apply land_range.
  - intros e l r k a b Hb [Hl Ra] [Hr Rb]. unfold yields, after, reply, bound in *.
    cbn in *. unfold arith. rewrite Hb, Hl, Hr.
    split; [reflexivity|]. cbn. apply holds_alloc; [done|].
    cbn. by apply lxor_range.
  - intros e ct k v [Hg Hr]. unfold after, reply. cbn in *. by rewrite Hg.
  - intros e bs k v [Hv ->]. unfold yields, after, reply. cbn.
    split; [reflexivity|]. cbn. apply holds_alloc; [|done].
    cbn. by rewrite to_N_u8_byte.
Qed.

End IdealFacts.

(** * Concrete runs on the reference engine *)

#[local] Existing Instance Ideal.engine.
#[local] Existing Instance Base64Std.codec.

Notation "x <- m ;; k" := (bind m (fun x => k))
  (at level 20, m at level 99, k at level 200, only parsing).

Lemma ready_boolean :
  boolean_ready IdealView.holds tt IdealView.boolean_service IdealView.ready.
Proof. split; eexists _, _; repeat split; reflexivity. Qed.

Lemma ready_uint8 :
  uint8_ready IdealView.holds tt IdealView.uint8_service IdealView.ready.
Proof. repeat split; eexists _, _; repeat split; reflexivity. Qed.

(** Round trip of the two ciphertexts held in [IdealView.holding]. *)
Lemma serialize_deserialize_roundtrip_witness :
  (wraps IdealView.holds IdealView.holding (Some 0%nat) (KBoolClient tt) /\
   wraps IdealView.holds IdealView.holding (Some 5%nat) (CBool tt true)) /\
  exists bs st1 c' st2,
    Ciphertext_Serialize (Some 5%nat) IdealView.holding = (Ok bs, st1) /\
    DeserializeCiphertext bs st1 = (Ok c', st2) /\
    (DecryptBool (Some 0%nat) c' st2).1 = Ok true /\
    (DecryptBool (Some 0%nat) (Some 5%nat) IdealView.holding).1 = Ok true.
Proof.
  assert (H1 : wraps IdealView.holds IdealView.holding (Some 0%nat) (KBoolClient tt))
    by (eexists _, _; repeat split; reflexivity).
  assert (H2 : wraps IdealView.holds IdealView.holding (Some 5%nat) (CBool tt true))
    by (eexists _, _; repeat split; reflexivity).
  split; [by split|].
  exact (proj1 (serialize_deserialize_roundtrip IdealView.holds IdealView.bound
                  IdealView.encodes IdealFacts.ideal_contract
                  IdealView.holding (Some 0%nat) (Some 5%nat) tt) true H1 H2).
Defined.

(** 200 + 100 wraps to 44. *)
Lemma integer_operations_witness :
  uint8_ready IdealView.holds tt IdealView.uint8_service IdealView.ready /\
  exists st',
    uint8_scenario Uint8Service_Add IdealView.uint8_service 200 100 IdealView.ready
      = (Ok 44, st') /\
    uint8_ready IdealView.holds tt IdealView.uint8_service st'.
Proof.
  split; [exact ready_uint8|].
  exact (proj1 (integer_operations_correct IdealView.holds IdealView.bound
                  IdealView.encodes IdealFacts.ideal_contract
                  Base64Facts.codec_contract IdealView.uint8_service
                  IdealView.ready tt 200 100 ready_uint8
                  ltac:(lia) ltac:(lia))).
Defined.

(** [and(true, false)] decrypts to [false]. *)
Lemma boolean_gates_witness :
  boolean_ready IdealView.holds tt IdealView.boolean_service IdealView.ready /\
  exists st',
    gate_scenario AndBase64 IdealView.boolean_service true false IdealView.ready
      = (Ok false, st') /\
    boolean_ready IdealView.holds tt IdealView.boolean_service st'.
Proof.
  split; [exact ready_boolean|].
  exact (proj1 (boolean_gates_correct IdealView.holds IdealView.bound
                  IdealView.encodes IdealFacts.ideal_contract
                  Base64Facts.codec_contract IdealView.boolean_service
                  IdealView.ready tt true false ready_boolean)).
Defined.

(** Releasing a [nil] ciphertext handle. *)
Lemma release_is_idempotent_witness :
  In (Ciphertext_Close (E := Ideal.t)) all_Close /\
  nil_handle IdealView.ready None /\
  Ciphertext_Close None IdealView.ready = (Ok tt, IdealView.ready).
Proof.
  assert (Hin : In (Ciphertext_Close (E := Ideal.t)) all_Close)
    by (cbn; tauto).
  split; [exact Hin|]. split; [exact I|].
  exact (proj1 (release_is_idempotent Ciphertext_Close IdealView.ready None Hin) I).
Defined.

(** Encrypting with a [nil] client key. *)
Lemma nil_handles_fail_fast_witness :
  (nil_handle IdealView.ready None /\
   valid_handle IdealView.ready (Some 0%nat) /\
   valid_handle IdealView.ready (Some 1%nat)) /\
  fails_fast (EncryptBool None true) IdealView.ready.
Proof.
  assert (H0 : valid_handle IdealView.ready (Some 0%nat)) by (cbn; lia).
  assert (H1 : valid_handle IdealView.ready (Some 1%nat)) by (cbn; lia).
  split; [by repeat split|].
  exact (proj1 (nil_handles_fail_fast IdealView.ready None (Some 0%nat) (Some 1%nat)
                  I H0 H1) true).
Defined.

(** Text that is not base64 at the service boundary. *)
Lemma invalid_input_is_an_error_witness :
  rejected boolean_deserialize_ciphertext IdealView.ready "not-base64-or-empty-bytes" /\
  is_err (DecryptBoolFromBase64 IdealView.boolean_service
            "not-base64-or-empty-bytes" IdealView.ready).1.
Proof.
  assert (Hrej : rejected boolean_deserialize_ciphertext IdealView.ready
                   "not-base64-or-empty-bytes").
  { right. left. eexists. vm_compute. reflexivity. }
  split; [exact Hrej|].
  exact (proj1 (proj2 (proj2 (proj1
    (invalid_input_is_an_error IdealView.ready "not-base64-or-empty-bytes"
       IdealView.boolean_service IdealView.uint8_service) Hrej)))).
Defined.


(** [Add] in the process whose integer service has been closed. *)
Lemma closed_key_fails_operations_witness :
  nil_handle IdealView.closed (holder IdealView.closed) /\
  is_err (Uint8Service_Add IdealView.uint8_service "VQc=" "VQc=" IdealView.closed).1.
Proof.
  assert (Hn : nil_handle IdealView.closed (holder IdealView.closed)) by reflexivity.
  split; [exact Hn|].
  exact (proj1 (proj2 (proj2 (proj2 closed_key_fails_operations))
                  IdealView.closed IdealView.uint8_service "VQc=" "VQc="
                  Uint8Service_Add Hn ltac:(cbn; tauto))).
Defined.

(** The constraint of one integer service is needed.  When a second
    integer service is constructed in the same process, its constructor
    assigns the holder; when the first service then adds a ciphertext of
    its own to itself, the key passed to [set_server_key] is the server
    key of the second service (engine address 9), not its own (engine
    address 4). *)
Lemma second_service_takes_the_holder :
  match (s1 <- NewUint8Service ;; s2 <- NewUint8Service ;;
         ca <- Uint8Service_Encrypt s1 7 ;; ret (s1, ca)) Ideal.start with
  | (Ok (s1, ca), st) => ~ binds_own_key s1 (Uint8Service_Add s1 ca ca) st
  | _ => False
  end.
Proof.
  vm_compute. intros H.
  destruct (H 9%N (or_introl eq_refl)) as (l & [= <-] & [=]).
Qed.

(** C10, as stated, fails.  After the integer service is constructed and
    closed, the holder's key is Nil, yet [Add] of two empty texts fails
    with ["ciphertext is empty"], and [Add] of text that is not base64
    with the decoder's error: the operands are checked before the key. *)
Lemma closed_service_counterexample :
  match (s <- NewUint8Service ;; r <- Uint8Service_Close s ;; ret r) Ideal.start with
  | (Ok (s', None), st) =>
      nil_handle st (holder st) /\
      (Uint8Service_Add s' "" "" st).1 = Err "ciphertext is empty" /\
      (Uint8Service_Add s' "" "" st).1 <> Err "server key is nil" /\
      (Uint8Service_BitXor s' "!!" "VQc=" st).1 <> Err "server key is nil"
  | _ => False
  end.
Proof. vm_compute. repeat split; congruence. Qed.

(** The events of one [Add] in the ready process: the two operands are
    deserialized, the lane is pinned, the holder's key (engine address 4)
    is bound, the sum is computed, the key is unbound, the lane unpinned,
    the result serialized, and the three ciphertexts destroyed. *)
Example add_events :
  map (fun ev => match ev with Call c _ => Some c | _ => None end)
    (trace (Uint8Service_Add IdealView.uint8_service "VQc=" "VQg=" IdealView.ready).2)
  = [Some (fhe_uint8_deserialize [x55; x07]);
     Some (fhe_uint8_deserialize [x55; x08]);
     None;
     Some (set_server_key 4);
     Some (fhe_uint8_add 6 7);
     Some unset_server_key;
     None;
     Some (fhe_uint8_serialize 8);
     Some (destroy_dynamic_buffer [x55; x0f]);
     Some (fhe_uint8_destroy 8);
     Some (fhe_uint8_destroy 7);
     Some (fhe_uint8_destroy 6)].
Proof. vm_compute. reflexivity. Qed.

(** * Concrete runs of the further properties *)

#[local] Existing Instance JsonStd.json.

(** Closing the integer service of the ready process. *)
Lemma service_close_witness :
  exists err st' r1 r2 r3 r4,
    Uint8Service_Close IdealView.uint8_service IdealView.ready
      = (Ok (mkUint8Service None None None, err), st') /\
    trace st' = trace IdealView.ready ++
                [Call (public_key_destroy 5) r1; Call (client_key_destroy 3) r2;
                 Call unset_server_key r3; Call (server_key_destroy 4) r4] /\
    holder st' = holder IdealView.ready /\
    (code r1 = 0 -> heap st' !! 4%nat = Some 0%N) /\
    (code r2 = 0 -> heap st' !! 2%nat = Some 0%N) /\
    (code r4 = 0 -> heap st' !! 3%nat = Some 0%N) /\
    (err = None <-> code r1 = 0 /\ code r2 = 0 /\ code r4 = 0).
Proof.
  exact (proj1 (proj2 service_close_destroys_every_key)
           IdealView.uint8_service IdealView.ready 2%nat 3%nat 4%nat 3%N 4%N 5%N
           eq_refl eq_refl eq_refl ltac:(lia) ltac:(lia) ltac:(lia)
           eq_refl eq_refl eq_refl ltac:(lia) ltac:(lia) ltac:(lia)).
Defined.

(** Encrypting with a service whose fields are [nil]. *)
Lemma closed_service_witness :
  (nil_handle IdealView.ready None /\ nil_handle IdealView.ready None) /\
  EncryptBoolToBase64 (mkBooleanService None None) true IdealView.ready
    = (Err "client key is nil", IdealView.ready).
Proof.
  split; [by split|].
  exact (proj1 (proj1 closed_service_refuses_operations
                  (mkBooleanService None None) IdealView.ready I I) true).
Defined.


(** 200 through the client key and through the public key. *)
Lemma encrypt_decrypt_witness :
  (uint8_ready IdealView.holds tt IdealView.uint8_service IdealView.ready /\
   0 <= 200 < 256) /\
  exists c st1 st2,
    Uint8Service_EncryptWithPublic IdealView.uint8_service 200 IdealView.ready
      = (Ok c, st1) /\
    Uint8Service_Decrypt IdealView.uint8_service c st1 = (Ok 200, st2) /\
    uint8_ready IdealView.holds tt IdealView.uint8_service st2.
Proof.
  split; [split; [exact ready_uint8|lia]|].
  exact (proj2 (proj2 (encrypt_decrypt_roundtrip IdealView.holds IdealView.bound
                         IdealView.encodes IdealFacts.ideal_contract
                         Base64Facts.codec_contract tt)
                  IdealView.uint8_service IdealView.ready 200
                  ready_uint8 ltac:(lia))).
Defined.

(** [(true AND NOT false) XOR (false OR true)] is [false]. *)
Lemma boolean_circuit_witness :
  boolean_ready IdealView.holds tt IdealView.boolean_service IdealView.ready /\
  exists st',
    (c <- boolean_circuit IdealView.boolean_service
            (BXor (BAnd (BLit true) (BNot (BLit false)))
                  (BOr (BLit false) (BLit true))) ;;
     DecryptBoolFromBase64 IdealView.boolean_service c) IdealView.ready
      = (Ok false, st') /\
    boolean_ready IdealView.holds tt IdealView.boolean_service st'.
Proof.
  split; [exact ready_boolean|].
  exact (boolean_circuits_evaluate IdealView.holds IdealView.bound
           IdealView.encodes IdealFacts.ideal_contract Base64Facts.codec_contract
           tt IdealView.boolean_service
           (BXor (BAnd (BLit true) (BNot (BLit false))) (BOr (BLit false) (BLit true)))
           IdealView.ready ready_boolean).
Defined.

(** [((200 + 100) mod 256) XOR 15] is [35]. *)
Lemma uint8_circuit_witness :
  (uint8_ready IdealView.holds tt IdealView.uint8_service IdealView.ready /\
   uliterals (UBitXor (UAdd (ULit 200) (UPub 100)) (ULit 15))) /\
  exists st',
    (c <- uint8_circuit IdealView.uint8_service
            (UBitXor (UAdd (ULit 200) (UPub 100)) (ULit 15)) ;;
     Uint8Service_Decrypt IdealView.uint8_service c) IdealView.ready
      = (Ok 35, st') /\
    uint8_ready IdealView.holds tt IdealView.uint8_service st'.
Proof.
  assert (Hlit : uliterals (UBitXor (UAdd (ULit 200) (UPub 100)) (ULit 15)))
    by (cbn; lia).
  split; [split; [exact ready_uint8|exact Hlit]|].
  exact (uint8_circuits_evaluate IdealView.holds IdealView.bound
           IdealView.encodes IdealFacts.ideal_contract Base64Facts.codec_contract
           tt IdealView.uint8_service
           (UBitXor (UAdd (ULit 200) (UPub 100)) (ULit 15))
           IdealView.ready ready_uint8 Hlit).
Defined.

(** A GET request to [/uint8/add]. *)
Lemma requests_rejected_witness :
  (In (Handler_addUint8 JsonStd.handler) (post_handlers JsonStd.handler) /\
   Method (mkRequest "GET" "") <> MethodPost) /\
  Handler_addUint8 JsonStd.handler JsonStd.fresh (mkRequest "GET" "") IdealView.ready
    = (Ok (WriteHeader StatusMethodNotAllowed JsonStd.fresh), IdealView.ready).
Proof.
  assert (Hin : In (Handler_addUint8 JsonStd.handler) (post_handlers JsonStd.handler))
    by (cbn; tauto).
  assert (Hm : Method (mkRequest "GET" "") <> MethodPost) by discriminate.
  split; [by split|].
  exact (proj1 (requests_rejected_before_the_service JsonStd.handler JsonStd.fresh
                  (mkRequest "GET" "") IdealView.ready) _ Hin Hm).
Defined.

(** A decrypt request with an empty ciphertext. *)
Lemma handlers_answer_witness :
  (In (Handler_decryptUint8 JsonStd.handler) (map snd (routes JsonStd.handler)) /\
   rw_status JsonStd.fresh = None) /\
  match Handler_decryptUint8 JsonStd.handler JsonStd.fresh
          (JsonStd.post (JsonStd.ciphertext_body "")) IdealView.ready with
  | (Ok w', _) => answered JsonStd.fresh w'
  | (Err _, _) => False
  | (Panic _, _) => True
  end.
Proof.
  assert (Hin : In (Handler_decryptUint8 JsonStd.handler)
                  (map snd (routes JsonStd.handler))) by (cbn; tauto).
  split; [by split|].
  exact (handlers_always_answer JsonStd.handler _ JsonStd.fresh
           (JsonStd.post (JsonStd.ciphertext_body "")) IdealView.ready Hin eq_refl).
Defined.

(** The add handler, whatever the request. *)
Lemma handlers_release_witness :
  In (Handler_addUint8 JsonStd.handler) (map snd (routes JsonStd.handler)) /\
  scoped (Handler_addUint8 JsonStd.handler JsonStd.fresh
            (JsonStd.post (JsonStd.left_right_body "VQc=" "VQg="))) /\
  keyed (Handler_addUint8 JsonStd.handler JsonStd.fresh
           (JsonStd.post (JsonStd.left_right_body "VQc=" "VQg="))).
Proof.
  assert (Hin : In (Handler_addUint8 JsonStd.handler)
                  (map snd (routes JsonStd.handler))) by (cbn; tauto).
  split; [exact Hin|].
  exact (handlers_release_and_unbind JsonStd.handler _ JsonStd.fresh
           (JsonStd.post (JsonStd.left_right_body "VQc=" "VQg=")) Hin).
Defined.

(** A decrypt request whose ciphertext is not base64. *)
Lemma unreadable_ciphertext_witness :
  (Method (JsonStd.post (JsonStd.ciphertext_body "not-base64-or-empty-bytes"))
     = MethodPost /\
   DecodeCiphertext
     (Body (JsonStd.post (JsonStd.ciphertext_body "not-base64-or-empty-bytes")))
     = inr "not-base64-or-empty-bytes" /\
   rejected boolean_deserialize_ciphertext IdealView.ready
     "not-base64-or-empty-bytes") /\
  exists e st',
    Handler_decrypt JsonStd.handler JsonStd.fresh
      (JsonStd.post (JsonStd.ciphertext_body "not-base64-or-empty-bytes"))
      IdealView.ready
      = (Ok (writeError JsonStd.fresh StatusInternalServerError e), st') /\
    heap st' = heap IdealView.ready.
Proof.
  assert (Hd : DecodeCiphertext
                 (Body (JsonStd.post
                          (JsonStd.ciphertext_body "not-base64-or-empty-bytes")))
               = inr "not-base64-or-empty-bytes") by (vm_compute; reflexivity).
  assert (Hrej : rejected boolean_deserialize_ciphertext IdealView.ready
                   "not-base64-or-empty-bytes").
  { right. left. eexists. vm_compute. reflexivity. }
  split; [by repeat split|].
  exact (proj1 (proj1 (proj1 (unreadable_ciphertext_is_a_server_error
                                JsonStd.handler JsonStd.fresh
                                (JsonStd.post (JsonStd.ciphertext_body
                                                 "not-base64-or-empty-bytes"))
                                IdealView.ready eq_refl)
                         _ Hd) Hrej)).
Defined.


(** [POST /uint8/add] with ciphertexts of 7 and 8. *)
Lemma handlers_compute_witness :
  (Method (JsonStd.post (JsonStd.left_right_body "VQc=" "VQg=")) = MethodPost /\
   uint8_ready IdealView.holds tt (h_uint8 JsonStd.handler) IdealView.ready /\
   DecodeLeftRight (Body (JsonStd.post (JsonStd.left_right_body "VQc=" "VQg=")))
     = inr (EncodeToString [x55; x07], EncodeToString [x55; x08]) /\
   IdealView.encodes [x55; x07] (CUint8 tt 7) /\
   IdealView.encodes [x55; x08] (CUint8 tt 8)) /\
  served IdealView.encodes (Handler_addUint8 JsonStd.handler) JsonStd.fresh
    (JsonStd.post (JsonStd.left_right_body "VQc=" "VQg=")) IdealView.ready
    (CUint8 tt ((7 + 8) mod 256))
    (fun st' => uint8_ready IdealView.holds tt (h_uint8 JsonStd.handler) st').
Proof.
  assert (Hd : DecodeLeftRight
                 (Body (JsonStd.post (JsonStd.left_right_body "VQc=" "VQg=")))
               = inr (EncodeToString [x55; x07], EncodeToString [x55; x08]))
    by (vm_compute; reflexivity).
  assert (Ha : IdealView.encodes [x55; x07] (CUint8 tt 7))
    by (split; [lia|reflexivity]).
  assert (Hb : IdealView.encodes [x55; x08] (CUint8 tt 8))
    by (split; [lia|reflexivity]).
  split; [split; [reflexivity|split; [exact ready_uint8|split; [exact Hd|split;
    [exact Ha|exact Hb]]]]|].
  exact (proj1 (proj2 (proj2 (proj2 (handlers_compute_on_ciphertexts
                  IdealView.holds IdealView.bound IdealView.encodes
                  IdealFacts.ideal_contract Base64Facts.codec_contract tt
                  JsonStd.handler JsonStd.fresh
                  (JsonStd.post (JsonStd.left_right_body "VQc=" "VQg=")) eq_refl)
                  IdealView.ready ready_uint8))
                  [x55; x07] [x55; x08] 7 8 Hd Ha Hb)).
Defined.

(** [AND] of the held boolean ciphertext with itself. *)
Lemma bindings_compute_witness :
  (wraps IdealView.holds IdealView.holding (Some 1%nat) (KBoolServer tt) /\
   wraps IdealView.holds IdealView.holding (Some 5%nat) (CBool tt true)) /\
  exists st',
    ServerKey_And (Some 1%nat) (Some 5%nat) (Some 5%nat) IdealView.holding
      = (Ok (Some (length (heap IdealView.holding))), st') /\
    wraps IdealView.holds st' (Some (length (heap IdealView.holding)))
      (CBool tt (true && true)) /\
    (forall c y, wraps IdealView.holds IdealView.holding c y ->
                 wraps IdealView.holds st' c y).
Proof.
  assert (Hs : wraps IdealView.holds IdealView.holding (Some 1%nat) (KBoolServer tt))
    by (eexists _, _; repeat split; reflexivity).
  assert (Hc : wraps IdealView.holds IdealView.holding (Some 5%nat) (CBool tt true))
    by (eexists _, _; repeat split; reflexivity).
  split; [by split|].
  exact (proj1 (proj1 (bindings_compute_and_consume_nothing IdealView.holds
                         IdealView.bound IdealView.encodes IdealFacts.ideal_contract
                         tt IdealView.holding)
                  (Some 1%nat) (Some 5%nat) (Some 5%nat) true true Hs Hc Hc)).
Defined.

(** Decrypting a handle that wraps a key instead of a ciphertext. *)
Lemma engine_refusal_witness :
  (heap IdealView.ready !! 0%nat = Some 1%N /\ 1%N <> 0%N /\
   heap IdealView.ready !! 1%nat = Some 2%N /\ 2%N <> 0%N /\
   code (reply (boolean_client_key_decrypt 1 2) (eng IdealView.ready)) <> 0) /\
  (DecryptBool (Some 0%nat) (Some 1%nat) IdealView.ready).1
    = Err "decrypt bool: tfhe error code 1".
Proof.
  assert (Hc : code (reply (boolean_client_key_decrypt 1 2) (eng IdealView.ready)) <> 0)
    by (vm_compute; discriminate).
  split; [repeat split; try reflexivity; try lia; exact Hc|].
  exact (f_equal fst
           (proj1 (proj1 (proj2 (proj2 (engine_refusals_are_reported IdealView.ready
                     0%nat 1%N eq_refl ltac:(lia))))
                    1%nat 2%N eq_refl ltac:(lia)) Hc)).
Defined.
